(** * tile-world: the configuration parser and the scene model, verified

    A shallow embedding of
      - [core/validator/TileValidator.ts]
      - [core/error/TWError.ts], [TWErrorCode.ts], [TWErrorHandler.ts]
      - [config/parser/TWMConfigParser.ts]
      - [scene/utils/SceneBuilderUtils.ts] and [scene/builder/SceneBuilder.ts]
    followed by the properties of these functions.

    Conventions of the embedding.
      - A JavaScript string is a [string]; its characters are the code units
        0..255.  The own properties of a record are the keys of a finite map.
        A write that would reach a built-in object through the prototype
        chain, and a CSS selector made from a name that is not a plain class
        name, are marked as leaving the embedding ([BeyondModel],
        [OutOfModel]); nothing is stated about a computation from there on.
      - Grid coordinates, and the [width]/[height] of a scene, are integers [Z].
      - A [throw] is a value: pure functions return [Result]; the methods of
        [SceneBuilder], which mutate the object before they may throw, return an
        [Outcome] that carries the object in both cases. *)

From Stdlib Require Import ZArith Ascii String DecimalString Lia.
From stdpp Require Import base option list gmap strings fin_maps.

Local Open Scope Z_scope.
Local Open Scope stdpp_scope.

(* ===================================================================== *)
(** ** JavaScript string primitives used by the sources                   *)
(* ===================================================================== *)

Module JS.

Definition code (c : ascii) : N := N_of_ascii c.

(** [WhiteSpace] and [LineTerminator] code units below 256: TAB, LF, VT, FF,
    CR, SP and NBSP.  This is the set removed by [String.prototype.trim]. *)
Definition is_ws (c : ascii) : bool :=
  match code c with
  | 9 | 10 | 11 | 12 | 13 | 32 | 160 => true
  | _ => false
  end%N.

Definition is_upper (c : ascii) : bool := ((65 <=? code c) && (code c <=? 90))%N.
Definition is_lower (c : ascii) : bool := ((97 <=? code c) && (code c <=? 122))%N.
(** [[A-Za-z]] *)
Definition is_alpha (c : ascii) : bool := is_upper c || is_lower c.
(** [\d] (no unicode flag): [[0-9]] *)
Definition is_digit (c : ascii) : bool := ((48 <=? code c) && (code c <=? 57))%N.

Definition is_empty (s : string) : bool :=
  match s with EmptyString => true | String _ _ => false end.

(** Truthiness of a string: every string but the empty one. *)
Definition truthy (s : string) : bool := negb (is_empty s).

(** Truthiness of an optional (possibly [undefined]) string. *)
Definition truthy_opt (o : option string) : bool :=
  match o with Some s => truthy s | None => false end.

Fixpoint all_chars (p : ascii -> bool) (s : string) : bool :=
  match s with
  | EmptyString => true
  | String c r => p c && all_chars p r
  end.

Fixpoint trimStart (s : string) : string :=
  match s with
  | EmptyString => EmptyString
  | String c r => if is_ws c then trimStart r else s
  end.

Fixpoint trimEnd (s : string) : string :=
  match s with
  | EmptyString => EmptyString
  | String c r =>
      let r' := trimEnd r in
      if is_empty r' && is_ws c then EmptyString else String c r'
  end.

(** [s.trim()] *)
Definition trim (s : string) : string := trimEnd (trimStart s).

(** [s.split(sep)] for a one-character separator: every occurrence of [sep]
    ends a piece; the result always has at least one piece. *)
Fixpoint split (sep : ascii) (s : string) : list string :=
  match s with
  | EmptyString => [EmptyString]
  | String c r =>
      if decide (c = sep) then EmptyString :: split sep r
      else match split sep r with
           | h :: t => String c h :: t
           | [] => [String c EmptyString]
           end
  end.

(** [s.startsWith(p)] *)
Definition startsWith (p s : string) : bool := String.prefix p s.

Fixpoint drop_last (s : string) : string :=
  match s with
  | EmptyString => EmptyString
  | String c EmptyString => EmptyString
  | String c r => String c (drop_last r)
  end.

(** [s.slice(1, -1)] *)
Definition slice_1_m1 (s : string) : string :=
  match s with
  | EmptyString => EmptyString
  | String _ r => drop_last r
  end.

(** Longest prefix of characters satisfying [p], and the rest. *)
Fixpoint span (p : ascii -> bool) (s : string) : string * string :=
  match s with
  | EmptyString => (EmptyString, EmptyString)
  | String c r =>
      if p c then let '(a, b) := span p r in (String c a, b)
      else (EmptyString, s)
  end.

(** [s.match(/^([A-Za-z]+)(\d+)$/)]: the two captures, or [None] for [null].
    The two classes are disjoint, so the greedy split is the only one. *)
Definition match_tile (s : string) : option (string * string) :=
  let '(a, d) := span is_alpha s in
  if truthy a && truthy d && all_chars is_digit d then Some (a, d) else None.

(** [/^[A-Za-z]+\d+$/.test(s)] *)
Definition test_tile (s : string) : bool :=
  match match_tile s with Some _ => true | None => false end.

(** [s.match(/^[A-Z]+/)?.[0] ?? null] *)
Definition match_upper_prefix (s : string) : option string :=
  let '(a, _) := span is_upper s in
  if truthy a then Some a else None.

(** Numbers.  [JInt z] is the integer [z]; [JOther s] stands for the value of
    [Number(s)] when [s] is not a plain signed decimal integer of magnitude
    at most 2^53 (then it is [NaN], an infinity, a fraction, or the value of
    an exponent or radix literal), which is kept symbolic. *)
Inductive Num : Type :=
| JInt (z : Z)
| JOther (s : string).

Fixpoint digits_value (acc : Z) (s : string) : Z :=
  match s with
  | EmptyString => acc
  | String c r => digits_value (10 * acc + (Z.of_N (code c) - 48)) r
  end.

Definition unsigned_digits (s : string) : option Z :=
  if truthy s && all_chars is_digit s then Some (digits_value 0 s) else None.

Definition signed_digits (s : string) : option Z :=
  match s with
  | String "+" r => unsigned_digits r
  | String "-" r => Z.opp <$> unsigned_digits r
  | _ => unsigned_digits s
  end.

(** [Number(s)] *)
Definition Number (s : string) : Num :=
  let t := trim s in
  if is_empty t then JInt 0
  else match signed_digits t with
       | Some z => if Z.abs z <=? 2 ^ 53 then JInt z else JOther t
       | None => JOther t
       end.

(** [s] between double quotes, as the message templates write it. *)
Definition quoted (s : string) : string :=
  String "034"%char (s +:+ String "034"%char EmptyString).

(** [z.toString()] and template interpolation of an integer (below 10^21 in
    magnitude, where the decimal notation is used). *)
Definition toString (z : Z) : string := NilZero.string_of_int (Z.to_int z).

End JS.

(* ===================================================================== *)
(** ** Errors: [TWErrorCode], [TWError], [TWErrorHandler.throw]           *)
(* ===================================================================== *)

Inductive TWErrorCode : Type :=
| MISSING_KEY_VALUE
| MISSING_SECTION
| UNKNOWN_SECTION
| INVALID_TILE_SYNTAX
| DUPLICATE_TILESET
| DUPLICATE_LAYER
| UNKNOWN_PROP_TYPE
| UNKNOWN_PROP_FORMAT
| NO_CONFIG_PROVIDED
| INVALID_QUERY
| MISSING_OR_INVALID_CONFIG
| INVALID_TILE_CODE
| TILESET_NOT_FOUND
| FAILED_TO_LOAD_IMAGE
| LAYER_ALREADY_EXISTS
| LAYER_NOT_FOUND
| INVALID_TILE_POSITION.

(** A [TWError] by the arguments its constructor is given.  The [message]
    property of the error object is the code between square brackets, a
    space, and then [message]. *)
Record TWError : Type := mkTWError {
  code : TWErrorCode;
  message : string;
  context : option string;
  component : option string
}.

(** How a call can end without a value.  [TW] and [TypeError] are what the
    sources throw: a [TWError], or the [TypeError] the engine raises when a
    property of [undefined] is read or written.  [BeyondModel] is no
    exception.  It marks a call that writes to a built-in object of the
    engine, [Object.prototype] or one of its methods: the engine refuses the
    write with a [TypeError] when the property is read-only, and otherwise
    the write changes what every object of the page inherits.  The embedding
    does not follow either, and the computation ends there. *)
Inductive Exn : Type :=
| TW (e : TWError)
| TypeError
| BeyondModel.

Inductive Result (A : Type) : Type :=
| Ok (a : A)
| Throw (e : Exn).
Arguments Ok {A} a.
Arguments Throw {A} e.

#[global] Instance Result_ret : MRet Result := @Ok.
#[global] Instance Result_bind : MBind Result := λ A B f m,
  match m with
  | Ok a => f a
  | Throw e => Throw e
  end.

(** [TWErrorHandler.throw(code, message, context, component)]: builds the
    error, logs it to the console and throws it. *)
Definition throw {A} (c : TWErrorCode) (msg : string)
    (ctx : option string) (comp : string) : Result A :=
  Throw (TW (mkTWError c msg ctx (Some comp))).

Definition thrown_code {A} (r : Result A) : option TWErrorCode :=
  match r with
  | Throw (TW e) => Some (code e)
  | _ => None
  end.

(* ===================================================================== *)
(** ** [TileValidator]                                                    *)
(* ===================================================================== *)

Definition validateTileFormat (tile context : string) : Result unit :=
  let trimmed := JS.trim tile in
  if decide (trimmed = "0") then Ok tt
  else if negb (JS.test_tile trimmed) then
    throw INVALID_TILE_SYNTAX
      ("Invalid tile format: " +:+ JS.quoted trimmed
         +:+ ". Expected like G0 or S1 or 0 for empty tiles.")
      (Some context) "TileValidator"
  else Ok tt.

(* ===================================================================== *)
(** ** [config/interfaces/twm-config.ts]                                  *)
(* ===================================================================== *)

Record TWMMainConfig : Type := mkMain {
  m_tileSize : Z;
  m_width : Z;
  m_height : Z
}.

Record TWMLayer : Type := mkLayer {
  l_name : string;
  l_tiles : list (list string)
}.

Record TWMTileset : Type := mkTileset {
  ts_id : string;
  ts_tileset : string;
  ts_short : string
}.

Record TWMPropsMap : Type := mkProps {
  p_tilesets : gmap string (gmap string string);
  p_layers : gmap string (gmap string string);
  p_tiles : gmap string (gmap string string)
}.

Record TWMConfig : Type := mkConfig {
  c_main : TWMMainConfig;
  c_layers : list TWMLayer;
  c_tilesets : list TWMTileset;
  c_props : TWMPropsMap
}.

(* ===================================================================== *)
(** ** [TWMConfigParser]                                                  *)
(* ===================================================================== *)

Module Parser.

(** [config.main] while and after parsing: an object on which each of the
    three properties is either absent or the result of [Number(value)]. *)
Record PartialMain : Type := mkPMain {
  tileSize : option JS.Num;
  width : option JS.Num;
  height : option JS.Num
}.

(** [Partial<TWMLayer>] *)
Record PartialLayer : Type := mkPLayer {
  name : option string;
  tiles : option (list (list string))
}.

(** [Partial<TWMTileset>] *)
Record PartialTileset : Type := mkPTileset {
  id : option string;
  tileset : option string;
  short : option string
}.

(** [Partial<TWMConfig>]; [layers], [tilesets] and [props] are set from the
    start, [main] is not. *)
Record PartialConfig : Type := mkPConfig {
  main : option PartialMain;
  layers : list TWMLayer;
  tilesets : list TWMTileset;
  props : TWMPropsMap
}.

Record ParserState : Type := mkState {
  currentSection : string;
  currentLayer : PartialLayer;
  tempTileset : PartialTileset;
  config : PartialConfig
}.

Definition empty_layer : PartialLayer := mkPLayer None None.
Definition empty_tileset : PartialTileset := mkPTileset None None None.
Definition empty_main : PartialMain := mkPMain None None None.

Definition initial_state : ParserState :=
  mkState EmptyString empty_layer empty_tileset
    (mkPConfig None [] [] (mkProps ∅ ∅ ∅)).

Definition set_section (s : string) (st : ParserState) : ParserState :=
  mkState s (currentLayer st) (tempTileset st) (config st).
Definition set_layer (l : PartialLayer) (st : ParserState) : ParserState :=
  mkState (currentSection st) l (tempTileset st) (config st).
Definition set_tileset (t : PartialTileset) (st : ParserState) : ParserState :=
  mkState (currentSection st) (currentLayer st) t (config st).
Definition set_config (c : PartialConfig) (st : ParserState) : ParserState :=
  mkState (currentSection st) (currentLayer st) (tempTileset st) c.

(** [if (state.currentLayer.name) config.layers.push(state.currentLayer)].
    A layer record that has a name was built by a [[layer:...]] header, which
    sets [tiles] as well (lemma [named_layer_has_tiles]). *)
Definition push_current_layer (st : ParserState) : PartialConfig :=
  let c := config st in
  match name (currentLayer st) with
  | Some n =>
      if JS.truthy n then
        mkPConfig (main c)
          (layers c ++ [mkLayer n (default [] (tiles (currentLayer st)))])
          (tilesets c) (props c)
      else c
  | None => c
  end.

Definition handleSectionHeader (line : string) (st : ParserState)
    : Result ParserState :=
  let section := JS.slice_1_m1 line in
  if decide (section = "main") then
    Ok (set_section "main" st)
  else if JS.startsWith "tileset:" section then
    Ok (set_tileset (mkPTileset (JS.split ":" section !! 1%nat) None None)
          (set_section "tileset" st))
  else if JS.startsWith "layer:" section then
    Ok (mkState "layer"
          (mkPLayer (JS.split ":" section !! 1%nat) (Some []))
          (tempTileset st)
          (push_current_layer st))
  else if decide (section = "props") then
    Ok (set_section "props" st)
  else
    throw UNKNOWN_SECTION ("Unknown section header: [" +:+ section +:+ "]")
      (Some line) "Parser".

Definition handleMain (key value : string) (c : PartialConfig)
    : Result PartialConfig :=
  let m := default empty_main (main c) in
  let assign m' := Ok (mkPConfig (Some m') (layers c) (tilesets c) (props c)) in
  if decide (key = "tileSize") then
    assign (mkPMain (Some (JS.Number value)) (width m) (height m))
  else if decide (key = "width") then
    assign (mkPMain (tileSize m) (Some (JS.Number value)) (height m))
  else if decide (key = "height") then
    assign (mkPMain (tileSize m) (width m) (Some (JS.Number value)))
  else
    throw MISSING_KEY_VALUE ("Unknown main property " +:+ JS.quoted key)
      (Some key) "Parser".

(** [tilesets.find(ts => ts.short === s)] and the like: the first match. *)
Definition find_tileset (p : TWMTileset → bool) (l : list TWMTileset)
    : option TWMTileset :=
  List.find p l.

Definition handleTileset (key value : string) (st : ParserState)
    : Result ParserState :=
  let t0 := tempTileset st in
  let t :=
    if decide (key = "tileset") then mkPTileset (id t0) (Some value) (short t0)
    else if decide (key = "short") then mkPTileset (id t0) (tileset t0) (Some value)
    else t0 in
  match id t, tileset t, short t with
  | Some i, Some src, Some sh =>
      if JS.truthy i && JS.truthy src && JS.truthy sh then
        let c := config st in
        match find_tileset (λ ts, bool_decide (ts_short ts = sh)) (tilesets c) with
        | Some _ =>
            throw DUPLICATE_TILESET ("Duplicate tileset short " +:+ JS.quoted sh)
              (Some value) "Parser"
        | None =>
            match find_tileset (λ ts, bool_decide (ts_id ts = i)) (tilesets c) with
            | Some _ =>
                throw DUPLICATE_TILESET ("Duplicate tileset id " +:+ JS.quoted i)
                  (Some value) "Parser"
            | None =>
                Ok (set_tileset empty_tileset
                      (set_config
                         (mkPConfig (main c) (layers c)
                            (tilesets c ++ [mkTileset i src sh]) (props c))
                         st))
            end
        end
      else Ok (set_tileset t st)
  | _, _, _ => Ok (set_tileset t st)
  end.

(** One row of a [tiles] value: the cells, trimmed and validated in order. *)
Fixpoint parse_cells (row : string) (cells : list string)
    : Result (list string) :=
  match cells with
  | [] => Ok []
  | cell :: rest =>
      let trimmed := JS.trim cell in
      _ ← validateTileFormat trimmed row;
      r ← parse_cells row rest;
      Ok (trimmed :: r)
  end.

Fixpoint parse_rows (rows : list string) : Result (list (list string)) :=
  match rows with
  | [] => Ok []
  | row :: rest =>
      r ← parse_cells row (JS.split "," row);
      g ← parse_rows rest;
      Ok (r :: g)
  end.

(** [value.split(';').map(r => r.trim()).filter(Boolean)] *)
Definition tile_rows (value : string) : list string :=
  List.filter JS.truthy (List.map JS.trim (JS.split ";" value)).

Definition handleLayer (key value : string) (st : ParserState)
    : Result ParserState :=
  let cl :=
    match tiles (currentLayer st) with
    | Some _ => currentLayer st
    | None => mkPLayer (name (currentLayer st)) (Some [])
    end in
  if decide (key = "tiles") then
    match List.find (λ t, bool_decide (Some (l_name t) = name cl))
                    (layers (config st)) with
    | Some _ =>
        throw DUPLICATE_LAYER
          ("Duplicate layer name "
             +:+ JS.quoted (default "undefined" (name cl)))
          (Some value) "Parser"
    | None =>
        g ← parse_rows (tile_rows value);
        Ok (set_layer (mkPLayer (name cl) (Some g)) st)
    end
  else Ok (set_layer cl st).

(** The own properties of [Object.prototype].  A record made by [{}]
    inherits them: [m[k]] is then a built-in, not [undefined], although [m]
    has no own property [k]. *)
Definition Object_prototype_keys : list string :=
  ["__proto__"; "constructor"; "hasOwnProperty"; "isPrototypeOf";
   "propertyIsEnumerable"; "toLocaleString"; "toString"; "valueOf";
   "__defineGetter__"; "__defineSetter__"; "__lookupGetter__";
   "__lookupSetter__"].

Definition inherited_key (k : string) : bool :=
  existsb (λ k', bool_decide (k' = k)) Object_prototype_keys.

(** [m[identifier] ??= {}; m[identifier][propKey] = value], for a string
    [value].
    - When [identifier] names a property of [Object.prototype], [m[identifier]]
      is that built-in, [??=] assigns nothing, and the write goes to the
      built-in: [BeyondModel].
    - Otherwise [m[identifier]] is the own record of [m], made if there is
      none.  The write to [propKey] makes or replaces an own property of that
      record, except for [__proto__]: that is the accessor of
      [Object.prototype], whose setter ignores a value that is not an object,
      so nothing is stored. *)
Definition set_prop (identifier propKey value : string)
    (m : gmap string (gmap string string))
    : Result (gmap string (gmap string string)) :=
  if inherited_key identifier then Throw BeyondModel
  else
    let record := default ∅ (m !! identifier) in
    Ok (<[identifier := if decide (propKey = "__proto__") then record
                        else <[propKey := value]> record]> m).

Definition handleProps (key value : string) (st : ParserState)
    : Result ParserState :=
  match JS.split "." key with
  | type :: identifier :: propKey :: _ =>
      let c := config st in
      let p := props c in
      let with_props p' :=
        Ok (set_config (mkPConfig (main c) (layers c) (tilesets c) p') st) in
      if decide (type = "tileset") then
        t ← set_prop identifier propKey value (p_tilesets p);
        with_props (mkProps t (p_layers p) (p_tiles p))
      else if decide (type = "layer") then
        t ← set_prop identifier propKey value (p_layers p);
        with_props (mkProps (p_tilesets p) t (p_tiles p))
      else if decide (type = "tile") then
        t ← set_prop identifier propKey value (p_tiles p);
        with_props (mkProps (p_tilesets p) (p_layers p) t)
      else
        throw UNKNOWN_PROP_TYPE ("Unknown props type " +:+ JS.quoted type)
          (Some key) "Parser"
  | _ =>
      throw UNKNOWN_PROP_FORMAT "Invalid props key format" (Some key) "Parser"
  end.

Definition handleKeyValue (key value : string) (st : ParserState)
    : Result ParserState :=
  if decide (currentSection st = "main") then
    c ← handleMain key value (config st); Ok (set_config c st)
  else if decide (currentSection st = "tileset") then handleTileset key value st
  else if decide (currentSection st = "layer") then handleLayer key value st
  else if decide (currentSection st = "props") then handleProps key value st
  else
    throw UNKNOWN_SECTION
      ("Unhandled section " +:+ JS.quoted (currentSection st))
      (Some key) "Parser".

(** The body of the [for (let rawLine of lines)] loop. *)
Definition process_line (rawLine : string) (st : ParserState)
    : Result ParserState :=
  let line := JS.trim rawLine in
  if JS.is_empty line || JS.startsWith "#" line then Ok st
  else if JS.startsWith "[" line then handleSectionHeader line st
  else
    (* const [keyRaw, valueRaw] = line.split('=') *)
    match JS.split "=" line with
    | keyRaw :: valueRaw :: _ =>
        handleKeyValue (JS.trim keyRaw) (JS.trim valueRaw) st
    | _ =>
        throw MISSING_KEY_VALUE "Expected key=value format" (Some line) "Parser"
    end.

Fixpoint process_lines (lines : list string) (st : ParserState)
    : Result ParserState :=
  match lines with
  | [] => Ok st
  | l :: rest => st' ← process_line l st; process_lines rest st'
  end.

(** After the loop: push the last layer, require [main]. *)
Definition finish (st : ParserState) : Result PartialConfig :=
  let c := push_current_layer st in
  match main c with
  | None => throw MISSING_SECTION "Missing [main] section" None "Parser"
  | Some _ => Ok c
  end.

(** [parseConfig] on the text of the response. *)
Definition parseConfig (raw : string) : Result PartialConfig :=
  st ← process_lines (JS.split "010" raw) initial_state;
  finish st.

(** The parsed object read at its declared type [TWMConfig]: defined when
    the three main properties are present integers. *)
Definition as_TWMConfig (c : PartialConfig) : option TWMConfig :=
  match main c with
  | Some (mkPMain (Some (JS.JInt ts)) (Some (JS.JInt w)) (Some (JS.JInt h))) =>
      Some (mkConfig (mkMain ts w h) (layers c) (tilesets c) (props c))
  | _ => None
  end.

(** *** Vocabulary of the properties *)

(** A state the parser can be in between two lines of some text. *)
Definition reachable (st : ParserState) : Prop :=
  ∃ lines : list string, process_lines lines initial_state = Ok st.

(** The in-progress tileset record lacks one of [id], [tileset], [short]
    (an empty string counts as lacking). *)
Definition tileset_incomplete (t : PartialTileset) : Prop :=
  JS.truthy_opt (id t) && JS.truthy_opt (tileset t) && JS.truthy_opt (short t)
  = false.

(** A finalized tileset has its three properties, none of them empty. *)
Definition tileset_complete (ts : TWMTileset) : Prop :=
  ts_id ts ≠ EmptyString ∧ ts_tileset ts ≠ EmptyString
  ∧ ts_short ts ≠ EmptyString.

(** The key and the value the loop takes from a line:
    [const [keyRaw, valueRaw] = line.split('=')], both trimmed. *)
Definition key_value_of (rawLine : string) : option (string * string) :=
  match JS.split "=" (JS.trim rawLine) with
  | keyRaw :: valueRaw :: _ => Some (JS.trim keyRaw, JS.trim valueRaw)
  | _ => None
  end.


(** The grid of a [tiles] value as the format describes it: the rows are
    the pieces between [;] that are not blank, the cells of a row are the
    pieces between [,], and rows and cells are taken without the white space
    around them. *)
Definition blank (s : string) : bool := JS.is_empty (JS.trim s).
Definition rows_of (value : string) : list string :=
  List.map JS.trim (List.filter (λ r, negb (blank r)) (JS.split ";" value)).
Definition cells_of_row (row : string) : list string :=
  List.map JS.trim (JS.split "," row).
Definition grid_of (value : string) : list (list string) :=
  List.map cells_of_row (rows_of value).

(** A finalized layer already has the name of the layer in progress. *)
Definition duplicate_layer (st : ParserState) : Prop :=
  ∃ l, l ∈ layers (config st) ∧ Some (l_name l) = name (currentLayer st).

(** The loop skips the line: it is blank or a comment. *)
Definition skipped (rawLine : string) : bool :=
  JS.is_empty (JS.trim rawLine) || JS.startsWith "#" (JS.trim rawLine).




(** The layer a line declares: the text between the first and the second [:]
    of a [[layer:...]] header, when it is not empty. *)
Definition declared_layer (rawLine : string) : option string :=
  if skipped rawLine then None
  else if JS.startsWith "[" (JS.trim rawLine)
          && JS.startsWith "layer:" (JS.slice_1_m1 (JS.trim rawLine)) then
    match JS.split ":" (JS.slice_1_m1 (JS.trim rawLine)) !! 1%nat with
    | Some n => if JS.truthy n then Some n else None
    | None => None
    end
  else None.

(** The names of the layers a parser state holds: the finalized ones, then
    the one in progress if it has a name. *)
Definition layer_names (st : ParserState) : list string :=
  List.map l_name (layers (config st))
  ++ match name (currentLayer st) with
     | Some n => if JS.truthy n then [n] else []
     | None => []
     end.

(** The error codes a [key=value] line can fail with, by section. *)
Definition section_codes (section : string) : list TWErrorCode :=
  if decide (section = "main") then [MISSING_KEY_VALUE]
  else if decide (section = "tileset") then [DUPLICATE_TILESET]
  else if decide (section = "layer") then [DUPLICATE_LAYER; INVALID_TILE_SYNTAX]
  else if decide (section = "props") then [UNKNOWN_PROP_FORMAT; UNKNOWN_PROP_TYPE]
  else [UNKNOWN_SECTION].

(** The key of a props line whose write reaches a built-in: a props type
    followed by an identifier that names a property of [Object.prototype]. *)
Definition reaches_builtin (key : string) : bool :=
  match JS.split "." key with
  | type :: identifier :: _ :: _ =>
      bool_decide (type ∈ ["tileset"; "layer"; "tile"])
      && inherited_key identifier
  | _ => false
  end.

(** The error codes of the parser. *)
Definition parser_codes : list TWErrorCode :=
  [MISSING_KEY_VALUE; MISSING_SECTION; UNKNOWN_SECTION; INVALID_TILE_SYNTAX;
   DUPLICATE_TILESET; DUPLICATE_LAYER; UNKNOWN_PROP_TYPE; UNKNOWN_PROP_FORMAT].

(** The props map a props type selects. *)
Definition table_of (type : string) (p : TWMPropsMap)
    : gmap string (gmap string string) :=
  if decide (type = "tileset") then p_tilesets p
  else if decide (type = "layer") then p_layers p
  else p_tiles p.

(** The value of property [propKey] of [identifier] under a props type. *)
Definition prop_value (type identifier propKey : string) (p : TWMPropsMap)
    : option string :=
  default ∅ (table_of type p !! identifier) !! propKey.

End Parser.

(* ===================================================================== *)
(** ** [SceneBuilderUtils] and [SceneBuilder]                             *)
(* ===================================================================== *)

(** [scene/interfaces/TileMetadata.ts] *)
Record TileMetadata : Type := mkMeta {
  tile : string;
  layerName : string;
  tilesetShort : string;
  tilesetId : string;
  meta_props : gmap string string
}.

(** A rendered layer: the [div] that [createGridElement] makes for the layer
    [g_layer], whose [class] attribute is [tw-layer tw-layer--<name>], with
    the tile code each of its [div.tw-tile] children was created from. *)
Record GridElement : Type := mkGrid {
  g_layer : string;
  g_children : list string
}.

(** The fields of a [SceneBuilder] that the methods below read or write.
    [dom] is the list of children of the [.tw-scene-wrapper] that the
    constructor installs in the container.  [settings], [hiddenLayers] and the
    pointer fields (see [HoverState]) play no part in these methods. *)
Record SceneBuilder : Type := mkScene {
  config : TWMConfig;
  runtimeLayers : list TWMLayer;
  dom : list GridElement
}.

(** The result of a method call on a [SceneBuilder]: the object after the
    call, whether the call returned or threw.  [OutOfModel] marks the two
    situations left out: an assignment [layer.tiles[y][x] = ...] beyond the
    end of an existing row, which makes the row sparse, and a
    [querySelector] whose selector is made from a layer name that is not a
    plain class name (see [query_layer]). *)
Inductive Outcome (A : Type) : Type :=
| Returned (a : A) (s : SceneBuilder)
| Thrown (e : Exn) (s : SceneBuilder)
| OutOfModel.
Arguments Returned {A} a s.
Arguments Thrown {A} e s.
Arguments OutOfModel {A}.

Definition scene_after {A} (o : Outcome A) : option SceneBuilder :=
  match o with
  | Returned _ s | Thrown _ s => Some s
  | OutOfModel => None
  end.

Definition outcome_code {A} (o : Outcome A) : option TWErrorCode :=
  match o with
  | Thrown (TW e) _ => Some (code e)
  | _ => None
  end.

Definition set_runtimeLayers (ls : list TWMLayer) (s : SceneBuilder) : SceneBuilder :=
  mkScene (config s) ls (dom s).
Definition set_dom (d : list GridElement) (s : SceneBuilder) : SceneBuilder :=
  mkScene (config s) (runtimeLayers s) d.

(** [SceneBuilderUtils.createEmpty2DArray] *)
Definition createEmpty2DArray (width height : Z) : list (list string) :=
  replicate (Z.to_nat height) (replicate (Z.to_nat width) "0").

Definition pos_text (x y : Z) : string :=
  "(" +:+ JS.toString x +:+ "," +:+ JS.toString y +:+ ")".

(** [SceneBuilderUtils.createTileElement], as far as it can throw; the element
    it returns is represented by the tile code it shows. *)
Definition createTileElement (tileCode : string) (x y : Z) (cfg : TWMConfig)
    : Result string :=
  if decide (tileCode = "0") then Ok tileCode
  else
    let ctx := "Tile: " +:+ tileCode +:+ ", Pos: " +:+ pos_text x y in
    _ ← validateTileFormat tileCode ctx;
    match JS.match_tile tileCode with
    | None =>
        throw INVALID_TILE_CODE ("Invalid tile code: " +:+ JS.quoted tileCode)
          (Some ctx) "SceneBuilderUtils"
    | Some (short, indexStr) =>
        match List.find (λ ts, bool_decide (ts_short ts = short)) (c_tilesets cfg) with
        | None =>
            throw TILESET_NOT_FOUND
              ("Tileset short " +:+ JS.quoted short +:+ " not found.")
              (Some ("TileCode: " +:+ tileCode +:+ ", Short: " +:+ short))
              "SceneBuilderUtils"
        | Some _ => Ok tileCode
        end
    end.

Fixpoint create_row (cells : list string) (x y : Z) (cfg : TWMConfig)
    : Result (list string) :=
  match cells with
  | [] => Ok []
  | c :: rest =>
      el ← createTileElement c x y cfg;
      els ← create_row rest (x + 1) y cfg;
      Ok (el :: els)
  end.

Fixpoint create_rows (rows : list (list string)) (y : Z) (cfg : TWMConfig)
    : Result (list string) :=
  match rows with
  | [] => Ok []
  | r :: rest =>
      els ← create_row r 0 y cfg;
      more ← create_rows rest (y + 1) cfg;
      Ok (els ++ more)
  end.

(** [SceneBuilderUtils.createGridElement]: one tile element per cell, row by
    row. *)
Definition createGridElement (layer : TWMLayer) (cfg : TWMConfig)
    : Result GridElement :=
  els ← create_rows (l_tiles layer) 0 cfg;
  Ok (mkGrid (l_name layer) els).

Fixpoint create_grids (ls : list TWMLayer) (cfg : TWMConfig)
    : Result (list GridElement) :=
  match ls with
  | [] => Ok []
  | l :: rest =>
      g ← createGridElement l cfg;
      gs ← create_grids rest cfg;
      Ok (g :: gs)
  end.

(** [buildScene]: a fresh wrapper with one grid per layer, static layers
    first; the container is replaced only after every grid was created, so
    the object is untouched when a grid cannot be created. *)
Definition buildScene (s : SceneBuilder) : Result SceneBuilder :=
  gs ← create_grids (c_layers (config s) ++ runtimeLayers s) (config s);
  Ok (set_dom gs s).

(** [refresh] *)
Definition refresh (s : SceneBuilder) : Result SceneBuilder := buildScene s.

(** [new SceneBuilder(selector, config, settings)]; [found] tells whether the
    selector matches an element.  A [config] of type [TWMConfig] has [layers],
    [main] and [tilesets], so the second check of the constructor passes. *)
Definition new_SceneBuilder (found : bool) (selector : string) (cfg : TWMConfig)
    : Result SceneBuilder :=
  if negb found then
    throw INVALID_QUERY
      ("Invalid query with selector: " +:+ JS.quoted selector
         +:+ ". No element found.")
      (Some ("selector: " +:+ selector)) "SceneBuilder"
  else buildScene (mkScene cfg [] []).

Definition has_name (n : string) (l : TWMLayer) : bool :=
  bool_decide (l_name l = n).

(** ASCII white space, which separates the tokens of a [class] attribute:
    TAB, LF, FF, CR and SPACE. *)
Definition is_class_separator (c : ascii) : bool :=
  match JS.code c with
  | 9 | 10 | 12 | 13 | 32 => true
  | _ => false
  end%N.

(** The pieces of a string between separators, empty pieces included. *)
Fixpoint class_pieces (s : string) : list string :=
  match s with
  | EmptyString => [EmptyString]
  | String c r =>
      if is_class_separator c then EmptyString :: class_pieces r
      else match class_pieces r with
           | h :: t => String c h :: t
           | [] => [String c EmptyString]
           end
  end.

(** The tokens of a [class] attribute. *)
Definition class_tokens (className : string) : list string :=
  List.filter JS.truthy (class_pieces className).

(** [grid.className = `tw-layer tw-layer--${layer.name}`] *)
Definition layer_class (layerName : string) : string :=
  "tw-layer--" +:+ layerName.
Definition grid_className (layerName : string) : string :=
  "tw-layer " +:+ layer_class layerName.

(** The element of the layer [owner] carries the class [cls]. *)
Definition has_class (cls owner : string) : Prop :=
  cls ∈ class_tokens (grid_className owner).

#[global] Instance has_class_dec (cls owner : string) :
  Decision (has_class cls owner) :=
  decide (cls ∈ class_tokens (grid_className owner)).

(** A name made of ASCII letters, digits, [-] and [_] only.  After
    [.tw-layer--] such a name continues the identifier of a class selector
    and nothing else. *)
Definition plain_class_char (c : ascii) : bool :=
  JS.is_alpha c || JS.is_digit c
  || bool_decide (c = "-"%char) || bool_decide (c = "_"%char).
Definition plain_class_name (n : string) : bool :=
  JS.all_chars plain_class_char n.

(** A name without white space: in a [class] attribute it stays one token. *)
Definition no_separator (n : string) : bool :=
  JS.all_chars (λ c, negb (is_class_separator c)) n.

(** [container.querySelector(`.tw-layer--${layerName}`)] for a [layerName]
    that is a plain class name.  The selector is then the class selector for
    [tw-layer--layerName] and finds the first element in the container whose
    [class] attribute has that token (compared exactly: the document is in
    no-quirks mode).  Only a grid can have it: the class of the wrapper is
    [tw-scene-wrapper], the classes of a tile are [tw-tile] and
    [tw-tile--hidden].  A grid has the tokens of
    [tw-layer tw-layer--<name>], which are more than two when the name of its
    layer has white space in it.
    For any other [layerName] the text after [.tw-layer--] is another
    selector, or none ([querySelector] then throws a [SyntaxError]); the
    callers end with [OutOfModel] there. *)
Definition query_layer (layerName : string) (d : list GridElement)
    : option (nat * GridElement) :=
  list_find (λ g, has_class (layer_class layerName) (g_layer g)) d.

(** [layer?.tiles?.[y]?.[x] ?? "0"] *)
Definition cell_at (g : list (list string)) (x y : Z) : string :=
  if (x <? 0) || (y <? 0) then "0"
  else default "0" (g !! Z.to_nat y ≫= λ row, row !! Z.to_nat x).

(** [addRuntimeLayerToDOM] *)
Definition addRuntimeLayerToDOM (layerName : string) (s : SceneBuilder)
    : Outcome unit :=
  let m := c_main (config s) in
  let tiles := createEmpty2DArray (m_width m) (m_height m) in
  let newLayer := mkLayer layerName tiles in
  let s1 := set_runtimeLayers (runtimeLayers s ++ [newLayer]) s in
  match createGridElement newLayer (config s1) with
  | Throw e => Thrown e s1
  | Ok layerEl => Returned tt (set_dom (dom s1 ++ [layerEl]) s1)
  end.

(** [createRuntimeLayer] *)
Definition createRuntimeLayer (layerName : string) (s : SceneBuilder)
    : Outcome unit :=
  let exists_ :=
    existsb (has_name layerName) (c_layers (config s))
    || existsb (has_name layerName) (runtimeLayers s) in
  if exists_ then
    Thrown (TW (mkTWError LAYER_ALREADY_EXISTS
                  ("Layer with name " +:+ JS.quoted layerName +:+ " already exists.")
                  (Some ("layerName: " +:+ layerName)) (Some "SceneBuilder"))) s
  else
    let m := c_main (config s) in
    let tiles := createEmpty2DArray (m_width m) (m_height m) in
    let s1 := set_runtimeLayers (runtimeLayers s ++ [mkLayer layerName tiles]) s in
    addRuntimeLayerToDOM layerName s1.

(** [getTileCodeFromLayer] *)
Definition getTileCodeFromLayer (layerName : string) (x y : Z)
    (s : SceneBuilder) : string :=
  let layer :=
    match List.find (has_name layerName) (runtimeLayers s) with
    | Some l => Some l
    | None => List.find (has_name layerName) (c_layers (config s))
    end in
  match layer with
  | Some l => cell_at (l_tiles l) x y
  | None => "0"
  end.

(** [updateTileInDOM] *)
Definition updateTileInDOM (layerName : string) (x y : Z) (s : SceneBuilder)
    : Outcome unit :=
  if negb (plain_class_name layerName) then OutOfModel
  else
    match query_layer layerName (dom s) with
    | None => Returned tt s
    | Some (i, layerEl) =>
        let tileIndex := y * m_width (c_main (config s)) + x in
        let oldTileEl :=
          if tileIndex <? 0 then None
          else g_children layerEl !! Z.to_nat tileIndex in
        match oldTileEl with
        | None => Returned tt s
        | Some _ =>
            let tileCode := getTileCodeFromLayer layerName x y s in
            match createTileElement tileCode x y (config s) with
            | Throw e => Thrown e s
            | Ok tileEl =>
                let layerEl' :=
                  mkGrid (g_layer layerEl)
                    (<[Z.to_nat tileIndex := tileEl]> (g_children layerEl)) in
                Returned tt (set_dom (<[i := layerEl']> (dom s)) s)
            end
        end
    end.

Definition out_of_bounds (x y : Z) (m : TWMMainConfig) : bool :=
  (x <? 0) || (x >=? m_width m) || (y <? 0) || (y >=? m_height m).

Definition layer_not_found {A} (layerName : string) (s : SceneBuilder) : Outcome A :=
  Thrown (TW (mkTWError LAYER_NOT_FOUND
                ("Layer " +:+ JS.quoted layerName +:+ " does not exist.")
                (Some ("layerName: " +:+ layerName)) (Some "SceneBuilder"))) s.

Definition invalid_position {A} (layerName : string) (x y : Z) (s : SceneBuilder)
    : Outcome A :=
  let m := c_main (config s) in
  Thrown (TW (mkTWError INVALID_TILE_POSITION
                ("Invalid position (" +:+ JS.toString x +:+ ", " +:+ JS.toString y
                   +:+ ") for layer " +:+ JS.quoted layerName +:+ ".")
                (Some ("x: " +:+ JS.toString x +:+ ", y: " +:+ JS.toString y
                         +:+ ", width: " +:+ JS.toString (m_width m)
                         +:+ ", height: " +:+ JS.toString (m_height m)))
                (Some "SceneBuilder"))) s.

(** [layer.tiles[y][x] = v] on the first runtime layer named [layerName], then
    [updateTileInDOM]: the common end of [addTile] and [removeTile]. *)
Definition assign_and_update (layerName : string) (x y : Z) (v : string)
    (s : SceneBuilder) : Outcome unit :=
  match list_find (λ l, l_name l = layerName) (runtimeLayers s) with
  | None => layer_not_found layerName s
  | Some (i, layer) =>
      if out_of_bounds x y (c_main (config s)) then invalid_position layerName x y s
      else
        match l_tiles layer !! Z.to_nat y with
        | None => Thrown TypeError s
        | Some row =>
            if (Z.to_nat x <? length row)%nat then
              let layer' :=
                mkLayer (l_name layer)
                  (<[Z.to_nat y := <[Z.to_nat x := v]> row]> (l_tiles layer)) in
              updateTileInDOM layerName x y
                (set_runtimeLayers (<[i := layer']> (runtimeLayers s)) s)
            else OutOfModel
        end
  end.

(** [addTile] *)
Definition addTile (layerName : string) (x y : Z) (tileCode : string)
    (s : SceneBuilder) : Outcome unit :=
  match validateTileFormat tileCode
          ("addTile: " +:+ tileCode +:+ " @ " +:+ pos_text x y) with
  | Throw e => Thrown e s
  | Ok _ => assign_and_update layerName x y tileCode s
  end.

(** [removeTile] *)
Definition removeTile (layerName : string) (x y : Z) (s : SceneBuilder)
    : Outcome unit :=
  assign_and_update layerName x y "0" s.

(** [props.tiles[tileCode] ?? {}] and the like *)
Definition props_of (m : gmap string (gmap string string)) (k : string)
    : gmap string string :=
  default ∅ (m !! k).

(** [{...a, ...b, ...c}]: later spreads win. *)
Definition spread3 (a b c : gmap string string) : gmap string string :=
  c ∪ (b ∪ a).

(** One turn of the loop of [getTileMetadataStack]: [None] for [continue]. *)
Definition metadata_of_layer (cfg : TWMConfig) (x y : Z) (layer : TWMLayer)
    : Result (option TileMetadata) :=
  let tileCode := cell_at (l_tiles layer) x y in
  if JS.is_empty tileCode || bool_decide (tileCode = "0") then Ok None
  else
    let tilesetShort := JS.match_upper_prefix tileCode in
    (* ts.short === tilesetShort is false for every ts when tilesetShort is null *)
    let tileset :=
      match tilesetShort with
      | Some sh => List.find (λ ts, bool_decide (ts_short ts = sh)) (c_tilesets cfg)
      | None => None
      end in
    let p := c_props cfg in
    let tileProps := props_of (p_tiles p) tileCode in
    let layerProps := props_of (p_layers p) (l_name layer) in
    match tilesetShort, tileset with
    | Some sh, Some ts =>
        let tilesetProps := props_of (p_tilesets p) (ts_id ts) in
        Ok (Some (mkMeta tileCode (l_name layer) sh (ts_id ts)
                    (spread3 tilesetProps layerProps tileProps)))
    | _, _ => Throw TypeError      (* tileset!.id with tileset undefined *)
    end.

Fixpoint metadata_of_layers (cfg : TWMConfig) (x y : Z) (ls : list TWMLayer)
    : Result (list TileMetadata) :=
  match ls with
  | [] => Ok []
  | l :: rest =>
      o ← metadata_of_layer cfg x y l;
      r ← metadata_of_layers cfg x y rest;
      Ok (match o with Some t => t :: r | None => r end)
  end.

(** [getTileMetadataStack] *)
Definition getTileMetadataStack (x y : Z) (s : SceneBuilder)
    : Result (list TileMetadata) :=
  if out_of_bounds x y (c_main (config s)) then Ok []
  else metadata_of_layers (config s) x y (c_layers (config s) ++ runtimeLayers s).

(** [Object.assign(target, source)] *)
Definition Object_assign (target source : gmap string string) : gmap string string :=
  source ∪ target.

(** [getProps] *)
Definition getProps (x y : Z) (s : SceneBuilder) : Result (gmap string string) :=
  stack ← getTileMetadataStack x y s;
  Ok (foldl (λ mergedProps t, Object_assign mergedProps (meta_props t)) ∅ stack).

(** [getPropsFromHighestTile] *)
Definition getPropsFromHighestTile (x y : Z) (s : SceneBuilder)
    : Result (gmap string string) :=
  stack ← getTileMetadataStack x y s;
  Ok (match last stack with Some t => meta_props t | None => ∅ end).

(** [getTileAsElement]: a tile element outside the grid, made at position
    [(0, 0)]. *)
Definition getTileAsElement (tileCode : string) (s : SceneBuilder)
    : Result string :=
  createTileElement tileCode 0 0 (config s).

(* ===================================================================== *)
(** ** Layer visibility                                                   *)
(* ===================================================================== *)

(** A layer element of the wrapper with its [style.display]; [None] when
    the embedding has lost track of it (see [set_display]). *)
Record LayerElement : Type := mkLayerElement {
  le_layer : string;
  le_display : option string
}.

(** What the visibility methods of a [SceneBuilder] read and write: the
    field [hiddenLayers] and the layer elements in the container. *)
Record Visibility : Type := mkVisibility {
  hiddenLayers : list string;
  layerElements : list LayerElement
}.

(** [isLayerHidden] *)
Definition isLayerHidden (layerName : string) (v : Visibility) : bool :=
  bool_decide (layerName ∈ hiddenLayers v).

(** The first layer element that carries the class [tw-layer--layerName]:
    what [querySelector(`.tw-layer--${layerName}`)] finds when [layerName]
    is a plain class name (see [query_layer]). *)
Definition find_layer_element (layerName : string) (els : list LayerElement)
    : option (nat * LayerElement) :=
  list_find (λ el, has_class (layer_class layerName) (le_layer el)) els.

(** [el = container.querySelector(`.tw-layer--${layerName}`);
     if (el) el.style.display = display].
    For a [layerName] that is not a plain class name the selector is another
    selector or none: the call sets the display of whatever element that
    selector finds, or ends with a [SyntaxError].  The embedding then loses
    track of every display. *)
Definition set_display (layerName display : string) (els : list LayerElement)
    : list LayerElement :=
  if plain_class_name layerName then
    match find_layer_element layerName els with
    | Some (i, el) => <[i := mkLayerElement (le_layer el) (Some display)]> els
    | None => els
    end
  else List.map (λ el, mkLayerElement (le_layer el) None) els.

(** [hideLayer]: the fields after the call.  The name is pushed before the
    selector is used, so [hiddenLayers] is as given here also when the
    selector makes the call end with a [SyntaxError]. *)
Definition hideLayer (layerName : string) (v : Visibility) : Visibility :=
  if negb (isLayerHidden layerName v) then
    mkVisibility (hiddenLayers v ++ [layerName])
      (set_display layerName "none" (layerElements v))
  else v.

(** [showLayer]: the fields after the call; [hiddenLayers] is assigned
    before the selector is used. *)
Definition showLayer (layerName : string) (v : Visibility) : Visibility :=
  if isLayerHidden layerName v then
    mkVisibility
      (List.filter (λ name, negb (bool_decide (name = layerName))) (hiddenLayers v))
      (set_display layerName "grid" (layerElements v))
  else v.

(** [toggleLayer] *)
Definition toggleLayer (layerName : string) (v : Visibility) : Visibility :=
  if isLayerHidden layerName v then showLayer layerName v
  else hideLayer layerName v.

(** What [buildScene] does to the layer elements: the wrapper is replaced by
    a new one with one element per layer, each made by [createGridElement]
    with [style.display = 'grid']; [hiddenLayers] is neither read nor
    written. *)
Definition rebuilt (layers : list string) (v : Visibility) : Visibility :=
  mkVisibility (hiddenLayers v)
    (List.map (λ n, mkLayerElement n (Some "grid")) layers).

(** The display of the first layer element that carries the class
    [tw-layer--layerName], when there is one. *)
Definition display_of (layerName : string) (v : Visibility)
    : option (option string) :=
  le_display <$> (snd <$> find_layer_element layerName (layerElements v)).

(* ===================================================================== *)
(** ** Pointer tracking: the handlers installed by [buildScene]           *)
(* ===================================================================== *)

Section Hover.

(** Subscribed functions and DOM mouse events are opaque. *)
Variables Callback MouseEvent : Type.

(** [scene/interfaces/SceneBuilderEvent.ts] *)
Record TileMouseEvent : Type := mkEvent {
  ev_x : Z;
  ev_y : Z;
  originalMouseEvent : MouseEvent
}.

Record SceneEventSubscriber : Type := mkSubscriber {
  onTileClicked : list Callback;
  onTileHover : list Callback;
  onTileHoverEnd : list Callback
}.

(** The fields [lastHoveredTile] and [eventSubscriber] of a [SceneBuilder]. *)
Record HoverState : Type := mkHover {
  lastHoveredTile : Z * Z;
  eventSubscriber : SceneEventSubscriber
}.

(** One invocation [cb(event)] of a subscribed function. *)
Inductive Call : Type :=
| call (cb : Callback) (event : TileMouseEvent).

Definition emptyEventSubscriber : SceneEventSubscriber := mkSubscriber [] [] [].

Definition no_tile : Z * Z := (-1, -1).

Definition initial_hover : HoverState := mkHover no_tile emptyEventSubscriber.

Definition set_last (p : Z * Z) (h : HoverState) : HoverState :=
  mkHover p (eventSubscriber h).

(** [onTileHoverEvent(cb)], [onTileHoverEndEvent(cb)] *)
Definition onTileHoverEvent (cb : Callback) (h : HoverState) : HoverState :=
  let e := eventSubscriber h in
  mkHover (lastHoveredTile h)
    (mkSubscriber (onTileClicked e) (onTileHover e ++ [cb]) (onTileHoverEnd e)).
Definition onTileHoverEndEvent (cb : Callback) (h : HoverState) : HoverState :=
  let e := eventSubscriber h in
  mkHover (lastHoveredTile h)
    (mkSubscriber (onTileClicked e) (onTileHover e) (onTileHoverEnd e ++ [cb])).

(** [for (const cb of subscribers) cb(event)] *)
Definition notify (subscribers : list Callback) (event : TileMouseEvent)
    : list Call :=
  List.map (λ cb, call cb event) subscribers.

(** [lastHoveredTile.x !== -1 && lastHoveredTile.y !== -1] *)
Definition has_last (h : HoverState) : bool :=
  negb (fst (lastHoveredTile h) =? -1) && negb (snd (lastHoveredTile h) =? -1).

(** [wrapper.onmousemove]; [tx], [ty] are [parseInt] of the target's
    [data-x], [data-y], with [None] for [NaN].  Returns the new state and
    the invocations made, in order. *)
Definition onmousemove (tx ty : option Z) (e : MouseEvent) (h : HoverState)
    : HoverState * list Call :=
  match tx, ty with
  | Some x, Some y =>
      if (fst (lastHoveredTile h) =? x) && (snd (lastHoveredTile h) =? y)
      then (h, [])
      else
        let ended :=
          if has_last h then
            notify (onTileHoverEnd (eventSubscriber h))
              (mkEvent (fst (lastHoveredTile h)) (snd (lastHoveredTile h)) e)
          else [] in
        (set_last (x, y) h,
         ended ++ notify (onTileHover (eventSubscriber h)) (mkEvent x y e))
  | _, _ => (h, [])
  end.

(** [wrapper.onmouseleave] *)
Definition onmouseleave (e : MouseEvent) (h : HoverState)
    : HoverState * list Call :=
  let ended :=
    if has_last h then
      notify (onTileHoverEnd (eventSubscriber h))
        (mkEvent (fst (lastHoveredTile h)) (snd (lastHoveredTile h)) e)
    else [] in
  (set_last no_tile h, ended).

(** What the pointer does. *)
Inductive Pointer : Type :=
| Move (tx ty : option Z) (e : MouseEvent)
| Leave (e : MouseEvent).

Definition pointer_step (p : Pointer) (h : HoverState) : HoverState * list Call :=
  match p with
  | Move tx ty e => onmousemove tx ty e h
  | Leave e => onmouseleave e h
  end.

(** The state after a sequence of pointer actions and every invocation made
    on the way. *)
Fixpoint pointer_run (ps : list Pointer) (h : HoverState)
    : HoverState * list Call :=
  match ps with
  | [] => (h, [])
  | p :: rest =>
      let '(h1, c1) := pointer_step p h in
      let '(h2, c2) := pointer_run rest h1 in
      (h2, c1 ++ c2)
  end.

(** *** Vocabulary of the properties *)

(** A hover event, before it is handed to the subscribers. *)
Inductive HoverEvent : Type :=
| HoverStart (cell : Z * Z) (e : MouseEvent)
| HoverEnd (cell : Z * Z) (e : MouseEvent).

(** The invocations that deliver one event to its subscribers. *)
Definition deliver (sub : SceneEventSubscriber) (ev : HoverEvent) : list Call :=
  match ev with
  | HoverStart c e => notify (onTileHover sub) (mkEvent (fst c) (snd c) e)
  | HoverEnd c e => notify (onTileHoverEnd sub) (mkEvent (fst c) (snd c) e)
  end.

(** The cell the pointer is in, if any. *)
Definition hovered (h : HoverState) : option (Z * Z) :=
  if has_last h then Some (lastHoveredTile h) else None.

(** A grid cell: both coordinates are indices. *)
Definition is_cell (c : Z * Z) : Prop := 0 <= fst c ∧ 0 <= snd c.

(** The last hovered tile is the sentinel or a grid cell. *)
Definition tracked (h : HoverState) : Prop :=
  lastHoveredTile h = no_tile ∨ is_cell (lastHoveredTile h).

(** The pointer targets only elements without coordinates or grid cells. *)
Definition on_grid (p : Pointer) : Prop :=
  match p with
  | Move (Some x) (Some y) _ => is_cell (x, y)
  | _ => True
  end.

(** [entries o evs o']: starting in cell [o] (or outside), [evs] starts a
    hover only when none is open and ends only the open one, for the same
    cell, and leaves [o'] open. *)
Inductive entries : option (Z * Z) → list HoverEvent → option (Z * Z) → Prop :=
| entries_nil o : entries o [] o
| entries_start c e evs o' :
    entries (Some c) evs o' → entries None (HoverStart c e :: evs) o'
| entries_end c e evs o' :
    entries None evs o' → entries (Some c) (HoverEnd c e :: evs) o'.

End Hover.

Arguments mkEvent {MouseEvent}.
Arguments mkSubscriber {Callback}.
Arguments mkHover {Callback}.
Arguments call {Callback MouseEvent}.
Arguments emptyEventSubscriber {Callback}.
Arguments initial_hover {Callback}.
Arguments set_last {Callback}.
Arguments notify {Callback MouseEvent}.
Arguments has_last {Callback}.
Arguments hovered {Callback}.
Arguments onmousemove {Callback MouseEvent}.
Arguments onmouseleave {Callback MouseEvent}.
Arguments Move {MouseEvent}.
Arguments Leave {MouseEvent}.
Arguments pointer_step {Callback MouseEvent}.
Arguments pointer_run {Callback MouseEvent}.
Arguments HoverStart {MouseEvent}.
Arguments HoverEnd {MouseEvent}.
Arguments deliver {Callback MouseEvent}.
Arguments tracked {Callback}.
Arguments on_grid {MouseEvent}.
Arguments entries {MouseEvent}.

(* ===================================================================== *)
(** ** Clicks and the subscriber object                                   *)
(* ===================================================================== *)

Section Clicks.

Variables Callback MouseEvent : Type.

(** [onTileClickedEvent(cb)] *)
Definition onTileClickedEvent (cb : Callback) (h : HoverState Callback)
    : HoverState Callback :=
  let e := eventSubscriber _ h in
  mkHover (lastHoveredTile _ h)
    (mkSubscriber (onTileClicked _ e ++ [cb]) (onTileHover _ e) (onTileHoverEnd _ e)).

(** [tileEl.onmousedown] of the tile at [(x, y)], as [createTileElement]
    installs it on the tiles of a grid. *)
Definition onmousedown (x y : Z) (e : MouseEvent) (h : HoverState Callback)
    : list (Call Callback MouseEvent) :=
  notify (onTileClicked _ (eventSubscriber _ h)) (mkEvent x y e).

(** Several scenes on one page.  The field initializer
    [eventSubscriber = emptyEventSubscriber] stores in every new
    [SceneBuilder] a reference to the one object the module creates, and the
    subscription methods push onto the arrays of the object they find there.
    Objects are kept in a store and named by their address. *)
Record Instance : Type := mkInstance {
  inst_eventSubscriber : nat;
  inst_lastHoveredTile : Z * Z
}.

Record Page : Type := mkPage {
  objects : gmap nat (SceneEventSubscriber Callback);
  instances : list Instance
}.

(** The address of the module-level [emptyEventSubscriber]. *)
Definition emptyEventSubscriber_ref : nat := 0%nat.

(** The page once the module is loaded. *)
Definition initial_page : Page :=
  mkPage {[ emptyEventSubscriber_ref := emptyEventSubscriber ]} [].

(** The field initializers of [new SceneBuilder(...)]. *)
Definition new_instance (p : Page) : Page :=
  mkPage (objects p)
    (instances p ++ [mkInstance emptyEventSubscriber_ref no_tile]).

(** [onTileClickedEvent(cb)] called on the [i]-th scene of the page. *)
Definition page_onTileClickedEvent (i : nat) (cb : Callback) (p : Page) : Page :=
  match instances p !! i with
  | Some inst =>
      mkPage
        (alter (λ sub, mkSubscriber (onTileClicked _ sub ++ [cb])
                         (onTileHover _ sub) (onTileHoverEnd _ sub))
           (inst_eventSubscriber inst) (objects p))
        (instances p)
  | None => p
  end.

(** A mouse-down on tile [(x, y)] of the [i]-th scene. *)
Definition page_onmousedown (i : nat) (x y : Z) (e : MouseEvent) (p : Page)
    : list (Call Callback MouseEvent) :=
  match instances p !! i with
  | Some inst =>
      match objects p !! inst_eventSubscriber inst with
      | Some sub => notify (onTileClicked _ sub) (mkEvent x y e)
      | None => []
      end
  | None => []
  end.

(** Every scene of the page was made by [new_instance] after the module was
    loaded. *)
Definition page_constructed (p : Page) : Prop :=
  is_Some (objects p !! emptyEventSubscriber_ref)
  ∧ Forall (λ inst, inst_eventSubscriber inst = emptyEventSubscriber_ref)
      (instances p).

End Clicks.

Arguments onTileClickedEvent {Callback}.
Arguments onmousedown {Callback MouseEvent}.
Arguments mkPage {Callback}.
Arguments objects {Callback}.
Arguments instances {Callback}.
Arguments initial_page {Callback}.
Arguments new_instance {Callback}.
Arguments page_onTileClickedEvent {Callback}.
Arguments page_onmousedown {Callback MouseEvent}.
Arguments page_constructed {Callback}.

(* ===================================================================== *)
(** ** Vocabulary of the properties                                       *)
(* ===================================================================== *)

(** The text of a file given line by line. *)
Fixpoint lines_text (ls : list string) : string :=
  match ls with
  | [] => EmptyString
  | [l] => l
  | l :: rest => l +:+ String "010" (lines_text rest)
  end.

(** [c] occurs in [s]. *)
Fixpoint occurs (c : ascii) (s : string) : bool :=
  match s with
  | EmptyString => false
  | String c' r => bool_decide (c' = c) || occurs c r
  end.

(** [s] is one or more ASCII letters followed by one or more digits. *)
Definition letters_digits (s : string) : Prop :=
  ∃ a d : string,
    s = a +:+ d ∧ a ≠ EmptyString ∧ d ≠ EmptyString
    ∧ JS.all_chars JS.is_alpha a = true ∧ JS.all_chars JS.is_digit d = true.

(** A tile code: the empty marker or letters followed by digits. *)
Definition tile_code (s : string) : Prop := s = "0" ∨ letters_digits s.

(** The boolean test for [tile_code]. *)
Definition is_tile_code (s : string) : bool :=
  bool_decide (s = "0") || JS.test_tile s.

(** The alpha-prefix of a tile code: all its leading letters. *)
Definition alpha_prefix (s : string) : string := fst (JS.span JS.is_alpha s).

(** The scene built from the text of a configuration: parse, read the result
    at type [TWMConfig], construct the [SceneBuilder] on an existing
    container. *)
Definition scene_of_text (raw : string) : option SceneBuilder :=
  match Parser.parseConfig raw with
  | Ok c =>
      match Parser.as_TWMConfig c with
      | Some cfg =>
          match new_SceneBuilder true "#scene" cfg with
          | Ok s => Some s
          | Throw _ => None
          end
      | None => None
      end
  | Throw _ => None
  end.

(** Every runtime layer has [height] rows of [width] cells. *)
Definition full_grids (s : SceneBuilder) : Prop :=
  Forall (λ l, length (l_tiles l) = Z.to_nat (m_height (c_main (config s)))
               ∧ Forall (λ row, length row = Z.to_nat (m_width (c_main (config s))))
                   (l_tiles l))
    (runtimeLayers s).

(** No runtime layer has the name of a static layer. *)
Definition static_names_free (s : SceneBuilder) : Prop :=
  Forall (λ r, ∀ l, l ∈ c_layers (config s) → l_name r ≠ l_name l)
    (runtimeLayers s).

(** The layer [createRuntimeLayer] makes: all cells hold the empty marker. *)
Definition empty_layer_of (layerName : string) (s : SceneBuilder) : TWMLayer :=
  mkLayer layerName
    (replicate (Z.to_nat (m_height (c_main (config s))))
       (replicate (Z.to_nat (m_width (c_main (config s)))) "0")).

(** No static or runtime layer is called [layerName]. *)
Definition fresh_name (layerName : string) (s : SceneBuilder) : Prop :=
  (∀ l, l ∈ c_layers (config s) → l_name l ≠ layerName)
  ∧ (∀ l, l ∈ runtimeLayers s → l_name l ≠ layerName).

(** The value of key [k] in the highest entry of a stack (bottom first) that
    has the key. *)
Fixpoint top_value (k : string) (stack : list TileMetadata) : option string :=
  match stack with
  | [] => None
  | t :: above =>
      match top_value k above with
      | Some v => Some v
      | None => meta_props t !! k
      end
  end.

(** The first of three optional values that is present. *)
Definition first_of (a b c : option string) : option string :=
  match a, b with
  | Some v, _ => Some v
  | None, Some v => Some v
  | None, None => c
  end.

(** A small configuration, and its scene after
    [createRuntimeLayer("furniture")]. *)
Definition demo_text : string :=
  lines_text ["[main]"; "tileSize=16"; "width=2"; "height=1";
              "[tileset:ground]"; "tileset=g.png"; "short=G";
              "[layer:bg]"; "tiles=G0,0"].

Definition demo_scene : option SceneBuilder :=
  s ← scene_of_text demo_text;
  scene_after (createRuntimeLayer "furniture" s).

(** The layer holds a tile at [(x, y)]: the cell is neither missing, empty
    nor the empty marker. *)
Definition holds_tile (x y : Z) (l : TWMLayer) : bool :=
  negb (JS.is_empty (cell_at (l_tiles l) x y)
        || bool_decide (cell_at (l_tiles l) x y = "0")).

(** The layers that hold a tile at [(x, y)]: static layers first, each group
    in its own order. *)
Definition layers_at (x y : Z) (s : SceneBuilder) : list TWMLayer :=
  List.filter (holds_tile x y) (c_layers (config s) ++ runtimeLayers s).

(** The upper-case prefix of a tile code: all its leading upper-case
    letters. *)
Definition upper_prefix (tileCode : string) : string :=
  fst (JS.span JS.is_upper tileCode).

(** The first tileset whose short is the upper-case prefix of the tile code,
    when that prefix is not empty. *)
Definition upper_tileset (cfg : TWMConfig) (tileCode : string)
    : option TWMTileset :=
  if JS.truthy (upper_prefix tileCode) then
    List.find (λ ts, bool_decide (ts_short ts = upper_prefix tileCode))
      (c_tilesets cfg)
  else None.

(** The entry of the stack that a layer holding a tile gives. *)
Definition entry_of (cfg : TWMConfig) (x y : Z) (t : TileMetadata) (l : TWMLayer)
    : Prop :=
  tile t = cell_at (l_tiles l) x y
  ∧ layerName t = l_name l
  ∧ tilesetShort t = upper_prefix (tile t)
  ∧ ∃ ts, upper_tileset cfg (tile t) = Some ts ∧ tilesetId t = ts_id ts.

(** A cell as the parser stores it: a tile code with no white space around. *)
Definition stored_cell (c : string) : Prop := tile_code c ∧ JS.trim c = c.

(** The cell [(x, y)] of a grid, when the grid has it. *)
Definition grid_cell (g : list (list string)) (x y : nat) : option string :=
  g !! y ≫= λ row, row !! x.

(** All rows of a grid have [w] cells. *)
Definition rectangular (w : nat) (g : list (list string)) : Prop :=
  Forall (λ row, length row = w) g.

(** The tile code can be drawn: it is the empty marker, or letters followed
    by digits with a tileset whose short is the letters. *)
Definition drawable (cfg : TWMConfig) (tileCode : string) : Prop :=
  tileCode = "0"
  ∨ (letters_digits tileCode
     ∧ ∃ ts, ts ∈ c_tilesets cfg ∧ ts_short ts = alpha_prefix tileCode).

(** The message of the validator for an offending (trimmed) string. *)
Definition invalid_tile_message (trimmed : string) : string :=
  "Invalid tile format: " +:+ JS.quoted trimmed
    +:+ ". Expected like G0 or S1 or 0 for empty tiles.".

(* ===================================================================== *)
(** * Properties                                                          *)
(* ===================================================================== *)

(** ** Strings *)

Lemma append_cons (c : ascii) (a b : string) :
  String c a +:+ b = String c (a +:+ b).
Proof. reflexivity. Qed.

Lemma append_empty_l (b : string) : EmptyString +:+ b = b.
Proof. reflexivity. Qed.

Lemma digit_not_alpha (c : ascii) :
  JS.is_digit c = true → JS.is_alpha c = false.
Proof.
  unfold JS.is_digit, JS.is_alpha, JS.is_upper, JS.is_lower.
  generalize (JS.code c); intros n H.
  apply andb_true_iff in H as [H1 H2].
  apply N.leb_le in H1, H2.
  apply orb_false_iff; split; apply andb_false_iff; left; apply N.leb_gt; lia.
Qed.

Lemma upper_is_alpha (c : ascii) : JS.is_upper c = true → JS.is_alpha c = true.
Proof. unfold JS.is_alpha; intros ->; reflexivity. Qed.

Lemma truthy_nonempty (s : string) : JS.truthy s = true ↔ s ≠ EmptyString.
Proof. destruct s; unfold JS.truthy; simpl; split; intros; congruence. Qed.

Lemma span_spec (p : ascii → bool) (s : string) :
  let '(a, r) := JS.span p s in
  s = a +:+ r ∧ JS.all_chars p a = true
  ∧ match r with EmptyString => True | String c _ => p c = false end.
Proof.
  induction s as [|c s IH]; simpl.
  - auto.
  - destruct (p c) eqn:Hc.
    + destruct (JS.span p s) as [a r]. destruct IH as (-> & Ha & Hr).
      rewrite append_cons. simpl. rewrite Hc, Ha. auto.
    + rewrite append_empty_l. auto.
Qed.

Lemma span_app_stop (p : ascii → bool) (a r : string) :
  JS.all_chars p a = true →
  match r with EmptyString => True | String c _ => p c = false end →
  JS.span p (a +:+ r) = (a, r).
Proof.
  intros Ha Hr. induction a as [|c a IH].
  - rewrite append_empty_l. destruct r as [|c r]; simpl; [reflexivity|].
    rewrite Hr. reflexivity.
  - simpl in Ha. apply andb_true_iff in Ha as [Hc Ha].
    rewrite append_cons. simpl. rewrite Hc, (IH Ha). reflexivity.
Qed.

Lemma match_tile_Some (s a d : string) :
  JS.match_tile s = Some (a, d) ↔
  s = a +:+ d ∧ a ≠ EmptyString ∧ d ≠ EmptyString
  ∧ JS.all_chars JS.is_alpha a = true ∧ JS.all_chars JS.is_digit d = true.
Proof.
  unfold JS.match_tile. split.
  - pose proof (span_spec JS.is_alpha s) as Hs.
    destruct (JS.span JS.is_alpha s) as [a' d']. destruct Hs as (-> & Ha & _).
    destruct (JS.truthy a' && JS.truthy d' && JS.all_chars JS.is_digit d') eqn:E;
      [|discriminate].
    intros [= <- <-].
    apply andb_true_iff in E as [E Hd]. apply andb_true_iff in E as [Ta Td].
    apply truthy_nonempty in Ta, Td. auto.
  - intros (-> & Ha & Hd & Aa & Ad).
    rewrite span_app_stop; auto.
    + apply truthy_nonempty in Ha, Hd. rewrite Ha, Hd, Ad. reflexivity.
    + destruct d as [|c d]; [auto|]. simpl in Ad.
      apply andb_true_iff in Ad as [Hc _]. apply digit_not_alpha, Hc.
Qed.

Lemma test_tile_letters_digits (s : string) :
  JS.test_tile s = true ↔ letters_digits s.
Proof.
  unfold JS.test_tile, letters_digits. split.
  - destruct (JS.match_tile s) as [[a d]|] eqn:E; [|discriminate].
    intros _. exists a, d. apply match_tile_Some, E.
  - intros (a & d & H). apply match_tile_Some in H. rewrite H. reflexivity.
Qed.

(** ** The tile validator *)

Lemma validateTileFormat_cases (c ctx : string) :
  validateTileFormat c ctx =
    if bool_decide (JS.trim c = "0") || JS.test_tile (JS.trim c) then Ok tt
    else Throw (TW (mkTWError INVALID_TILE_SYNTAX
                      (invalid_tile_message (JS.trim c))
                      (Some ctx) (Some "TileValidator"))).
Proof.
  unfold validateTileFormat. destruct (decide (JS.trim c = "0")) as [E|E].
  - rewrite bool_decide_eq_true_2 by exact E. reflexivity.
  - rewrite bool_decide_eq_false_2 by exact E. simpl.
    destruct (JS.test_tile (JS.trim c)); reflexivity.
Qed.

Lemma validateTileFormat_Ok (c ctx : string) :
  validateTileFormat c ctx = Ok tt ↔ tile_code (JS.trim c).
Proof.
  rewrite validateTileFormat_cases. unfold tile_code.
  rewrite <- test_tile_letters_digits.
  destruct (decide (JS.trim c = "0")) as [E|E].
  - rewrite bool_decide_eq_true_2 by exact E. simpl. tauto.
  - rewrite bool_decide_eq_false_2 by exact E. simpl.
    destruct (JS.test_tile (JS.trim c)); split; intros H; auto.
    + discriminate.
    + destruct H; congruence.
Qed.

Lemma is_tile_code_spec s : is_tile_code s = true ↔ tile_code s.
Proof.
  unfold is_tile_code, tile_code. rewrite orb_true_iff, bool_decide_eq_true.
  rewrite test_tile_letters_digits. reflexivity.
Qed.

Lemma validateTileFormat_result (c ctx : string) :
  validateTileFormat c ctx = Ok tt
  ∨ validateTileFormat c ctx =
      Throw (TW (mkTWError INVALID_TILE_SYNTAX
                   (invalid_tile_message (JS.trim c))
                   (Some ctx) (Some "TileValidator"))).
Proof.
  rewrite validateTileFormat_cases.
  destruct (bool_decide (JS.trim c = "0") || JS.test_tile (JS.trim c)); auto.
Qed.

(** C8. For every string [c] and context [ctx], the validator succeeds exactly
    when the trimmed [c] is ["0"] or is letters followed by digits; in every
    other case it throws [INVALID_TILE_SYNTAX] from component [TileValidator],
    with the trimmed string quoted in the message and [ctx] as the context.
    Its result is a function of its two arguments alone. *)
Theorem validateTileFormat_spec (c ctx : string) :
  (validateTileFormat c ctx = Ok tt ↔ tile_code (JS.trim c))
  ∧ (validateTileFormat c ctx = Ok tt
     ∨ validateTileFormat c ctx =
         Throw (TW (mkTWError INVALID_TILE_SYNTAX
                      (invalid_tile_message (JS.trim c))
                      (Some ctx) (Some "TileValidator")))).
Proof.
  split; [apply validateTileFormat_Ok|apply validateTileFormat_result].
Qed.

(** ** The parser *)

Lemma bind_Ok {A B} (m : Result A) (f : A → Result B) (b : B) :
  (m ≫= f) = Ok b → ∃ a, m = Ok a ∧ f a = Ok b.
Proof. destruct m as [a|e]; simpl; [eauto|discriminate]. Qed.

Lemma trimEnd_idem (s : string) : JS.trimEnd (JS.trimEnd s) = JS.trimEnd s.
Proof.
  induction s as [|c s IH]; simpl; [reflexivity|].
  destruct (JS.is_empty (JS.trimEnd s) && JS.is_ws c) eqn:E; simpl; [reflexivity|].
  rewrite IH, E. reflexivity.
Qed.

Lemma trimStart_head (s : string) :
  match JS.trimStart s with
  | EmptyString => True
  | String c _ => JS.is_ws c = false
  end.
Proof.
  induction s as [|c s IH]; simpl; [exact I|].
  destruct (JS.is_ws c) eqn:E; [exact IH|exact E].
Qed.

Lemma trim_idem (s : string) : JS.trim (JS.trim s) = JS.trim s.
Proof.
  unfold JS.trim. pose proof (trimStart_head s) as H.
  destruct (JS.trimStart s) as [|c r]; [reflexivity|].
  simpl. rewrite H, andb_false_r. simpl. rewrite H.
  simpl. rewrite trimEnd_idem, H, andb_false_r. reflexivity.
Qed.

Module ParserFacts.
Import Parser.

Lemma process_lines_app (l1 l2 : list string) (st : ParserState) :
  process_lines (l1 ++ l2) st = process_lines l1 st ≫= process_lines l2.
Proof.
  revert st. induction l1 as [|l l1 IH]; intros st; simpl; [reflexivity|].
  destruct (process_line l st) as [st'|e]; simpl; [apply IH|reflexivity].
Qed.

(** Induction over the lines of a text. *)
Lemma process_lines_ind (P : ParserState → Prop) (lines : list string) :
  (∀ l st st', l ∈ lines → P st → process_line l st = Ok st' → P st') →
  ∀ st st', P st → process_lines lines st = Ok st' → P st'.
Proof.
  induction lines as [|l lines IH]; intros Hstep st st' HP; simpl.
  - intros [= <-]. exact HP.
  - intros H. apply bind_Ok in H as (st1 & H1 & H2).
    apply (IH (λ l' s s' Hin, Hstep l' s s' (list_elem_of_further _ _ _ Hin))
             st1 st'); [|exact H2].
    apply (Hstep l st st1); [left|exact HP|exact H1].
Qed.

Lemma reachable_ind (P : ParserState → Prop) :
  P initial_state →
  (∀ l st st', P st → process_line l st = Ok st' → P st') →
  ∀ st, reachable st → P st.
Proof.
  intros H0 Hstep st [lines H].
  apply (process_lines_ind P lines (λ l s s' _, Hstep l s s') _ _ H0 H).
Qed.

(** *** The tileset section *)

Lemma handleTileset_incomplete key value st st' :
  handleTileset key value st = Ok st' → tileset_incomplete (tempTileset st').
Proof.
  unfold handleTileset.
  set (t := if decide (key = "tileset") then _ else _).
  destruct (id t) as [i|] eqn:Ei, (tileset t) as [src|] eqn:Es,
           (short t) as [sh|] eqn:Eh;
    try (intros [= <-]; unfold tileset_incomplete; simpl;
         rewrite ?Ei, ?Es, ?Eh; simpl; rewrite ?andb_false_r; reflexivity).
  destruct (JS.truthy i && JS.truthy src && JS.truthy sh) eqn:T.
  - repeat case_match; try discriminate. intros [= <-]. reflexivity.
  - intros [= <-]. unfold tileset_incomplete. simpl. rewrite Ei, Es, Eh. exact T.
Qed.

Lemma handleTileset_complete key value st st' :
  handleTileset key value st = Ok st' →
  Forall tileset_complete (tilesets (config st)) →
  Forall tileset_complete (tilesets (config st')).
Proof.
  unfold handleTileset.
  set (t := if decide (key = "tileset") then _ else _).
  intros H F. repeat case_match; simplify_eq; simpl; try exact F.
  apply Forall_app; split; [exact F|]. constructor; [|constructor].
  match goal with
  | T : _ && _ && _ = true |- _ =>
      apply andb_true_iff in T as [T T3]; apply andb_true_iff in T as [T1 T2]
  end.
  apply truthy_nonempty in T1, T2, T3. repeat split; assumption.
Qed.

Lemma handleLayer_keeps key value st st' :
  handleLayer key value st = Ok st' →
  tempTileset st' = tempTileset st ∧ config st' = config st
  ∧ currentSection st' = currentSection st.
Proof.
  unfold handleLayer. intros H.
  repeat case_match; simplify_eq; simpl; auto;
    apply bind_Ok in H as (g & _ & [= <-]); simpl; auto.
Qed.

Lemma handleProps_keeps key value st st' :
  handleProps key value st = Ok st' →
  tempTileset st' = tempTileset st ∧ currentLayer st' = currentLayer st
  ∧ main (config st') = main (config st)
  ∧ layers (config st') = layers (config st)
  ∧ tilesets (config st') = tilesets (config st).
Proof.
  unfold handleProps, set_prop, throw. intros H.
  repeat case_match; simplify_eq; simpl in *; simplify_eq; simpl; auto.
Qed.

Lemma handleMain_keeps key value c c' :
  handleMain key value c = Ok c' →
  layers c' = layers c ∧ tilesets c' = tilesets c ∧ props c' = props c.
Proof.
  unfold handleMain, throw. intros H.
  repeat case_match; simplify_eq; simpl; auto.
Qed.

Lemma push_current_layer_keeps st :
  main (push_current_layer st) = main (config st)
  ∧ tilesets (push_current_layer st) = tilesets (config st)
  ∧ props (push_current_layer st) = props (config st).
Proof. unfold push_current_layer. repeat case_match; simpl; auto. Qed.

Lemma handleSectionHeader_keeps line st st' :
  handleSectionHeader line st = Ok st' →
  tilesets (config st') = tilesets (config st)
  ∧ main (config st') = main (config st)
  ∧ (tileset_incomplete (tempTileset st) →
     tileset_incomplete (tempTileset st')).
Proof.
  unfold handleSectionHeader, throw. intros H.
  destruct (push_current_layer_keeps st) as (Hm & Ht & _).
  repeat case_match; simplify_eq; simpl; auto.
  repeat split; auto. intros _. unfold tileset_incomplete. simpl.
  rewrite andb_false_r. reflexivity.
Qed.

Lemma process_line_cases l st st' :
  process_line l st = Ok st' →
  st' = st
  ∨ handleSectionHeader (JS.trim l) st = Ok st'
  ∨ ∃ k v, key_value_of l = Some (k, v) ∧ handleKeyValue k v st = Ok st'.
Proof.
  unfold process_line, key_value_of, throw. intros H.
  repeat case_match; simplify_eq; eauto 6.
Qed.

Lemma handleKeyValue_cases k v st st' :
  handleKeyValue k v st = Ok st' →
  (currentSection st = "main"
   ∧ ∃ c, handleMain k v (config st) = Ok c ∧ st' = set_config c st)
  ∨ (currentSection st = "tileset" ∧ handleTileset k v st = Ok st')
  ∨ (currentSection st = "layer" ∧ handleLayer k v st = Ok st')
  ∨ (currentSection st = "props" ∧ handleProps k v st = Ok st').
Proof.
  unfold handleKeyValue, throw. intros H.
  repeat case_decide; try discriminate; auto 6.
  left. split; [assumption|].
  apply bind_Ok in H as (c & Hc & [= <-]). eauto.
Qed.


Lemma reachable_tilesets st :
  reachable st →
  tileset_incomplete (tempTileset st)
  ∧ Forall tileset_complete (tilesets (config st)).
Proof.
  apply (reachable_ind (λ st, tileset_incomplete (tempTileset st)
                              ∧ Forall tileset_complete (tilesets (config st)))).
  - split; [reflexivity|constructor].
  - intros l s s' [Hi Hc] H.
    apply process_line_cases in H as [->|[H|(k & v & _ & H)]]; [auto| |].
    + apply handleSectionHeader_keeps in H as (-> & _ & Hi'). auto.
    + apply handleKeyValue_cases in H
        as [(_ & c & H & ->)|[(_ & H)|[(_ & H)|(_ & H)]]].
      * apply handleMain_keeps in H as (_ & Ht & _). simpl. rewrite Ht. auto.
      * split; [eapply handleTileset_incomplete, H
               |eapply handleTileset_complete; eauto].
      * apply handleLayer_keeps in H as (-> & -> & _). auto.
      * apply handleProps_keeps in H as (-> & _ & _ & _ & ->). auto.
Qed.

Lemma handleTileset_other_key key value st :
  tileset_incomplete (tempTileset st) →
  key ≠ "tileset" → key ≠ "short" →
  handleTileset key value st = Ok st.
Proof.
  intros Hi Hk1 Hk2. unfold handleTileset.
  rewrite !decide_False by assumption.
  destruct st as [sec cl [i src sh] c]. unfold tileset_incomplete in Hi.
  simpl in *. unfold set_tileset. simpl.
  destruct i, src, sh; simpl in Hi; try reflexivity.
  rewrite Hi. reflexivity.
Qed.

Lemma finish_tilesets st cfg :
  finish st = Ok cfg → tilesets cfg = tilesets (config st).
Proof.
  unfold finish, throw. destruct (push_current_layer_keeps st) as (_ & Ht & _).
  case_match; [|discriminate]. intros [= <-]. exact Ht.
Qed.

(** C10. In a state the parser can reach, inside a tileset section, a
    [key=value] line whose key is neither [tileset] nor [short] is accepted
    and leaves the parser state as it was.  At the end of the input the
    record in progress plays no part: the result, error or not, is the same
    whatever that record holds, and the tilesets of a parsed configuration
    are the finalized ones, each with [id], [tileset] and [short] set. *)
Theorem tileset_unknown_key_ignored (st : ParserState) (key value : string) :
  reachable st →
  currentSection st = "tileset" →
  key ≠ "tileset" → key ≠ "short" →
  handleKeyValue key value st = Ok st
  ∧ (∀ t, finish (set_tileset t st) = finish st)
  ∧ (∀ cfg, finish st = Ok cfg →
       tilesets cfg = tilesets (config st)
       ∧ Forall tileset_complete (tilesets cfg)).
Proof.
  intros R Hsec Hk1 Hk2. destruct (reachable_tilesets st R) as [Hi Hc].
  split; [|split].
  - unfold handleKeyValue. rewrite Hsec.
    rewrite decide_False by discriminate. rewrite decide_True by reflexivity.
    apply handleTileset_other_key; assumption.
  - intros t. reflexivity.
  - intros cfg H. apply finish_tilesets in H. rewrite H. auto.
Qed.

Lemma tileset_unknown_key_ignored_witness :
  ∃ st cfg,
    process_lines ["[main]"; "width=2"; "[tileset:ground]"; "tileset=g.png"]
      initial_state = Ok st
    ∧ handleKeyValue "columns" "8" st = Ok st
    ∧ finish st = Ok cfg ∧ tilesets cfg = [].
Proof.
  destruct (process_lines
              ["[main]"; "width=2"; "[tileset:ground]"; "tileset=g.png"]
              initial_state) as [st|e] eqn:E;
    [|vm_compute in E; discriminate].
  assert (R : reachable st) by (eexists; exact E).
  assert (Hsec : currentSection st = "tileset").
  { vm_compute in E. injection E as <-. reflexivity. }
  destruct (tileset_unknown_key_ignored st "columns" "8" R Hsec
              ltac:(discriminate) ltac:(discriminate)) as (H1 & _ & H3).
  destruct (finish st) as [cfg|e] eqn:F;
    [|vm_compute in E; injection E as <-; vm_compute in F; discriminate].
  exists st, cfg.
  split; [reflexivity|]. split; [exact H1|]. split; [exact F|].
  destruct (H3 cfg eq_refl) as [-> _].
  vm_compute in E. injection E as <-. reflexivity.
Defined.

(** *** The main section *)








(** *** Lines of the form key=value *)

Lemma split_no_sep sep s : occurs sep s = false → JS.split sep s = [s].
Proof.
  induction s as [|c s IH]; simpl; [reflexivity|].
  destruct (decide (c = sep)) as [->|Hc].
  - rewrite bool_decide_eq_true_2 by reflexivity. discriminate.
  - rewrite bool_decide_eq_false_2 by congruence. simpl.
    intros H. rewrite (IH H). reflexivity.
Qed.

Lemma split_first sep a b :
  occurs sep a = false →
  JS.split sep (a +:+ String sep b) = a :: JS.split sep b.
Proof.
  induction a as [|c a IH]; simpl.
  - intros _. rewrite ?append_empty_l. simpl.
    rewrite ?decide_True by reflexivity. reflexivity.
  - destruct (decide (c = sep)) as [->|Hc].
    + rewrite bool_decide_eq_true_2 by reflexivity. discriminate.
    + rewrite bool_decide_eq_false_2 by congruence. simpl. intros H.
      rewrite ?append_cons. simpl. rewrite ?decide_False by exact Hc.
      rewrite (IH H). reflexivity.
Qed.

(** A line without [=] that is not blank, a comment or a header is rejected
    with [MISSING_KEY_VALUE]. *)
Lemma process_line_without_equals rawLine st :
  JS.is_empty (JS.trim rawLine) = false →
  JS.startsWith "#" (JS.trim rawLine) = false →
  JS.startsWith "[" (JS.trim rawLine) = false →
  occurs "=" (JS.trim rawLine) = false →
  process_line rawLine st
  = throw MISSING_KEY_VALUE "Expected key=value format"
      (Some (JS.trim rawLine)) "Parser".
Proof.
  intros H1 H2 H3 H4. unfold process_line.
  rewrite H1, H2, H3. simpl. rewrite (split_no_sep _ _ H4). reflexivity.
Qed.

(** The value of a line stops at its second [=]. *)
Lemma key_value_of_two_equals rawLine k v rest :
  JS.trim rawLine = k +:+ String "=" (v +:+ String "=" rest) →
  occurs "=" k = false → occurs "=" v = false →
  key_value_of rawLine = Some (JS.trim k, JS.trim v).
Proof.
  intros E Hk Hv. unfold key_value_of.
  rewrite E, (split_first _ _ _ Hk), (split_first _ _ _ Hv). reflexivity.
Qed.

(** C3, on the code.  The line [layer.bg.note=a=b] is split at every [=] and
    only the first two pieces are used: its value is ["a"], and after a
    parse the property [note] of layer [bg] is ["a"], not ["a=b"]. *)
Theorem value_cut_at_second_equals :
  key_value_of "layer.bg.note=a=b" = Some ("layer.bg.note", "a")
  ∧ ∃ cfg,
      parseConfig
        (lines_text ["[main]"; "tileSize=16"; "width=1"; "height=1";
                     "[props]"; "layer.bg.note=a=b"]) = Ok cfg
      ∧ p_layers (props cfg) !! "bg" = Some {["note" := "a"]}.
Proof.
  split; [reflexivity|].
  eexists. split; [vm_compute; reflexivity|]. vm_compute. reflexivity.
Qed.

(** *** The layer section *)

Lemma thrown_code_bind {A B} (m : Result A) (f : A → Result B) c :
  thrown_code m = Some c → thrown_code (m ≫= f) = Some c.
Proof. destruct m as [a|[e| |]]; simpl; congruence. Qed.

Lemma validateTileFormat_trimmed cell row :
  validateTileFormat (JS.trim cell) row =
    if is_tile_code (JS.trim cell) then Ok tt
    else Throw (TW (mkTWError INVALID_TILE_SYNTAX
                      (invalid_tile_message (JS.trim cell))
                      (Some row) (Some "TileValidator"))).
Proof. rewrite validateTileFormat_cases, trim_idem. reflexivity. Qed.

Lemma parse_cells_Ok row cells :
  Forall tile_code (List.map JS.trim cells) →
  parse_cells row cells = Ok (List.map JS.trim cells).
Proof.
  induction cells as [|c cells IH]; simpl; [reflexivity|].
  intros H. apply Forall_cons in H as [Hc Hrest].
  rewrite validateTileFormat_trimmed.
  apply is_tile_code_spec in Hc. rewrite Hc. simpl.
  rewrite (IH Hrest). reflexivity.
Qed.

Lemma parse_cells_Throw row cells :
  ¬ Forall tile_code (List.map JS.trim cells) →
  thrown_code (parse_cells row cells) = Some INVALID_TILE_SYNTAX.
Proof.
  induction cells as [|c cells IH]; intros H; simpl.
  - destruct H. constructor.
  - rewrite validateTileFormat_trimmed.
    destruct (is_tile_code (JS.trim c)) eqn:V; simpl; [|reflexivity].
    apply thrown_code_bind, IH. intros F. apply H. simpl.
    constructor; [apply is_tile_code_spec, V|exact F].
Qed.

Lemma parse_rows_Ok rows :
  Forall (Forall tile_code) (List.map cells_of_row rows) →
  parse_rows rows = Ok (List.map cells_of_row rows).
Proof.
  induction rows as [|row rows IH]; simpl; [reflexivity|].
  intros H. apply Forall_cons in H as [Hr Hrest].
  rewrite (parse_cells_Ok row _ Hr). simpl. rewrite (IH Hrest). reflexivity.
Qed.

Lemma Forall_tile_code_dec (l : list string) :
  Forall tile_code l ∨ ¬ Forall tile_code l.
Proof.
  induction l as [|c l [IH|IH]].
  - left. constructor.
  - destruct (is_tile_code c) eqn:V.
    + left. constructor; [apply is_tile_code_spec, V|exact IH].
    + right. intros H. apply Forall_cons in H as [Hc _].
      apply is_tile_code_spec in Hc. congruence.
  - right. intros H. apply Forall_cons in H as [_ H]. auto.
Qed.

Lemma parse_rows_Throw rows :
  ¬ Forall (Forall tile_code) (List.map cells_of_row rows) →
  thrown_code (parse_rows rows) = Some INVALID_TILE_SYNTAX.
Proof.
  induction rows as [|row rows IH]; intros H; simpl.
  - destruct H. constructor.
  - destruct (Forall_tile_code_dec (cells_of_row row)) as [F|F].
    + rewrite (parse_cells_Ok row _ F). simpl.
      apply thrown_code_bind, IH. intros F'. apply H. simpl.
      constructor; assumption.
    + apply thrown_code_bind, parse_cells_Throw, F.
Qed.

Lemma tile_rows_rows_of value : tile_rows value = rows_of value.
Proof.
  unfold tile_rows, rows_of, blank.
  induction (JS.split ";" value) as [|r rs IH]; simpl; [reflexivity|].
  unfold JS.truthy at 1. destruct (JS.is_empty (JS.trim r)); simpl; congruence.
Qed.

Lemma handleLayer_tiles_cases value st :
  handleLayer "tiles" value st =
    match List.find (λ t, bool_decide (Some (l_name t) = name (currentLayer st)))
                    (layers (config st)) with
    | Some _ =>
        throw DUPLICATE_LAYER
          ("Duplicate layer name "
             +:+ JS.quoted (default "undefined" (name (currentLayer st))))
          (Some value) "Parser"
    | None =>
        g ← parse_rows (tile_rows value);
        Ok (set_layer (mkPLayer (name (currentLayer st)) (Some g)) st)
    end.
Proof.
  unfold handleLayer. rewrite decide_True by reflexivity.
  destruct (tiles (currentLayer st)); reflexivity.
Qed.

Lemma find_duplicate_layer st :
  duplicate_layer st ↔
  is_Some (List.find (λ t, bool_decide (Some (l_name t) = name (currentLayer st)))
                     (layers (config st))).
Proof.
  unfold duplicate_layer. split.
  - intros (l & Hin & Hl).
    destruct (List.find _ _) eqn:E; [eauto|].
    apply list_elem_of_In in Hin.
    pose proof (find_none _ _ E l Hin) as F. simpl in F.
    rewrite bool_decide_eq_true_2 in F by exact Hl. discriminate.
  - intros [l E]. apply find_some in E as [Hin Hl].
    exists l. split; [apply list_elem_of_In, Hin|].
    apply bool_decide_eq_true in Hl. exact Hl.
Qed.

(** C7, as the parser has it.  In a layer section whose name is already the
    name of a finalized layer, a [tiles] line fails with [DUPLICATE_LAYER],
    whatever its cells.  Otherwise the value is split on [;] into rows, blank
    rows dropped, each row split on [,] into cells, each cell trimmed: when
    every cell is a tile code this grid becomes the tiles of the layer, and
    when some cell is not, the line fails with [INVALID_TILE_SYNTAX].  A
    layer declared [tiles=G0,0;0,S1] parses to [[G0,0],[0,S1]]. *)
Theorem handleLayer_tiles (value : string) (st : ParserState) :
  (duplicate_layer st →
     thrown_code (handleLayer "tiles" value st) = Some DUPLICATE_LAYER)
  ∧ (¬ duplicate_layer st →
     Forall (Forall tile_code) (grid_of value) →
     handleLayer "tiles" value st
     = Ok (set_layer (mkPLayer (name (currentLayer st)) (Some (grid_of value))) st))
  ∧ (¬ duplicate_layer st →
     ¬ Forall (Forall tile_code) (grid_of value) →
     thrown_code (handleLayer "tiles" value st) = Some INVALID_TILE_SYNTAX)
  ∧ (∃ cfg,
       parseConfig
         (lines_text ["[main]"; "tileSize=16"; "width=2"; "height=2";
                      "[layer:bg]"; "tiles=G0,0;0,S1"]) = Ok cfg
       ∧ layers cfg = [mkLayer "bg" [["G0"; "0"]; ["0"; "S1"]]]).
Proof.
  rewrite handleLayer_tiles_cases.
  pose proof (find_duplicate_layer st) as D.
  destruct (List.find _ (layers (config st))) as [l|].
  - split; [reflexivity|].
    split; [intros N; destruct N; apply D; eauto|].
    split; [intros N; destruct N; apply D; eauto|].
    eexists. split; vm_compute; reflexivity.
  - split; [intros H; apply D in H as [? [=]]|].
    split; [|split].
    + intros _ F. unfold grid_of in *. rewrite tile_rows_rows_of.
      rewrite (parse_rows_Ok _ F). reflexivity.
    + intros _ F. rewrite tile_rows_rows_of.
      apply thrown_code_bind, parse_rows_Throw, F.
    + eexists. split; vm_compute; reflexivity.
Qed.

Lemma handleLayer_tiles_witness :
  ∃ st st',
    process_lines ["[main]"; "width=3"; "[layer:bg]"] initial_state = Ok st
    ∧ handleLayer "tiles" " G0 , 0,S1 ; ;0,0,0" st = Ok st'
    ∧ tiles (currentLayer st') = Some [["G0"; "0"; "S1"]; ["0"; "0"; "0"]].
Proof.
  destruct (process_lines ["[main]"; "width=3"; "[layer:bg]"] initial_state)
    as [st|e] eqn:E; [|vm_compute in E; discriminate].
  assert (Est : layers (config st) = []).
  { vm_compute in E. injection E as <-. reflexivity. }
  assert (N : ¬ duplicate_layer st).
  { intros (l & Hin & _). rewrite Est in Hin. inversion Hin. }
  destruct (handleLayer_tiles " G0 , 0,S1 ; ;0,0,0" st) as (_ & H & _).
  eexists st, _. split; [reflexivity|]. split.
  - apply (H N). vm_compute.
    repeat (constructor; try (apply is_tile_code_spec; reflexivity)).
  - reflexivity.
Defined.

(** A second section for layer [a] with the cell [?], which is not a tile
    code: the parse fails with [DUPLICATE_LAYER], not with
    [INVALID_TILE_SYNTAX]. *)
Lemma duplicate_layer_checked_before_cells :
  ¬ tile_code (JS.trim "?")
  ∧ thrown_code
      (parseConfig
         (lines_text ["[main]"; "tileSize=16"; "width=1"; "height=1";
                      "[layer:a]"; "tiles=G0"; "[layer:a]"; "tiles=?"]))
    = Some DUPLICATE_LAYER.
Proof.
  split; [|vm_compute; reflexivity].
  intros H. apply is_tile_code_spec in H. vm_compute in H. discriminate.
Qed.

(** In the main section an unknown key is an error. *)
Lemma handleMain_unknown_key key value c :
  key ≠ "tileSize" → key ≠ "width" → key ≠ "height" →
  thrown_code (handleMain key value c) = Some MISSING_KEY_VALUE.
Proof.
  intros H1 H2 H3. unfold handleMain.
  rewrite !decide_False by assumption. reflexivity.
Qed.

(** *** The layer in progress *)

Lemma named_layer_has_tiles st :
  reachable st →
  is_Some (name (currentLayer st)) → is_Some (tiles (currentLayer st)).
Proof.
  apply (reachable_ind
           (λ st, is_Some (name (currentLayer st)) → is_Some (tiles (currentLayer st)))).
  - intros [n [=]].
  - intros l s s' Inv H.
    apply process_line_cases in H as [->|[H|(k & v & _ & H)]]; [exact Inv| |].
    + unfold handleSectionHeader, throw in H.
      repeat case_match; simplify_eq; simpl; eauto.
    + apply handleKeyValue_cases in H
        as [(_ & c & H & ->)|[(_ & H)|[(_ & H)|(_ & H)]]].
      * exact Inv.
      * unfold handleTileset, throw in H.
        repeat case_match; simplify_eq; simpl; exact Inv.
      * unfold handleLayer, throw in H.
        repeat case_match; simplify_eq; simpl; eauto;
          apply bind_Ok in H as (g & _ & [= <-]); simpl; eauto.
      * apply handleProps_keeps in H as (_ & -> & _). exact Inv.
Qed.

End ParserFacts.

(** ** The scene *)

Lemma create_row_zeros (n : nat) (x y : Z) (cfg : TWMConfig) :
  create_row (replicate n "0") x y cfg = Ok (replicate n "0").
Proof.
  revert x. induction n as [|n IH]; intros x; simpl; [reflexivity|].
  rewrite IH. reflexivity.
Qed.

Lemma create_rows_zeros (h w : nat) (y : Z) (cfg : TWMConfig) :
  create_rows (replicate h (replicate w "0")) y cfg = Ok (replicate (h * w) "0").
Proof.
  revert y. induction h as [|h IH]; intros y; simpl; [reflexivity|].
  rewrite create_row_zeros. simpl. rewrite IH. simpl.
  rewrite replicate_add. reflexivity.
Qed.

Lemma existsb_has_name (n : string) (ls : list TWMLayer) :
  existsb (has_name n) ls = false ↔ ∀ l, l ∈ ls → l_name l ≠ n.
Proof.
  induction ls as [|l ls IH]; simpl.
  - split; [intros _ l H; inversion H|reflexivity].
  - rewrite orb_false_iff, IH. unfold has_name. rewrite bool_decide_eq_false.
    split.
    + intros [H1 H2] l' Hin. apply elem_of_cons in Hin as [->|Hin]; auto.
    + intros H. split; [apply H; left|]. intros l' Hin. apply H. right. exact Hin.
Qed.

Lemma fresh_name_spec (n : string) (s : SceneBuilder) :
  existsb (has_name n) (c_layers (config s))
  || existsb (has_name n) (runtimeLayers s) = false
  ↔ fresh_name n s.
Proof.
  unfold fresh_name. rewrite orb_false_iff, !existsb_has_name. reflexivity.
Qed.

(** What [createRuntimeLayer] does for a name that is free: the layer is
    pushed once by [createRuntimeLayer] itself and once more by
    [addRuntimeLayerToDOM], and one grid is added to the wrapper. *)
Lemma createRuntimeLayer_fresh (n : string) (s : SceneBuilder) :
  fresh_name n s →
  createRuntimeLayer n s
  = Returned tt
      (mkScene (config s)
         (runtimeLayers s ++ [empty_layer_of n s; empty_layer_of n s])
         (dom s ++ [mkGrid n (replicate
                                (Z.to_nat (m_height (c_main (config s)))
                                 * Z.to_nat (m_width (c_main (config s)))) "0")])).
Proof.
  intros F. apply fresh_name_spec in F.
  unfold createRuntimeLayer. rewrite F.
  unfold addRuntimeLayerToDOM, createGridElement, createEmpty2DArray. simpl.
  rewrite create_rows_zeros. simpl. unfold set_dom, set_runtimeLayers. simpl.
  rewrite <- app_assoc. reflexivity.
Qed.

(** For a name that is taken the call throws and the object is as before. *)
Lemma createRuntimeLayer_taken (n : string) (s : SceneBuilder) :
  ¬ fresh_name n s →
  outcome_code (createRuntimeLayer n s) = Some LAYER_ALREADY_EXISTS
  ∧ scene_after (createRuntimeLayer n s) = Some s.
Proof.
  intros F. unfold createRuntimeLayer.
  destruct (existsb _ _ || existsb _ _) eqn:E.
  - split; reflexivity.
  - destruct F. apply fresh_name_spec, E.
Qed.

(** C2, on the code.  For a name that collides with a static or runtime
    layer, [createRuntimeLayer] throws [LAYER_ALREADY_EXISTS] and leaves the
    object unchanged.  For a free name it returns, and the list of runtime
    layers has grown by two entries of that name, not one, each a grid of
    [height] rows of [width] empty markers.  On the scene of a small
    configuration, [createRuntimeLayer("furniture")] leaves two layers. *)
Theorem createRuntimeLayer_pushes_twice :
  (∀ n s, ¬ fresh_name n s →
     outcome_code (createRuntimeLayer n s) = Some LAYER_ALREADY_EXISTS
     ∧ scene_after (createRuntimeLayer n s) = Some s)
  ∧ (∀ n s, fresh_name n s →
       ∃ s', createRuntimeLayer n s = Returned tt s'
         ∧ runtimeLayers s'
           = runtimeLayers s ++ [empty_layer_of n s; empty_layer_of n s])
  ∧ (∃ s s',
       scene_of_text
         (lines_text ["[main]"; "tileSize=16"; "width=2"; "height=1";
                      "[tileset:ground]"; "tileset=g.png"; "short=G";
                      "[layer:bg]"; "tiles=G0,0"]) = Some s
       ∧ runtimeLayers s = []
       ∧ createRuntimeLayer "furniture" s = Returned tt s'
       ∧ runtimeLayers s'
         = [mkLayer "furniture" [["0"; "0"]]; mkLayer "furniture" [["0"; "0"]]]).
Proof.
  split; [exact createRuntimeLayer_taken|]. split.
  - intros n s F. eexists. split; [apply createRuntimeLayer_fresh, F|reflexivity].
  - eexists _, _. split; [vm_compute; reflexivity|].
    split; [reflexivity|]. split; vm_compute; reflexivity.
Qed.

(** *** The metadata stack *)

Lemma digit_not_upper (c : ascii) : JS.is_digit c = true → JS.is_upper c = false.
Proof.
  intros H. apply digit_not_alpha in H. unfold JS.is_alpha in H.
  apply orb_false_iff in H as [H _]. exact H.
Qed.

Lemma all_upper_alpha (a : string) :
  JS.all_chars JS.is_upper a = true → JS.all_chars JS.is_alpha a = true.
Proof.
  induction a as [|c a IH]; simpl; [reflexivity|].
  intros H. apply andb_true_iff in H as [Hc Ha].
  rewrite (upper_is_alpha c Hc), (IH Ha). reflexivity.
Qed.

Lemma spans_of_code (p : ascii → bool) (a d : string) :
  (∀ c, JS.is_digit c = true → p c = false) →
  JS.all_chars p a = true →
  d ≠ EmptyString → JS.all_chars JS.is_digit d = true →
  JS.span p (a +:+ d) = (a, d).
Proof.
  intros Hp Ha Hd Ad. apply span_app_stop; [exact Ha|].
  destruct d as [|c d]; [congruence|]. simpl in Ad.
  apply andb_true_iff in Ad as [Hc _]. apply Hp, Hc.
Qed.

Lemma code_not_empty (a d : string) :
  a ≠ EmptyString → JS.all_chars JS.is_upper a = true →
  JS.is_empty (a +:+ d) || bool_decide (a +:+ d = "0") = false.
Proof.
  intros Ha Ua. destruct a as [|c a]; [congruence|].
  rewrite append_cons. simpl. apply bool_decide_eq_false.
  intros [= -> E]. simpl in Ua. discriminate.
Qed.

(** For a cell whose code is uppercase letters followed by digits, with a
    tileset of that short, the entry is the one the documentation describes:
    the short is the whole alpha-prefix and the id is that of the tileset. *)
Lemma metadata_of_layer_uppercase cfg x y layer a d ts :
  cell_at (l_tiles layer) x y = a +:+ d →
  a ≠ EmptyString → JS.all_chars JS.is_upper a = true →
  d ≠ EmptyString → JS.all_chars JS.is_digit d = true →
  List.find (λ ts, bool_decide (ts_short ts = a)) (c_tilesets cfg) = Some ts →
  alpha_prefix (a +:+ d) = a
  ∧ metadata_of_layer cfg x y layer
    = Ok (Some (mkMeta (a +:+ d) (l_name layer) a (ts_id ts)
                  (spread3 (props_of (p_tilesets (c_props cfg)) (ts_id ts))
                           (props_of (p_layers (c_props cfg)) (l_name layer))
                           (props_of (p_tiles (c_props cfg)) (a +:+ d))))).
Proof.
  intros Hcell Ha Ua Hd Ad Hfind. split.
  - unfold alpha_prefix.
    rewrite (spans_of_code JS.is_alpha a d digit_not_alpha (all_upper_alpha a Ua) Hd Ad).
    reflexivity.
  - unfold metadata_of_layer. rewrite Hcell, (code_not_empty a d Ha Ua).
    unfold JS.match_upper_prefix.
    rewrite (spans_of_code JS.is_upper a d digit_not_upper Ua Hd Ad).
    apply truthy_nonempty in Ha. rewrite Ha, Hfind. reflexivity.
Qed.

(** A cell that holds the empty marker contributes no entry. *)
Lemma metadata_of_layer_empty_marker cfg x y layer :
  cell_at (l_tiles layer) x y = "0" → metadata_of_layer cfg x y layer = Ok None.
Proof. intros H. unfold metadata_of_layer. rewrite H. reflexivity. Qed.

(** The layers are visited static first, then runtime, each in list order. *)
Lemma metadata_of_layers_app cfg x y l1 l2 :
  metadata_of_layers cfg x y (l1 ++ l2)
  = (r1 ← metadata_of_layers cfg x y l1;
     r2 ← metadata_of_layers cfg x y l2;
     Ok (r1 ++ r2)).
Proof.
  induction l1 as [|l l1 IH]; simpl.
  - destruct (metadata_of_layers cfg x y l2); reflexivity.
  - destruct (metadata_of_layer cfg x y l) as [o|e]; simpl; [|reflexivity].
    rewrite IH.
    destruct (metadata_of_layers cfg x y l1) as [r1|e]; simpl; [|reflexivity].
    destruct (metadata_of_layers cfg x y l2) as [r2|e]; simpl; [|reflexivity].
    destruct o; reflexivity.
Qed.

Lemma getTileMetadataStack_in_bounds x y s :
  out_of_bounds x y (c_main (config s)) = false →
  getTileMetadataStack x y s
  = (r1 ← metadata_of_layers (config s) x y (c_layers (config s));
     r2 ← metadata_of_layers (config s) x y (runtimeLayers s);
     Ok (r1 ++ r2)).
Proof.
  intros B. unfold getTileMetadataStack. rewrite B.
  apply metadata_of_layers_app.
Qed.

(** A cell whose code does not start with an uppercase letter, and is not the
    empty marker, makes the loop throw: the prefix is [null] and no tileset is
    looked up. *)
Lemma metadata_of_layer_not_uppercase cfg x y layer c r :
  cell_at (l_tiles layer) x y = String c r →
  String c r ≠ "0" → JS.is_upper c = false →
  metadata_of_layer cfg x y layer = Throw TypeError.
Proof.
  intros Hcell Hne Hc. unfold metadata_of_layer. rewrite Hcell.
  rewrite bool_decide_eq_false_2 by exact Hne. simpl.
  unfold JS.match_upper_prefix. simpl. rewrite Hc. reflexivity.
Qed.

(** C1, on the code.  The tile code [g1] is accepted by the validator, its
    alpha-prefix is [g], and a tileset with short [g] is configured, so the
    scene is built; [getTileMetadataStack(0, 0)] then throws a [TypeError],
    because the prefix is matched with [/^[A-Z]+/] and is [null] for a
    lowercase code.  For the mixed-case code [Gg0] the short of the entry is
    [G], not the alpha-prefix [Gg], and the id is that of tileset [G]. *)
Theorem getTileMetadataStack_lowercase_prefix :
  (∃ s,
     scene_of_text
       (lines_text ["[main]"; "tileSize=16"; "width=1"; "height=1";
                    "[tileset:grass]"; "tileset=grass.png"; "short=g";
                    "[layer:bg]"; "tiles=g1"]) = Some s
     ∧ c_layers (config s) = [mkLayer "bg" [["g1"]]]
     ∧ c_tilesets (config s) = [mkTileset "grass" "grass.png" "g"]
     ∧ validateTileFormat "g1" "bg" = Ok tt
     ∧ alpha_prefix "g1" = "g"
     ∧ getTileMetadataStack 0 0 s = Throw TypeError)
  ∧ (∃ s t,
       scene_of_text
         (lines_text ["[main]"; "tileSize=16"; "width=1"; "height=1";
                      "[tileset:upper]"; "tileset=u.png"; "short=G";
                      "[tileset:mixed]"; "tileset=m.png"; "short=Gg";
                      "[layer:bg]"; "tiles=Gg0"]) = Some s
       ∧ alpha_prefix "Gg0" = "Gg"
       ∧ getTileMetadataStack 0 0 s = Ok [t]
       ∧ tilesetShort t = "G" ∧ tilesetId t = "upper").
Proof.
  split.
  - eexists. split; [vm_compute; reflexivity|].
    repeat split; vm_compute; reflexivity.
  - eexists _, _. split; [vm_compute; reflexivity|].
    split; [reflexivity|]. split; [vm_compute; reflexivity|].
    split; reflexivity.
Qed.

(** *** Merged properties *)

Lemma union_lookup_first (a b : gmap string string) (k : string) :
  (a ∪ b) !! k = match a !! k with Some v => Some v | None => b !! k end.
Proof.
  rewrite lookup_union. destruct (a !! k), (b !! k); reflexivity.
Qed.

Lemma spread3_lookup (a b c : gmap string string) (k : string) :
  spread3 a b c !! k = first_of (c !! k) (b !! k) (a !! k).
Proof.
  unfold spread3, first_of. rewrite !union_lookup_first.
  destruct (c !! k), (b !! k); reflexivity.
Qed.

Lemma foldl_assign_lookup (stack : list TileMetadata) (m0 : gmap string string)
    (k : string) :
  foldl (λ m t, Object_assign m (meta_props t)) m0 stack !! k
  = match top_value k stack with Some v => Some v | None => m0 !! k end.
Proof.
  revert m0. induction stack as [|t stack IH]; intros m0; simpl; [reflexivity|].
  rewrite IH. unfold Object_assign. rewrite union_lookup_first.
  destruct (top_value k stack); reflexivity.
Qed.

Lemma metadata_of_layer_props cfg x y l t :
  metadata_of_layer cfg x y l = Ok (Some t) →
  meta_props t
  = spread3 (props_of (p_tilesets (c_props cfg)) (tilesetId t))
            (props_of (p_layers (c_props cfg)) (layerName t))
            (props_of (p_tiles (c_props cfg)) (tile t)).
Proof.
  unfold metadata_of_layer. intros H.
  repeat case_match; simplify_eq; reflexivity.
Qed.

Lemma metadata_of_layers_Forall (P : TileMetadata → Prop) cfg x y ls stack :
  (∀ l t, metadata_of_layer cfg x y l = Ok (Some t) → P t) →
  metadata_of_layers cfg x y ls = Ok stack → Forall P stack.
Proof.
  intros HP. revert stack. induction ls as [|l ls IH]; intros stack; simpl.
  - intros [= <-]. constructor.
  - intros H. apply bind_Ok in H as (o & Ho & H).
    apply bind_Ok in H as (r & Hr & [= <-]).
    destruct o as [t|]; [constructor; eauto|eauto].
Qed.

(** C6. [getProps(x, y)] throws what [getTileMetadataStack(x, y)] throws, and
    otherwise is the left-to-right fold of the props of the stack: the value
    of a key is the one of the highest entry that has the key, and in each
    entry the value of a key is the tile's, else the layer's, else the
    tileset's.  Out of bounds, and for an empty stack, the result is empty.
    With tileset props [{a:1}], layer props [{a:2,b:3}] and tile props
    [{b:4}] for the one tile of a cell, the result is [{a:2,b:4}]. *)
Theorem getProps_spec (x y : Z) (s : SceneBuilder) :
  (∀ e, getTileMetadataStack x y s = Throw e → getProps x y s = Throw e)
  ∧ (∀ stack, getTileMetadataStack x y s = Ok stack →
       getProps x y s
       = Ok (foldl (λ m t, Object_assign m (meta_props t)) ∅ stack)
       ∧ (∀ m, getProps x y s = Ok m → ∀ k, m !! k = top_value k stack)
       ∧ Forall (λ t, ∀ k,
                   meta_props t !! k
                   = first_of
                       (props_of (p_tiles (c_props (config s))) (tile t) !! k)
                       (props_of (p_layers (c_props (config s))) (layerName t) !! k)
                       (props_of (p_tilesets (c_props (config s))) (tilesetId t) !! k))
           stack)
  ∧ (out_of_bounds x y (c_main (config s)) = true → getProps x y s = Ok ∅)
  ∧ (getTileMetadataStack x y s = Ok [] → getProps x y s = Ok ∅)
  ∧ (∃ s0,
       scene_of_text
         (lines_text ["[main]"; "tileSize=16"; "width=1"; "height=1";
                      "[tileset:ground]"; "tileset=g.png"; "short=G";
                      "[layer:bg]"; "tiles=G0";
                      "[props]"; "tileset.ground.a=1";
                      "layer.bg.a=2"; "layer.bg.b=3"; "tile.G0.b=4"]) = Some s0
       ∧ getProps 0 0 s0 = Ok {[ "a" := "2"; "b" := "4" ]}).
Proof.
  unfold getProps. split; [|split; [|split; [|split]]].
  - intros e ->. reflexivity.
  - intros stack H. rewrite H. simpl. split; [reflexivity|]. split.
    + intros m [= <-] k. rewrite foldl_assign_lookup.
      destruct (top_value k stack); [reflexivity|apply lookup_empty].
    + unfold getTileMetadataStack in H.
      destruct (out_of_bounds x y (c_main (config s))).
      * injection H as <-. constructor.
      * eapply metadata_of_layers_Forall; [|exact H].
        intros l t Ht k. simpl.
        rewrite (metadata_of_layer_props _ _ _ _ _ Ht). apply spread3_lookup.
  - intros H. unfold getTileMetadataStack. rewrite H. reflexivity.
  - intros ->. reflexivity.
  - eexists. split; vm_compute; reflexivity.
Qed.

Lemma getProps_spec_witness :
  ∃ s m,
    scene_of_text
      (lines_text ["[main]"; "tileSize=16"; "width=1"; "height=1";
                   "[tileset:ground]"; "tileset=g.png"; "short=G";
                   "[layer:low]"; "tiles=G0"; "[layer:high]"; "tiles=G1";
                   "[props]"; "layer.low.a=1"; "layer.low.c=1";
                   "layer.high.a=2"]) = Some s
    ∧ getProps 0 0 s = Ok m
    ∧ m !! "a" = Some "2" ∧ m !! "c" = Some "1".
Proof.
  destruct (scene_of_text
              (lines_text ["[main]"; "tileSize=16"; "width=1"; "height=1";
                           "[tileset:ground]"; "tileset=g.png"; "short=G";
                           "[layer:low]"; "tiles=G0"; "[layer:high]"; "tiles=G1";
                           "[props]"; "layer.low.a=1"; "layer.low.c=1";
                           "layer.high.a=2"])) as [s|] eqn:E;
    [|vm_compute in E; discriminate].
  destruct (getTileMetadataStack 0 0 s) as [stack|e] eqn:Hs;
    [|vm_compute in E; injection E as <-; vm_compute in Hs; discriminate].
  destruct (getProps_spec 0 0 s) as (_ & H & _).
  destruct (H stack Hs) as (Hm & Hk & _).
  exists s, (foldl (λ m t, Object_assign m (meta_props t)) ∅ stack).
  split; [reflexivity|]. split; [exact Hm|].
  rewrite !(Hk _ Hm).
  vm_compute in E. injection E as <-. vm_compute in Hs. injection Hs as <-.
  split; vm_compute; reflexivity.
Defined.

(** *** Placing tiles *)

Lemma createTileElement_throws_TW tileCode x y cfg e :
  createTileElement tileCode x y cfg = Throw e →
  ∃ twe, e = TW twe
    ∧ (code twe = INVALID_TILE_SYNTAX ∨ code twe = INVALID_TILE_CODE
       ∨ code twe = TILESET_NOT_FOUND).
Proof.
  unfold createTileElement, throw. case_decide; [discriminate|].
  destruct (validateTileFormat_result tileCode
              ("Tile: " +:+ tileCode +:+ ", Pos: " +:+ pos_text x y))
    as [->| ->]; simpl.
  - repeat case_match; intros [= <-]; eauto.
  - intros [= <-]. eauto.
Qed.

(** Re-rendering a cell leaves the grids alone; when it throws, the object is
    the one it was given. *)
Lemma updateTileInDOM_keeps n x y s :
  match updateTileInDOM n x y s with
  | Returned _ s' => config s' = config s ∧ runtimeLayers s' = runtimeLayers s
  | Thrown e s' =>
      s' = s ∧ ∃ twe, e = TW twe
                 ∧ (code twe = INVALID_TILE_SYNTAX ∨ code twe = INVALID_TILE_CODE
                    ∨ code twe = TILESET_NOT_FOUND)
  | OutOfModel => plain_class_name n = false
  end.
Proof.
  unfold updateTileInDOM.
  destruct (plain_class_name n); [simpl|reflexivity].
  destruct (query_layer n (dom s)) as [[i layerEl]|]; [|auto].
  destruct (if _ <? 0 then None else _) as [old|]; [|auto].
  destruct (createTileElement _ x y (config s)) as [el|e] eqn:E; [auto|].
  split; [reflexivity|]. eapply createTileElement_throws_TW, E.
Qed.

Lemma out_of_bounds_false x y m :
  out_of_bounds x y m = false ↔ (0 <= x < m_width m ∧ 0 <= y < m_height m).
Proof.
  unfold out_of_bounds. rewrite !orb_false_iff.
  rewrite !Z.ltb_ge, !Z.geb_leb, !Z.leb_gt. lia.
Qed.

Lemma find_layer_None (n : string) (ls : list TWMLayer) :
  list_find (λ l, l_name l = n) ls = None ↔ ∀ l, l ∈ ls → l_name l ≠ n.
Proof. rewrite list_find_None, Forall_forall. reflexivity. Qed.

(** The checks of [assign_and_update], in the order of the source. *)
Lemma assign_and_update_checks n x y v s :
  ((∀ l, l ∈ runtimeLayers s → l_name l ≠ n) →
     outcome_code (assign_and_update n x y v s) = Some LAYER_NOT_FOUND
     ∧ scene_after (assign_and_update n x y v s) = Some s)
  ∧ ((∃ l, l ∈ runtimeLayers s ∧ l_name l = n) →
     ¬ (0 <= x < m_width (c_main (config s))
        ∧ 0 <= y < m_height (c_main (config s))) →
     outcome_code (assign_and_update n x y v s) = Some INVALID_TILE_POSITION
     ∧ scene_after (assign_and_update n x y v s) = Some s).
Proof.
  unfold assign_and_update. split.
  - intros H. apply find_layer_None in H. rewrite H. split; reflexivity.
  - intros (l & Hin & Hl) Hb.
    destruct (list_find _ (runtimeLayers s)) as [[i layer]|] eqn:E.
    + destruct (out_of_bounds x y (c_main (config s))) eqn:B.
      * split; reflexivity.
      * apply out_of_bounds_false in B. contradiction.
    + exfalso. eapply find_layer_None; eauto.
Qed.

(** When [assign_and_update] returns, exactly one cell was assigned: cell
    [(x, y)] of the first runtime layer with that name. *)
Lemma assign_and_update_Returned n x y v s s' :
  assign_and_update n x y v s = Returned tt s' →
  config s' = config s
  ∧ ∃ i layer row,
      list_find (λ l, l_name l = n) (runtimeLayers s) = Some (i, layer)
      ∧ 0 <= x < m_width (c_main (config s))
      ∧ 0 <= y < m_height (c_main (config s))
      ∧ l_tiles layer !! Z.to_nat y = Some row
      ∧ (Z.to_nat x < length row)%nat
      ∧ runtimeLayers s'
        = <[i := mkLayer (l_name layer)
                   (<[Z.to_nat y := <[Z.to_nat x := v]> row]> (l_tiles layer))]>
            (runtimeLayers s).
Proof.
  unfold assign_and_update, layer_not_found, invalid_position.
  destruct (list_find _ (runtimeLayers s)) as [[i layer]|] eqn:E; [|discriminate].
  destruct (out_of_bounds x y (c_main (config s))) eqn:B; [discriminate|].
  destruct (l_tiles layer !! Z.to_nat y) as [row|] eqn:R; [|discriminate].
  destruct (Z.to_nat x <? length row)%nat eqn:L; [|discriminate].
  intros H.
  pose proof (updateTileInDOM_keeps n x y
                (set_runtimeLayers
                   (<[i := mkLayer (l_name layer)
                             (<[Z.to_nat y := <[Z.to_nat x := v]> row]> (l_tiles layer))]>
                      (runtimeLayers s)) s)) as K.
  rewrite H in K. destruct K as [Kc Kr]. simpl in Kc, Kr.
  split; [exact Kc|]. exists i, layer, row.
  apply out_of_bounds_false in B as [Bx By]. apply Nat.ltb_lt in L.
  repeat split; try assumption; lia.
Qed.

(** C5, as the code has it.  [addTile] validates the tile code first: a code
    that is not a tile code fails with [INVALID_TILE_SYNTAX].  Otherwise it
    fails with [LAYER_NOT_FOUND] when no runtime layer has the name (so for
    the name of a static layer, no runtime layer being called like a static
    one), and with [INVALID_TILE_POSITION] when such a layer exists and
    [(x, y)] is outside the grid.  After each of these three failures the object is as before.
    When the call returns, the configuration is as before and the runtime
    layers differ in one cell only: cell [(x, y)] of the first runtime layer
    with that name now holds [tileCode]. *)
Theorem addTile_spec (layerName : string) (x y : Z) (tileCode : string)
    (s : SceneBuilder) :
  (¬ tile_code (JS.trim tileCode) →
     outcome_code (addTile layerName x y tileCode s) = Some INVALID_TILE_SYNTAX
     ∧ scene_after (addTile layerName x y tileCode s) = Some s)
  ∧ (tile_code (JS.trim tileCode) →
     (∀ l, l ∈ runtimeLayers s → l_name l ≠ layerName) →
     outcome_code (addTile layerName x y tileCode s) = Some LAYER_NOT_FOUND
     ∧ scene_after (addTile layerName x y tileCode s) = Some s)
  ∧ (tile_code (JS.trim tileCode) → static_names_free s →
     (∃ l, l ∈ c_layers (config s) ∧ l_name l = layerName) →
     outcome_code (addTile layerName x y tileCode s) = Some LAYER_NOT_FOUND
     ∧ scene_after (addTile layerName x y tileCode s) = Some s)
  ∧ (tile_code (JS.trim tileCode) →
     (∃ l, l ∈ runtimeLayers s ∧ l_name l = layerName) →
     ¬ (0 <= x < m_width (c_main (config s))
        ∧ 0 <= y < m_height (c_main (config s))) →
     outcome_code (addTile layerName x y tileCode s) = Some INVALID_TILE_POSITION
     ∧ scene_after (addTile layerName x y tileCode s) = Some s)
  ∧ (∀ s', addTile layerName x y tileCode s = Returned tt s' →
       config s' = config s
       ∧ ∃ i layer row,
           list_find (λ l, l_name l = layerName) (runtimeLayers s) = Some (i, layer)
           ∧ 0 <= x < m_width (c_main (config s))
           ∧ 0 <= y < m_height (c_main (config s))
           ∧ l_tiles layer !! Z.to_nat y = Some row
           ∧ (Z.to_nat x < length row)%nat
           ∧ runtimeLayers s'
             = <[i := mkLayer (l_name layer)
                        (<[Z.to_nat y := <[Z.to_nat x := tileCode]> row]>
                           (l_tiles layer))]>
                 (runtimeLayers s)).
Proof.
  unfold addTile.
  pose proof (validateTileFormat_Ok tileCode
                ("addTile: " +:+ tileCode +:+ " @ " +:+ pos_text x y)) as Hiff.
  destruct (validateTileFormat_result tileCode
              ("addTile: " +:+ tileCode +:+ " @ " +:+ pos_text x y))
    as [Hok|Hthrow].
  - rewrite Hok. pose proof (proj1 Hiff Hok) as Hvalid.
    destruct (assign_and_update_checks layerName x y tileCode s) as [H2 H3].
    split; [intros N; contradiction|].
    split; [intros _; exact H2|]. split; [|split; [intros _; exact H3|]].
    + intros _ Fr (l & Hin & Hl). apply H2. intros r Hr Hname.
      unfold static_names_free in Fr.
      apply (proj1 (Forall_forall _ _) Fr r Hr l Hin). congruence.
    + intros s'. apply assign_and_update_Returned.
  - rewrite Hthrow.
    assert (N : ¬ tile_code (JS.trim tileCode)).
    { intros V. apply Hiff in V. congruence. }
    split; [intros _; split; reflexivity|].
    split; [intros V; contradiction|]. split; [intros V; contradiction|].
    split; [intros V; contradiction|]. intros s' [=].
Qed.

Lemma addTile_spec_witness :
  ∃ s1 s2,
    demo_scene = Some s1
    ∧ outcome_code (addTile "furniture" 0 0 "G-3" s1) = Some INVALID_TILE_SYNTAX
    ∧ outcome_code (addTile "bg" 0 0 "G3" s1) = Some LAYER_NOT_FOUND
    ∧ outcome_code (addTile "furniture" 2 0 "G3" s1) = Some INVALID_TILE_POSITION
    ∧ addTile "furniture" 1 0 "G3" s1 = Returned tt s2
    ∧ runtimeLayers s2
      = [mkLayer "furniture" [["0"; "G3"]]; mkLayer "furniture" [["0"; "0"]]].
Proof.
  destruct demo_scene as [s1|] eqn:E; [|vm_compute in E; discriminate].
  destruct (addTile "furniture" 1 0 "G3" s1) as [[] s2|e s2|] eqn:A;
    [|vm_compute in E; injection E as <-; vm_compute in A; discriminate..].
  exists s1, s2. split; [reflexivity|].
  assert (V : tile_code (JS.trim "G3")) by (apply is_tile_code_spec; reflexivity).
  assert (L : runtimeLayers s1
              = [mkLayer "furniture" [["0"; "0"]]; mkLayer "furniture" [["0"; "0"]]]).
  { vm_compute in E. injection E as <-. reflexivity. }
  assert (W : m_width (c_main (config s1)) = 2 ∧ m_height (c_main (config s1)) = 1).
  { vm_compute in E. injection E as <-. split; reflexivity. }
  split; [|split; [|split; [|split]]].
  - destruct (addTile_spec "furniture" 0 0 "G-3" s1) as (H & _).
    apply H. intros T. apply is_tile_code_spec in T. vm_compute in T.
    discriminate.
  - assert (C : c_layers (config s1) = [mkLayer "bg" [["G0"; "0"]]]).
    { vm_compute in E. injection E as <-. reflexivity. }
    destruct (addTile_spec "bg" 0 0 "G3" s1) as (_ & _ & H & _).
    apply H; [exact V| |].
    + unfold static_names_free. rewrite L, C.
      repeat constructor; intros l Hl; apply list_elem_of_singleton in Hl as ->;
        discriminate.
    + rewrite C. eexists. split; [left|reflexivity].
  - destruct (addTile_spec "furniture" 2 0 "G3" s1) as (_ & _ & _ & H & _).
    apply H; [exact V| |].
    + rewrite L. eexists. split; [left|reflexivity].
    + destruct W as [-> ->]. lia.
  - exact A.
  - destruct (addTile_spec "furniture" 1 0 "G3" s1) as (_ & _ & _ & _ & H).
    destruct (H s2 A) as (_ & i & layer & row & Hf & _ & _ & Hr & _ & ->).
    rewrite L in *. vm_compute in Hf. injection Hf as <- <-.
    vm_compute in Hr. injection Hr as <-. reflexivity.
Defined.

(** The tile code [ZZ9] is valid, layer [furniture] is a runtime layer and
    [(0, 0)] is inside the grid, but no tileset has short [ZZ]: [addTile]
    assigns the cell and then fails with [TILESET_NOT_FOUND] while it renders
    the cell again.  The call failed and a grid cell was modified. *)
Lemma addTile_sets_cell_then_throws :
  ∃ s1 s2 e,
    demo_scene = Some s1
    ∧ runtimeLayers s1
      = [mkLayer "furniture" [["0"; "0"]]; mkLayer "furniture" [["0"; "0"]]]
    ∧ addTile "furniture" 0 0 "ZZ9" s1 = Thrown (TW e) s2
    ∧ code e = TILESET_NOT_FOUND
    ∧ runtimeLayers s2
      = [mkLayer "furniture" [["ZZ9"; "0"]]; mkLayer "furniture" [["0"; "0"]]].
Proof.
  eexists _, _, _. split; [vm_compute; reflexivity|].
  split; [reflexivity|]. split; [vm_compute; reflexivity|].
  split; reflexivity.
Qed.

(** *** The grids of runtime layers keep their shape *)

Lemma full_grids_new found selector cfg s :
  new_SceneBuilder found selector cfg = Ok s → full_grids s.
Proof.
  unfold new_SceneBuilder, buildScene, throw.
  destruct (negb found); [discriminate|]. simpl.
  destruct (create_grids _ cfg); simpl; intros [= <-]. constructor.
Qed.

Lemma full_grids_createRuntimeLayer n s s' :
  full_grids s → scene_after (createRuntimeLayer n s) = Some s' → full_grids s'.
Proof.
  intros F. destruct (existsb (has_name n) (c_layers (config s))
                      || existsb (has_name n) (runtimeLayers s)) eqn:E.
  - unfold createRuntimeLayer. rewrite E. intros [= <-]. exact F.
  - apply fresh_name_spec in E. rewrite (createRuntimeLayer_fresh n s E).
    intros [= <-]. unfold full_grids in *. simpl.
    apply Forall_app. split; [exact F|].
    assert (G : length (l_tiles (empty_layer_of n s))
                = Z.to_nat (m_height (c_main (config s)))
                ∧ Forall (λ row, length row = Z.to_nat (m_width (c_main (config s))))
                    (l_tiles (empty_layer_of n s))).
    { unfold empty_layer_of. simpl. rewrite length_replicate. split; [reflexivity|].
      apply Forall_replicate. apply length_replicate. }
    repeat constructor; apply G.
Qed.

Lemma full_grids_assign n x y v s s' :
  full_grids s → scene_after (assign_and_update n x y v s) = Some s' →
  full_grids s'.
Proof.
  intros F. unfold assign_and_update, layer_not_found, invalid_position.
  destruct (list_find _ (runtimeLayers s)) as [[i layer]|] eqn:E;
    [|intros [= <-]; exact F].
  destruct (out_of_bounds x y (c_main (config s))); [intros [= <-]; exact F|].
  destruct (l_tiles layer !! Z.to_nat y) as [row|] eqn:R;
    [|intros [= <-]; exact F].
  destruct (Z.to_nat x <? length row)%nat; [|discriminate].
  set (s1 := set_runtimeLayers _ s).
  assert (F1 : full_grids s1).
  { unfold full_grids, s1. simpl. apply list_find_Some in E as (Hi & _ & _).
    unfold full_grids in F.
    pose proof (proj1 (Forall_lookup _ _) F i layer Hi) as [Hlen Hrows].
    apply Forall_insert; [exact F|]. simpl. rewrite length_insert.
    split; [exact Hlen|]. apply Forall_insert; [exact Hrows|].
    rewrite length_insert.
    apply (proj1 (Forall_lookup _ _) Hrows _ _ R). }
  pose proof (updateTileInDOM_keeps n x y s1) as K.
  destruct (updateTileInDOM n x y s1) as [u s2|e s2|]; [| |discriminate].
  - intros [= <-]. destruct K as [Kc Kr]. unfold full_grids. rewrite Kc, Kr.
    exact F1.
  - intros [= <-]. destruct K as [-> _]. exact F1.
Qed.

(** *** Runtime layers never take the name of a static layer *)

Lemma static_names_free_new found selector cfg s :
  new_SceneBuilder found selector cfg = Ok s → static_names_free s.
Proof.
  unfold new_SceneBuilder, buildScene, throw.
  destruct (negb found); [discriminate|]. simpl.
  destruct (create_grids _ cfg); simpl; intros [= <-]. constructor.
Qed.

Lemma static_names_free_createRuntimeLayer n s s' :
  static_names_free s → scene_after (createRuntimeLayer n s) = Some s' →
  static_names_free s'.
Proof.
  intros F. destruct (existsb (has_name n) (c_layers (config s))
                      || existsb (has_name n) (runtimeLayers s)) eqn:E.
  - unfold createRuntimeLayer. rewrite E. intros [= <-]. exact F.
  - apply fresh_name_spec in E. rewrite (createRuntimeLayer_fresh n s E).
    intros [= <-]. unfold static_names_free in *. simpl.
    apply Forall_app. split; [exact F|].
    destruct E as [Hstatic _].
    repeat constructor; intros l Hl Hn; apply (Hstatic l Hl); symmetry; exact Hn.
Qed.

Lemma static_names_free_assign n x y v s s' :
  static_names_free s → scene_after (assign_and_update n x y v s) = Some s' →
  static_names_free s'.
Proof.
  intros F. unfold assign_and_update, layer_not_found, invalid_position.
  destruct (list_find _ (runtimeLayers s)) as [[i layer]|] eqn:E;
    [|intros [= <-]; exact F].
  destruct (out_of_bounds x y (c_main (config s))); [intros [= <-]; exact F|].
  destruct (l_tiles layer !! Z.to_nat y) as [row|] eqn:R;
    [|intros [= <-]; exact F].
  destruct (Z.to_nat x <? length row)%nat; [|discriminate].
  set (s1 := set_runtimeLayers _ s).
  assert (F1 : static_names_free s1).
  { unfold static_names_free, s1. simpl. apply list_find_Some in E as (Hi & _ & _).
    apply Forall_insert; [exact F|]. simpl.
    apply (proj1 (Forall_lookup _ _) F i layer Hi). }
  pose proof (updateTileInDOM_keeps n x y s1) as K.
  destruct (updateTileInDOM n x y s1) as [u s2|e s2|]; [| |discriminate].
  - intros [= <-]. destruct K as [Kc Kr]. unfold static_names_free.
    rewrite Kc, Kr. exact F1.
  - intros [= <-]. destruct K as [-> _]. exact F1.
Qed.

(** On a scene whose runtime grids are full, [addTile] and [removeTile] raise
    no [TypeError], and stay within the model for a layer name that is a
    plain class name. *)
Lemma assign_and_update_in_model n x y v s :
  full_grids s →
  (plain_class_name n = true → assign_and_update n x y v s ≠ OutOfModel)
  ∧ ∀ s', assign_and_update n x y v s ≠ Thrown TypeError s'.
Proof.
  intros F. unfold assign_and_update, layer_not_found, invalid_position.
  destruct (list_find _ (runtimeLayers s)) as [[i layer]|] eqn:E;
    [|split; [intros _|intros s']; discriminate].
  destruct (out_of_bounds x y (c_main (config s))) eqn:B;
    [split; [intros _|intros s']; discriminate|].
  apply out_of_bounds_false in B as [Bx By].
  apply list_find_Some in E as (Hi & _ & _).
  pose proof (proj1 (Forall_lookup _ _) F i layer Hi) as [Hlen Hrows].
  destruct (l_tiles layer !! Z.to_nat y) as [row|] eqn:R.
  - pose proof (proj1 (Forall_lookup _ _) Hrows _ _ R) as Hrow.
    cbv beta in Hrow.
    assert (L : (Z.to_nat x <? length row)%nat = true)
      by (apply Nat.ltb_lt; lia).
    rewrite L.
    match goal with
    | |- context [updateTileInDOM n x y ?s1] =>
        pose proof (updateTileInDOM_keeps n x y s1) as K;
        destruct (updateTileInDOM n x y s1) as [u s2|e s2|]
    end;
      [split; [intros _|intros s']; discriminate
      |destruct K as (_ & twe & -> & _);
       split; [intros _|intros s']; discriminate
      |split; [congruence|intros s'; discriminate]].
  - apply lookup_ge_None in R. lia.
Qed.

(** ** Pointer tracking *)

Section HoverFacts.

Context {Callback MouseEvent : Type}.

Implicit Types (h : HoverState Callback) (c : Z * Z) (e : MouseEvent).

Lemma has_last_cell h : is_cell (lastHoveredTile _ h) → has_last h = true.
Proof.
  unfold is_cell, has_last. intros [Hx Hy].
  apply andb_true_iff. split; apply negb_true_iff, Z.eqb_neq; lia.
Qed.

Lemma hovered_cell h : is_cell (lastHoveredTile _ h) →
  hovered h = Some (lastHoveredTile _ h).
Proof. intros H. unfold hovered. rewrite (has_last_cell h H). reflexivity. Qed.

Lemma hovered_none h : lastHoveredTile _ h = no_tile → hovered h = None.
Proof. unfold hovered, has_last. intros ->. reflexivity. Qed.

Lemma same_cell_test h x y :
  (fst (lastHoveredTile _ h) =? x) && (snd (lastHoveredTile _ h) =? y) = true
  ↔ lastHoveredTile _ h = (x, y).
Proof.
  destruct (lastHoveredTile _ h) as [lx ly]. simpl.
  rewrite andb_true_iff, !Z.eqb_eq. split; [intros [-> ->]|intros [= -> ->]]; auto.
Qed.

Lemma entries_app (o o1 o2 : option (Z * Z)) (evs1 evs2 : list (HoverEvent MouseEvent)) :
  entries o evs1 o1 → entries o1 evs2 o2 → entries o (evs1 ++ evs2) o2.
Proof.
  induction 1; simpl; intros H2; [exact H2|constructor; auto..].
Qed.

(** One pointer action: the invocations made are the deliveries of at most
    one hover-end followed by at most one hover-start, consistent with the
    cell the pointer was in and the one it is in afterwards. *)
Lemma pointer_step_events (p : Pointer MouseEvent) h :
  tracked h → on_grid p →
  tracked (fst (pointer_step p h))
  ∧ eventSubscriber _ (fst (pointer_step p h)) = eventSubscriber _ h
  ∧ ∃ evs,
      snd (pointer_step p h) = concat (List.map (deliver (eventSubscriber _ h)) evs)
      ∧ entries (hovered h) evs (hovered (fst (pointer_step p h))).
Proof.
  intros T G. destruct p as [[x|] [y|] e|e]; simpl.
  - (* a move onto cell (x, y) *)
    simpl in G.
    destruct ((fst (lastHoveredTile _ h) =? x) && (snd (lastHoveredTile _ h) =? y))
      eqn:Same; simpl.
    + split; [exact T|]. split; [reflexivity|]. exists []. split; [reflexivity|].
      constructor.
    + split; [right; exact G|]. split; [reflexivity|].
      assert (Hnew : hovered (set_last (x, y) h) = Some (x, y))
        by (apply (hovered_cell (set_last (x, y) h)); exact G).
      rewrite Hnew. destruct T as [T|T].
      * rewrite (hovered_none h T). unfold has_last. rewrite T. simpl.
        exists [HoverStart (x, y) e]. split; [simpl; rewrite app_nil_r; reflexivity|].
        repeat constructor.
      * rewrite (hovered_cell h T), (has_last_cell h T).
        exists [HoverEnd (lastHoveredTile _ h) e; HoverStart (x, y) e].
        split; [simpl; rewrite app_nil_r; reflexivity|]. repeat constructor.
  - split; [exact T|]. split; [reflexivity|]. exists []. split; [reflexivity|constructor].
  - split; [exact T|]. split; [reflexivity|]. exists []. split; [reflexivity|constructor].
  - split; [exact T|]. split; [reflexivity|]. exists []. split; [reflexivity|constructor].
  - (* the pointer leaves the wrapper *)
    split; [left; reflexivity|]. split; [reflexivity|].
    rewrite (hovered_none (set_last no_tile h) eq_refl). destruct T as [T|T].
    + rewrite (hovered_none h T). unfold has_last. rewrite T. simpl.
      exists []. split; [reflexivity|constructor].
    + rewrite (hovered_cell h T), (has_last_cell h T).
      exists [HoverEnd (lastHoveredTile _ h) e].
      split; [simpl; rewrite app_nil_r; reflexivity|]. repeat constructor.
Qed.

Lemma pointer_run_events (ps : list (Pointer MouseEvent)) h :
  tracked h → Forall on_grid ps →
  ∃ evs,
    snd (pointer_run ps h) = concat (List.map (deliver (eventSubscriber _ h)) evs)
    ∧ entries (hovered h) evs (hovered (fst (pointer_run ps h))).
Proof.
  revert h. induction ps as [|p ps IH]; intros h T G; simpl.
  - exists []. split; [reflexivity|constructor].
  - apply Forall_cons in G as [Gp Gps].
    destruct (pointer_step_events p h T Gp) as (T1 & S1 & evs1 & C1 & E1).
    destruct (pointer_step p h) as [h1 c1]. simpl in *.
    destruct (IH h1 T1 Gps) as (evs2 & C2 & E2).
    destruct (pointer_run ps h1) as [h2 c2]. simpl in *.
    exists (evs1 ++ evs2). split.
    + rewrite map_app, concat_app, C1, C2, S1. reflexivity.
    + eapply entries_app; eauto.
Qed.

(** C9.  With the pointer in cell [new], a move onto [new] changes nothing
    and invokes no subscriber.  With the pointer in another cell [prev], a
    move onto [new] delivers one hover-end for [prev] and then one hover-start
    for [new]; with the pointer in no cell it delivers the hover-start only.
    Leaving the wrapper from [prev] delivers one hover-end for [prev] and
    clears the cell; leaving from no cell delivers nothing.  Over any sequence
    of pointer actions on the grid, from the state of a new scene, the
    invocations are the deliveries of a sequence of events in which a hover
    starts only when none is open and ends only the open one, for the same
    cell. *)
Theorem hover_tracking (sub : SceneEventSubscriber Callback) (prev new : Z * Z)
    (e : MouseEvent) (ps : list (Pointer MouseEvent)) :
  is_cell prev → is_cell new → prev ≠ new → Forall on_grid ps →
  onmousemove (Some (fst new)) (Some (snd new)) e (mkHover new sub)
  = (mkHover new sub, [])
  ∧ onmousemove (Some (fst new)) (Some (snd new)) e (mkHover prev sub)
    = (mkHover new sub,
       deliver sub (HoverEnd prev e) ++ deliver sub (HoverStart new e))
  ∧ onmousemove (Some (fst new)) (Some (snd new)) e (mkHover no_tile sub)
    = (mkHover new sub, deliver sub (HoverStart new e))
  ∧ onmouseleave e (mkHover prev sub)
    = (mkHover no_tile sub, deliver sub (HoverEnd prev e))
  ∧ onmouseleave e (mkHover no_tile sub) = (mkHover no_tile sub, [])
  ∧ ∃ evs,
      snd (pointer_run ps (mkHover no_tile sub))
      = concat (List.map (deliver sub) evs)
      ∧ entries None evs (hovered (fst (pointer_run ps (mkHover no_tile sub)))).
Proof.
  intros Hprev Hnew Hne G.
  destruct prev as [px py], new as [nx ny]. unfold is_cell in *.
  cbn [fst snd] in *.
  assert (Lp : has_last (mkHover (px, py) sub) = true)
    by (apply has_last_cell; exact Hprev).
  split; [|split; [|split; [|split; [|split]]]].
  - unfold onmousemove. cbn [fst snd lastHoveredTile].
    rewrite !Z.eqb_refl. reflexivity.
  - unfold onmousemove. cbn [fst snd lastHoveredTile].
    destruct ((px =? nx) && (py =? ny)) eqn:Same.
    + apply andb_true_iff in Same as [Sx Sy].
      apply Z.eqb_eq in Sx, Sy. congruence.
    + rewrite Lp. reflexivity.
  - unfold onmousemove, no_tile. cbn [fst snd lastHoveredTile].
    replace ((-1 =? nx) && (-1 =? ny)) with false; [reflexivity|].
    symmetry. apply andb_false_iff. left. apply Z.eqb_neq. lia.
  - unfold onmouseleave. rewrite Lp. reflexivity.
  - reflexivity.
  - apply (pointer_run_events ps (mkHover no_tile sub)); [left; reflexivity|exact G].
Qed.

End HoverFacts.

Lemma hover_tracking_witness :
  onmousemove (Some 1) (Some 0) 7%nat (mkHover (0, 0) (mkSubscriber [] ["h"] ["e"]))
  = (mkHover (1, 0) (mkSubscriber [] ["h"] ["e"]),
     [call "e" (mkEvent 0 0 7%nat); call "h" (mkEvent 1 0 7%nat)])
  ∧ onmousemove (Some 0) (Some 0) 8%nat (mkHover (0, 0) (mkSubscriber [] ["h"] ["e"]))
    = (mkHover (0, 0) (mkSubscriber [] ["h"] ["e"]), []).
Proof.
  destruct (hover_tracking (mkSubscriber [] ["h"] ["e"]) (0, 0) (1, 0) 7%nat
              [Move (Some 0) (Some 0) 1%nat; Leave 2%nat])
    as (_ & H & _); [unfold is_cell; simpl; lia..|discriminate| |].
  - repeat constructor; simpl; lia.
  - split; [exact H|]. reflexivity.
Defined.

(* ===================================================================== *)
(** * Further properties of the parser                                    *)
(* ===================================================================== *)

Module ParserMore.
Import Parser.

(** ** Blank lines and comments *)

Lemma process_line_skipped l st : skipped l = true → process_line l st = Ok st.
Proof. unfold skipped, process_line. intros ->. reflexivity. Qed.

Lemma process_lines_without_skipped lines st :
  process_lines (List.filter (λ l, negb (skipped l)) lines) st
  = process_lines lines st.
Proof.
  revert st. induction lines as [|l lines IH]; intros st; simpl; [reflexivity|].
  destruct (skipped l) eqn:E; simpl.
  - rewrite (process_line_skipped l st E). simpl. apply IH.
  - destruct (process_line l st); simpl; [apply IH|reflexivity].
Qed.

Lemma split_lines_text (ls : list string) :
  ls ≠ [] → Forall (λ l, occurs "010" l = false) ls →
  JS.split "010" (lines_text ls) = ls.
Proof.
  induction ls as [|l ls IH]; [congruence|]. intros _ F.
  apply Forall_cons in F as [Hl F].
  destruct ls as [|l' ls].
  - simpl. apply ParserFacts.split_no_sep, Hl.
  - change (lines_text (l :: l' :: ls))
      with (l +:+ String "010" (lines_text (l' :: ls))).
    rewrite (ParserFacts.split_first _ _ _ Hl), IH; [reflexivity|discriminate|exact F].
Qed.

(** X1. Two texts whose lines differ only in blank lines and comment lines
    (lines that start with [#] after trimming) give the same result, be it a
    configuration or an error. *)
Theorem parseConfig_ignores_blank_and_comment_lines (ls ls' : list string) :
  ls ≠ [] → ls' ≠ [] →
  Forall (λ l, occurs "010" l = false) ls →
  Forall (λ l, occurs "010" l = false) ls' →
  List.filter (λ l, negb (skipped l)) ls = List.filter (λ l, negb (skipped l)) ls' →
  parseConfig (lines_text ls) = parseConfig (lines_text ls').
Proof.
  intros N N' F F' E. unfold parseConfig.
  rewrite (split_lines_text ls N F), (split_lines_text ls' N' F').
  rewrite <- (process_lines_without_skipped ls), <- (process_lines_without_skipped ls').
  rewrite E. reflexivity.
Qed.

Lemma parseConfig_ignores_blank_and_comment_lines_witness :
  parseConfig (lines_text ["# world"; "[main]"; ""; "  # size"; "width=2"; "   "])
  = parseConfig (lines_text ["[main]"; "width=2"]).
Proof.
  apply parseConfig_ignores_blank_and_comment_lines;
    [discriminate|discriminate| | |reflexivity];
    repeat constructor.
Defined.

(** ** Tilesets *)

Lemma find_short_None (sh : string) (l : list TWMTileset) :
  find_tileset (λ ts, bool_decide (ts_short ts = sh)) l = None
  ↔ sh ∉ List.map ts_short l.
Proof.
  unfold find_tileset. induction l as [|t l IH]; simpl.
  - split; [intros _ H; inversion H|reflexivity].
  - destruct (decide (ts_short t = sh)) as [E|E].
    + rewrite bool_decide_eq_true_2 by exact E. split; [discriminate|].
      intros H. destruct H. rewrite E. left.
    + rewrite bool_decide_eq_false_2 by exact E. rewrite IH, not_elem_of_cons.
      split; [intros H; split; [congruence|exact H]|intros [_ H]; exact H].
Qed.

Lemma find_id_None (i : string) (l : list TWMTileset) :
  find_tileset (λ ts, bool_decide (ts_id ts = i)) l = None
  ↔ i ∉ List.map ts_id l.
Proof.
  unfold find_tileset. induction l as [|t l IH]; simpl.
  - split; [intros _ H; inversion H|reflexivity].
  - destruct (decide (ts_id t = i)) as [E|E].
    + rewrite bool_decide_eq_true_2 by exact E. split; [discriminate|].
      intros H. destruct H. rewrite E. left.
    + rewrite bool_decide_eq_false_2 by exact E. rewrite IH, not_elem_of_cons.
      split; [intros H; split; [congruence|exact H]|intros [_ H]; exact H].
Qed.

Lemma NoDup_snoc_fresh (l : list string) (x : string) :
  NoDup l → x ∉ l → NoDup (l ++ [x]).
Proof.
  intros N H. apply NoDup_app. split; [exact N|]. split.
  - intros y Hy Hin. apply list_elem_of_singleton in Hin as ->. contradiction.
  - apply NoDup_singleton.
Qed.

Lemma handleTileset_unique key value st st' :
  handleTileset key value st = Ok st' →
  NoDup (List.map ts_id (tilesets (config st)))
  ∧ NoDup (List.map ts_short (tilesets (config st))) →
  NoDup (List.map ts_id (tilesets (config st')))
  ∧ NoDup (List.map ts_short (tilesets (config st'))).
Proof.
  unfold handleTileset, throw.
  set (t := if decide (key = "tileset") then _ else _).
  intros H [Ni Ns].
  destruct (id t) as [i|], (tileset t) as [src|], (short t) as [sh|];
    try (injection H as <-; simpl; auto).
  destruct (JS.truthy i && JS.truthy src && JS.truthy sh);
    [|injection H as <-; simpl; auto].
  destruct (find_tileset _ (tilesets (config st))) eqn:Fs; [discriminate|].
  destruct (find_tileset (λ ts, bool_decide (ts_id ts = i)) (tilesets (config st)))
    eqn:Fi; [discriminate|].
  injection H as <-. simpl. rewrite !map_app. simpl.
  apply find_short_None in Fs. apply find_id_None in Fi.
  split; apply NoDup_snoc_fresh; assumption.
Qed.

Lemma reachable_unique st :
  reachable st →
  NoDup (List.map ts_id (tilesets (config st)))
  ∧ NoDup (List.map ts_short (tilesets (config st))).
Proof.
  apply (ParserFacts.reachable_ind
           (λ st, NoDup (List.map ts_id (tilesets (config st)))
                  ∧ NoDup (List.map ts_short (tilesets (config st))))).
  - split; constructor.
  - intros l s s' Inv H.
    apply ParserFacts.process_line_cases in H as [->|[H|(k & v & _ & H)]]; [auto| |].
    + apply ParserFacts.handleSectionHeader_keeps in H as (-> & _). exact Inv.
    + apply ParserFacts.handleKeyValue_cases in H
        as [(_ & c & H & ->)|[(_ & H)|[(_ & H)|(_ & H)]]].
      * apply ParserFacts.handleMain_keeps in H as (_ & Ht & _). simpl.
        rewrite Ht. exact Inv.
      * eapply handleTileset_unique; eauto.
      * apply ParserFacts.handleLayer_keeps in H as (_ & -> & _). exact Inv.
      * apply ParserFacts.handleProps_keeps in H as (_ & _ & _ & _ & ->). exact Inv.
Qed.

(** X2. In a parsed configuration no two tilesets have the same [id] and no
    two have the same [short]. *)
Theorem parsed_tilesets_unique (raw : string) (cfg : PartialConfig) :
  parseConfig raw = Ok cfg →
  NoDup (List.map ts_id (tilesets cfg)) ∧ NoDup (List.map ts_short (tilesets cfg)).
Proof.
  unfold parseConfig. intros H. apply bind_Ok in H as (st & Hst & Hfin).
  rewrite (ParserFacts.finish_tilesets st cfg Hfin).
  apply reachable_unique. eexists. exact Hst.
Qed.

Lemma parsed_tilesets_unique_witness :
  ∃ cfg,
    parseConfig
      (lines_text ["[main]"; "width=1"; "[tileset:a]"; "tileset=a.png"; "short=A";
                   "[tileset:b]"; "short=B"; "tileset=b.png"]) = Ok cfg
    ∧ List.map ts_id (tilesets cfg) = ["a"; "b"]
    ∧ NoDup (List.map ts_short (tilesets cfg)).
Proof.
  destruct (parseConfig
              (lines_text ["[main]"; "width=1"; "[tileset:a]"; "tileset=a.png";
                           "short=A"; "[tileset:b]"; "short=B"; "tileset=b.png"]))
    as [cfg|e] eqn:E; [|vm_compute in E; discriminate].
  exists cfg. split; [reflexivity|]. split.
  - vm_compute in E. injection E as <-. reflexivity.
  - eapply parsed_tilesets_unique. exact E.
Defined.

(** X3. When a tileset line completes the record in progress (an [id] from the
    header, a [tileset] and a [short], none empty), the record is checked
    against the finalized tilesets: a tileset with the same [short], or else
    with the same [id], makes the line fail with [DUPLICATE_TILESET];
    otherwise the record is appended to the tilesets and the record in
    progress is reset. *)
Theorem handleTileset_finalizes (key value i src sh : string) (st : ParserState) :
  id (tempTileset st) = Some i →
  (key = "short" ∧ value = sh ∧ tileset (tempTileset st) = Some src)
  ∨ (key = "tileset" ∧ value = src ∧ short (tempTileset st) = Some sh) →
  i ≠ EmptyString → src ≠ EmptyString → sh ≠ EmptyString →
  (sh ∈ List.map ts_short (tilesets (config st)) →
     thrown_code (handleTileset key value st) = Some DUPLICATE_TILESET)
  ∧ (i ∈ List.map ts_id (tilesets (config st)) →
     thrown_code (handleTileset key value st) = Some DUPLICATE_TILESET)
  ∧ (sh ∉ List.map ts_short (tilesets (config st)) →
     i ∉ List.map ts_id (tilesets (config st)) →
     handleTileset key value st
     = Ok (mkState (currentSection st) (currentLayer st) empty_tileset
             (mkPConfig (main (config st)) (layers (config st))
                (tilesets (config st) ++ [mkTileset i src sh])
                (props (config st))))).
Proof.
  intros Hi Hkey Ti Ts Th.
  apply truthy_nonempty in Ti, Ts, Th.
  assert (E : handleTileset key value st =
    match find_tileset (λ ts, bool_decide (ts_short ts = sh)) (tilesets (config st)) with
    | Some _ =>
        throw DUPLICATE_TILESET ("Duplicate tileset short " +:+ JS.quoted sh)
          (Some value) "Parser"
    | None =>
        match find_tileset (λ ts, bool_decide (ts_id ts = i)) (tilesets (config st)) with
        | Some _ =>
            throw DUPLICATE_TILESET ("Duplicate tileset id " +:+ JS.quoted i)
              (Some value) "Parser"
        | None =>
            Ok (mkState (currentSection st) (currentLayer st) empty_tileset
                  (mkPConfig (main (config st)) (layers (config st))
                     (tilesets (config st) ++ [mkTileset i src sh])
                     (props (config st))))
        end
    end).
  { unfold handleTileset.
    destruct Hkey as [(-> & -> & Hsrc)|(-> & -> & Hsh)].
    - rewrite decide_False by discriminate. rewrite decide_True by reflexivity.
      simpl. rewrite Hi, Hsrc, Ti, Ts, Th. reflexivity.
    - rewrite decide_True by reflexivity.
      simpl. rewrite Hi, Hsh, Ti, Ts, Th. reflexivity. }
  rewrite E.
  destruct (find_tileset (λ ts, bool_decide (ts_short ts = sh)) (tilesets (config st)))
    eqn:Fs.
  - split; [reflexivity|]. split; [reflexivity|].
    intros N. apply find_short_None in N. congruence.
  - apply find_short_None in Fs.
    destruct (find_tileset (λ ts, bool_decide (ts_id ts = i)) (tilesets (config st)))
      eqn:Fi.
    + split; [reflexivity|]. split; [reflexivity|].
      intros _ N. apply find_id_None in N. congruence.
    + apply find_id_None in Fi.
      split; [intros; contradiction|]. split; [intros; contradiction|].
      reflexivity.
Qed.

Lemma handleTileset_finalizes_witness :
  thrown_code
    (parseConfig
       (lines_text ["[main]"; "width=1"; "[tileset:a]"; "tileset=a.png"; "short=G";
                    "[tileset:b]"; "tileset=b.png"; "short=G"]))
  = Some DUPLICATE_TILESET
  ∧ thrown_code
      (handleTileset "short" "G"
         (mkState "tileset" empty_layer (mkPTileset (Some "b") (Some "b.png") None)
            (mkPConfig None [] [mkTileset "a" "a.png" "G"] (mkProps ∅ ∅ ∅))))
    = Some DUPLICATE_TILESET.
Proof.
  split; [vm_compute; reflexivity|].
  destruct (handleTileset_finalizes "short" "G" "b" "b.png" "G"
              (mkState "tileset" empty_layer
                 (mkPTileset (Some "b") (Some "b.png") None)
                 (mkPConfig None [] [mkTileset "a" "a.png" "G"] (mkProps ∅ ∅ ∅))))
    as (H & _); [reflexivity|left; auto|discriminate..|].
  apply H. left.
Defined.

(** ** Layers *)

Lemma parse_cells_stored row cells r :
  parse_cells row cells = Ok r → Forall stored_cell r.
Proof.
  revert r. induction cells as [|c cells IH]; intros r; simpl.
  - intros [= <-]. constructor.
  - rewrite ParserFacts.validateTileFormat_trimmed.
    destruct (is_tile_code (JS.trim c)) eqn:V; simpl; [|discriminate].
    intros H. apply bind_Ok in H as (r' & Hr' & [= <-]).
    constructor; [|apply IH, Hr'].
    split; [apply is_tile_code_spec, V|apply trim_idem].
Qed.

Lemma parse_rows_stored rows g :
  parse_rows rows = Ok g → Forall (Forall stored_cell) g.
Proof.
  revert g. induction rows as [|row rows IH]; intros g; simpl.
  - intros [= <-]. constructor.
  - intros H. apply bind_Ok in H as (r & Hr & H).
    apply bind_Ok in H as (g' & Hg' & [= <-]).
    constructor; [eapply parse_cells_stored, Hr|apply IH, Hg'].
Qed.

Lemma handleLayer_tiles_origin key value st st' :
  handleLayer key value st = Ok st' →
  layers (config st') = layers (config st)
  ∧ ∀ g, tiles (currentLayer st') = Some g →
      tiles (currentLayer st) = Some g ∨ g = []
      ∨ ∃ rows, parse_rows rows = Ok g.
Proof.
  unfold handleLayer, throw.
  destruct (decide (key = "tiles")).
  - destruct (List.find _ (layers (config st))); [discriminate|].
    intros H. apply bind_Ok in H as (g & Hg & [= <-]). simpl.
    split; [reflexivity|]. intros g' [= <-]. eauto.
  - intros [= <-]. simpl. split; [reflexivity|].
    destruct (tiles (currentLayer st)) as [g0|] eqn:E; simpl; intros g Hg;
      simplify_eq; auto.
Qed.

Lemma reachable_stored st :
  reachable st →
  Forall (λ l, l_name l ≠ EmptyString ∧ Forall (Forall stored_cell) (l_tiles l))
    (layers (config st))
  ∧ ∀ g, tiles (currentLayer st) = Some g → Forall (Forall stored_cell) g.
Proof.
  apply (ParserFacts.reachable_ind
           (λ st, Forall (λ l, l_name l ≠ EmptyString
                               ∧ Forall (Forall stored_cell) (l_tiles l))
                    (layers (config st))
                  ∧ ∀ g, tiles (currentLayer st) = Some g
                         → Forall (Forall stored_cell) g)).
  - split; [constructor|]. intros g [=].
  - intros l s s' [Hl Hc] H.
    assert (Hpush : Forall (λ l, l_name l ≠ EmptyString
                                 ∧ Forall (Forall stored_cell) (l_tiles l))
                      (layers (push_current_layer s))).
    { unfold push_current_layer.
      destruct (name (currentLayer s)) as [n|]; [|exact Hl].
      destruct (JS.truthy n) eqn:T; [|exact Hl]. simpl.
      apply Forall_app. split; [exact Hl|]. constructor; [|constructor]. simpl.
      split; [apply truthy_nonempty, T|].
      destruct (tiles (currentLayer s)) as [g|]; simpl; [auto|constructor]. }
    apply ParserFacts.process_line_cases in H as [->|[H|(k & v & _ & H)]]; [auto| |].
    + unfold handleSectionHeader, throw in H.
      repeat case_match; simplify_eq; simpl; auto.
      split; [exact Hpush|]. intros g [= <-]. constructor.
    + apply ParserFacts.handleKeyValue_cases in H
        as [(_ & c & H & ->)|[(_ & H)|[(_ & H)|(_ & H)]]].
      * apply ParserFacts.handleMain_keeps in H as (Hlay & _). simpl.
        rewrite Hlay. auto.
      * unfold handleTileset, throw in H.
        repeat case_match; simplify_eq; simpl; auto.
      * destruct (handleLayer_tiles_origin _ _ _ _ H) as [Hlay Ht].
        rewrite Hlay. split; [exact Hl|]. intros g Hg.
        destruct (Ht g Hg) as [Hold|[->|(rows & Hrows)]];
          [auto|constructor|eapply parse_rows_stored, Hrows].
      * apply ParserFacts.handleProps_keeps in H as (_ & Hcl & _ & Hlay & _).
        rewrite Hcl, Hlay. auto.
Qed.

Lemma parseConfig_layers_stored (raw : string) (cfg : PartialConfig) :
  parseConfig raw = Ok cfg →
  Forall (λ l, l_name l ≠ EmptyString ∧ Forall (Forall stored_cell) (l_tiles l))
    (layers cfg).
Proof.
  unfold parseConfig. intros H. apply bind_Ok in H as (st & Hst & Hfin).
  assert (R : reachable st) by (eexists; exact Hst).
  destruct (reachable_stored st R) as [Hl Hc].
  unfold finish, throw in Hfin.
  destruct (main (push_current_layer st)); [|discriminate].
  injection Hfin as <-. unfold push_current_layer.
  destruct (name (currentLayer st)) as [n|]; [|exact Hl].
  destruct (JS.truthy n) eqn:T; [|exact Hl]. simpl.
  apply Forall_app. split; [exact Hl|]. constructor; [|constructor]. simpl.
  split; [apply truthy_nonempty, T|].
  destruct (tiles (currentLayer st)) as [g|]; simpl; [auto|constructor].
Qed.

(** X4. In a parsed configuration every layer has a name that is not empty,
    and every cell of every layer is a tile code (the empty marker or letters
    followed by digits) with no white space around it. *)
Theorem parsed_layers_hold_tile_codes (raw : string) (cfg : PartialConfig) :
  parseConfig raw = Ok cfg →
  Forall (λ l, l_name l ≠ EmptyString ∧ Forall (Forall stored_cell) (l_tiles l))
    (layers cfg).
Proof. apply parseConfig_layers_stored. Qed.

Lemma parsed_layers_hold_tile_codes_witness :
  ∃ cfg,
    parseConfig
      (lines_text ["[main]"; "width=2"; "[layer:bg]"; "tiles= G0 ,0; 0,S1 "]) = Ok cfg
    ∧ layers cfg = [mkLayer "bg" [["G0"; "0"]; ["0"; "S1"]]]
    ∧ Forall (λ l, l_name l ≠ EmptyString
                   ∧ Forall (Forall stored_cell) (l_tiles l)) (layers cfg).
Proof.
  destruct (parseConfig
              (lines_text ["[main]"; "width=2"; "[layer:bg]"; "tiles= G0 ,0; 0,S1 "]))
    as [cfg|e] eqn:E; [|vm_compute in E; discriminate].
  exists cfg. split; [reflexivity|]. split.
  - vm_compute in E. injection E as <-. reflexivity.
  - eapply parsed_layers_hold_tile_codes. exact E.
Defined.

Lemma handleTileset_frame key value st st' :
  handleTileset key value st = Ok st' →
  currentSection st' = currentSection st ∧ currentLayer st' = currentLayer st
  ∧ layers (config st') = layers (config st).
Proof.
  unfold handleTileset, throw. intros H.
  repeat case_match; simplify_eq; simpl; auto.
Qed.

Lemma handleProps_section key value st st' :
  handleProps key value st = Ok st' → currentSection st' = currentSection st.
Proof.
  unfold handleProps, set_prop, throw. intros H.
  repeat case_match; simplify_eq; simpl in *; simplify_eq; simpl; auto.
Qed.

Lemma handleLayer_name key value st st' :
  handleLayer key value st = Ok st' →
  name (currentLayer st') = name (currentLayer st)
  ∧ is_Some (tiles (currentLayer st')).
Proof.
  unfold handleLayer, throw.
  destruct (decide (key = "tiles")).
  - destruct (List.find _ (layers (config st))); [discriminate|].
    intros H. apply bind_Ok in H as (g & Hg & [= <-]). simpl.
    destruct (tiles (currentLayer st)); simpl; eauto.
  - intros [= <-]. destruct (tiles (currentLayer st)) eqn:E; simpl; eauto.
Qed.

Lemma reachable_layer_section st :
  reachable st →
  currentSection st = "layer" → is_Some (tiles (currentLayer st)).
Proof.
  apply (ParserFacts.reachable_ind
           (λ st, currentSection st = "layer" → is_Some (tiles (currentLayer st)))).
  - discriminate.
  - intros l s s' Inv H.
    apply ParserFacts.process_line_cases in H as [->|[H|(k & v & _ & H)]]; [exact Inv| |].
    + unfold handleSectionHeader, throw in H.
      repeat case_match; simplify_eq; simpl; try discriminate; eauto.
    + apply ParserFacts.handleKeyValue_cases in H
        as [(_ & c & H & ->)|[(_ & H)|[(_ & H)|(_ & H)]]].
      * exact Inv.
      * apply handleTileset_frame in H as (-> & -> & _). exact Inv.
      * intros _. eapply handleLayer_name, H.
      * rewrite (handleProps_section _ _ _ _ H).
        apply ParserFacts.handleProps_keeps in H as (_ & -> & _). exact Inv.
Qed.

(** X5. In a state the parser can reach, inside a layer section, a
    [key=value] line whose key is not [tiles] is accepted and changes
    nothing. *)
Theorem layer_unknown_key_ignored (st : ParserState) (key value : string) :
  reachable st → currentSection st = "layer" → key ≠ "tiles" →
  handleKeyValue key value st = Ok st.
Proof.
  intros R Hsec Hkey. destruct (reachable_layer_section st R Hsec) as [g Hg].
  unfold handleKeyValue. rewrite Hsec.
  rewrite !decide_False by discriminate. rewrite decide_True by reflexivity.
  unfold handleLayer. rewrite Hg. rewrite decide_False by exact Hkey.
  destruct st; reflexivity.
Qed.

Lemma layer_unknown_key_ignored_witness :
  ∃ st,
    process_lines ["[main]"; "width=2"; "[layer:bg]"; "tiles=G0,0"] initial_state
    = Ok st
    ∧ handleKeyValue "opacity" "0.5" st = Ok st.
Proof.
  destruct (process_lines ["[main]"; "width=2"; "[layer:bg]"; "tiles=G0,0"]
              initial_state) as [st|e] eqn:E; [|vm_compute in E; discriminate].
  assert (R : reachable st) by (eexists; exact E).
  assert (Hsec : currentSection st = "layer").
  { vm_compute in E. injection E as <-. reflexivity. }
  exists st. split; [reflexivity|].
  exact (layer_unknown_key_ignored st "opacity" "0.5" R Hsec ltac:(discriminate)).
Defined.

Lemma startsWith_tileset_not_layer s :
  JS.startsWith "tileset:" s = true → JS.startsWith "layer:" s = false.
Proof.
  unfold JS.startsWith.
  destruct s as [|[[] [] [] [] [] [] [] []] r]; intros H;
    try discriminate H; reflexivity.
Qed.

Lemma layer_names_push st :
  List.map l_name (layers (push_current_layer st)) = layer_names st.
Proof.
  unfold push_current_layer, layer_names.
  destruct (name (currentLayer st)) as [n|]; [|rewrite app_nil_r; reflexivity].
  destruct (JS.truthy n); simpl; [|rewrite app_nil_r; reflexivity].
  rewrite map_app. reflexivity.
Qed.

Lemma process_line_layer_names l st st' :
  process_line l st = Ok st' →
  layer_names st'
  = layer_names st
    ++ match declared_layer l with Some n => [n] | None => [] end.
Proof.
  unfold process_line, declared_layer, skipped.
  destruct (JS.is_empty (JS.trim l) || JS.startsWith "#" (JS.trim l)).
  { intros [= <-]. rewrite app_nil_r. reflexivity. }
  destruct (JS.startsWith "[" (JS.trim l)); simpl.
  - unfold handleSectionHeader, throw.
    destruct (decide (JS.slice_1_m1 (JS.trim l) = "main")) as [->|_].
    { intros [= <-]. simpl. rewrite app_nil_r. reflexivity. }
    destruct (JS.startsWith "tileset:" (JS.slice_1_m1 (JS.trim l))) eqn:T.
    { intros [= <-]. rewrite (startsWith_tileset_not_layer _ T).
      rewrite app_nil_r. reflexivity. }
    destruct (JS.startsWith "layer:" (JS.slice_1_m1 (JS.trim l))).
    { intros [= <-]. unfold layer_names at 1. simpl.
      rewrite layer_names_push.
      destruct (JS.split ":" (JS.slice_1_m1 (JS.trim l)) !! 1%nat) as [n|];
        [|reflexivity].
      destruct (JS.truthy n); reflexivity. }
    destruct (decide (JS.slice_1_m1 (JS.trim l) = "props")); [|discriminate].
    intros [= <-]. rewrite app_nil_r. reflexivity.
  - rewrite app_nil_r. destruct (JS.split "=" (JS.trim l)) as [|k [|v rest]];
      [discriminate..|].
    intros H. unfold layer_names.
    apply ParserFacts.handleKeyValue_cases in H
      as [(_ & c & H & ->)|[(_ & H)|[(_ & H)|(_ & H)]]].
    + apply ParserFacts.handleMain_keeps in H as (Hl & _). simpl.
      rewrite Hl. reflexivity.
    + apply handleTileset_frame in H as (_ & -> & ->). reflexivity.
    + destruct (handleLayer_name _ _ _ _ H) as [-> _].
      apply ParserFacts.handleLayer_keeps in H as (_ & -> & _). reflexivity.
    + apply ParserFacts.handleProps_keeps in H as (_ & -> & _ & -> & _).
      reflexivity.
Qed.

Lemma process_lines_layer_names lines st st' :
  process_lines lines st = Ok st' →
  layer_names st' = layer_names st ++ omap declared_layer lines.
Proof.
  revert st. induction lines as [|l lines IH]; intros st; simpl.
  - intros [= <-]. rewrite app_nil_r. reflexivity.
  - intros H. apply bind_Ok in H as (st1 & H1 & H2).
    rewrite (IH _ H2), (process_line_layer_names _ _ _ H1), <- app_assoc.
    destruct (declared_layer l); reflexivity.
Qed.

(** X6. The layers of a parsed configuration are, in order, the layers the
    lines of the text declare: one for each [[layer:name]] header with a name
    that is not empty, whether or not a [tiles] line follows it. *)
Theorem parsed_layers_in_declared_order (raw : string) (cfg : PartialConfig) :
  parseConfig raw = Ok cfg →
  List.map l_name (layers cfg) = omap declared_layer (JS.split "010" raw).
Proof.
  unfold parseConfig. intros H. apply bind_Ok in H as (st & Hst & Hfin).
  unfold finish, throw in Hfin.
  destruct (main (push_current_layer st)); [|discriminate].
  injection Hfin as <-. rewrite layer_names_push.
  rewrite (process_lines_layer_names _ _ _ Hst). reflexivity.
Qed.

Lemma parsed_layers_in_declared_order_witness :
  ∃ cfg,
    parseConfig
      (lines_text ["[layer:sky]"; "[main]"; "width=1"; "[layer:]";
                   "[layer:ground]"; "tiles=G0"]) = Ok cfg
    ∧ List.map l_name (layers cfg) = ["sky"; "ground"].
Proof.
  destruct (parseConfig
              (lines_text ["[layer:sky]"; "[main]"; "width=1"; "[layer:]";
                           "[layer:ground]"; "tiles=G0"]))
    as [cfg|e] eqn:E; [|vm_compute in E; discriminate].
  exists cfg. split; [reflexivity|].
  rewrite (parsed_layers_in_declared_order _ _ E). reflexivity.
Defined.

(** ** Props *)

Lemma set_prop_lookup identifier propKey value m m' ident pk :
  set_prop identifier propKey value m = Ok m' →
  default ∅ (m' !! ident) !! pk
  = if decide (ident = identifier ∧ pk = propKey ∧ propKey ≠ "__proto__")
    then Some value
    else default ∅ (m !! ident) !! pk.
Proof.
  unfold set_prop. destruct (inherited_key identifier); [discriminate|].
  intros [= <-]. destruct (decide (ident = identifier)) as [->|Hi].
  - rewrite lookup_insert_eq. simpl.
    destruct (decide (propKey = "__proto__")) as [Hp|Hp].
    + rewrite decide_False by tauto. reflexivity.
    + destruct (decide (pk = propKey)) as [->|Hk].
      * rewrite lookup_insert_eq. rewrite decide_True by auto. reflexivity.
      * rewrite lookup_insert_ne by congruence.
        rewrite decide_False by tauto. reflexivity.
  - rewrite lookup_insert_ne by congruence.
    rewrite decide_False by tauto. reflexivity.
Qed.

Lemma set_prop_inherited identifier propKey value m :
  inherited_key identifier = true →
  set_prop identifier propKey value m = Throw BeyondModel.
Proof. unfold set_prop. intros ->. reflexivity. Qed.

Lemma set_prop_own identifier propKey value m :
  inherited_key identifier = false →
  ∃ m', set_prop identifier propKey value m = Ok m'.
Proof. unfold set_prop. intros ->. eauto. Qed.

(** X7. Take a props line whose key has at least three dot-separated parts
    [type.identifier.propKey], with a [type] among [tileset], [layer],
    [tile].  When [identifier] names no property of [Object.prototype], the
    line is accepted: afterwards that property has the value of the line,
    unless [propKey] is [__proto__], for which nothing is stored; every
    other property of every identifier under every type is as before, and
    nothing else of the parser state changes.  Parts after the third are not
    used.  When [identifier] names a property of [Object.prototype], the
    write goes to a built-in and leaves the embedding. *)
Theorem handleProps_sets_one_property
    (key value type identifier propKey : string) (rest : list string)
    (st : ParserState) :
  JS.split "." key = type :: identifier :: propKey :: rest →
  type ∈ ["tileset"; "layer"; "tile"] →
  (inherited_key identifier = true →
     handleProps key value st = Throw BeyondModel)
  ∧ (inherited_key identifier = false →
     ∃ st',
       handleProps key value st = Ok st'
       ∧ currentSection st' = currentSection st
       ∧ currentLayer st' = currentLayer st
       ∧ tempTileset st' = tempTileset st
       ∧ main (config st') = main (config st)
       ∧ layers (config st') = layers (config st)
       ∧ tilesets (config st') = tilesets (config st)
       ∧ ∀ ty ident pk, ty ∈ ["tileset"; "layer"; "tile"] →
           prop_value ty ident pk (props (config st'))
           = if decide (ty = type ∧ ident = identifier ∧ pk = propKey
                        ∧ propKey ≠ "__proto__")
             then Some value
             else prop_value ty ident pk (props (config st))).
Proof.
  intros Hsplit Hty. unfold handleProps. rewrite Hsplit.
  assert (Hcases : type = "tileset" ∨ type = "layer" ∨ type = "tile").
  { repeat (apply elem_of_cons in Hty as [->|Hty]; [auto|]). inversion Hty. }
  split.
  - intros Hi.
    destruct Hcases as [-> | [-> | ->]]; simpl;
      rewrite (set_prop_inherited _ _ _ _ Hi); reflexivity.
  - intros Hi.
    destruct Hcases as [-> | [-> | ->]]; simpl;
      match goal with
      | |- context [set_prop identifier propKey value ?m] =>
          destruct (set_prop_own identifier propKey value m Hi) as [m' Hm'];
          pose proof (λ ident pk, set_prop_lookup _ _ _ _ _ ident pk Hm') as L;
          rewrite Hm'
      end; simpl;
      (eexists; split; [reflexivity|]; simpl; repeat (split; [reflexivity|]);
       intros ty ident pk Hin;
       assert (Hc : ty = "tileset" ∨ ty = "layer" ∨ ty = "tile")
         by (repeat (apply elem_of_cons in Hin as [->|Hin]; [auto|]);
             inversion Hin);
       unfold prop_value, table_of;
       destruct Hc as [-> | [-> | ->]]; simpl; rewrite ?L;
       repeat case_decide; try reflexivity; try tauto;
       try (exfalso; intuition discriminate)).
Qed.

Lemma handleProps_sets_one_property_witness :
  (∃ st',
     handleProps "tile.G0.label.en" "grass" initial_state = Ok st'
     ∧ prop_value "tile" "G0" "label" (props (config st')) = Some "grass"
     ∧ prop_value "layer" "G0" "label" (props (config st')) = None)
  ∧ handleProps "layer.constructor.name" "foo" initial_state = Throw BeyondModel.
Proof.
  split.
  - destruct (handleProps_sets_one_property "tile.G0.label.en" "grass"
                "tile" "G0" "label" ["en"] initial_state) as [_ H].
    + reflexivity.
    + right. right. left.
    + destruct (H eq_refl) as (st' & H' & _ & _ & _ & _ & _ & _ & Hv).
      exists st'. split; [exact H'|]. split.
      * rewrite Hv by (right; right; left). reflexivity.
      * rewrite Hv by (right; left). reflexivity.
  - destruct (handleProps_sets_one_property "layer.constructor.name" "foo"
                "layer" "constructor" "name" [] initial_state) as [H _].
    + reflexivity.
    + right. left.
    + apply H. reflexivity.
Defined.

(** ** Error codes *)

Lemma parse_cells_throws row cells e :
  parse_cells row cells = Throw e →
  ∃ twe, e = TW twe ∧ code twe = INVALID_TILE_SYNTAX.
Proof.
  induction cells as [|c cells IH]; simpl; [discriminate|].
  rewrite ParserFacts.validateTileFormat_trimmed.
  destruct (is_tile_code (JS.trim c)); simpl; [|intros [= <-]; eauto].
  destruct (parse_cells row cells) as [r|e']; simpl; [discriminate|].
  intros [= <-]. apply IH. reflexivity.
Qed.

Lemma parse_rows_throws rows e :
  parse_rows rows = Throw e →
  ∃ twe, e = TW twe ∧ code twe = INVALID_TILE_SYNTAX.
Proof.
  induction rows as [|row rows IH]; simpl; [discriminate|].
  destruct (parse_cells row (JS.split "," row)) as [r|e'] eqn:E; simpl.
  - destruct (parse_rows rows) as [g|e'']; simpl; [discriminate|].
    intros [= <-]. apply IH. reflexivity.
  - intros [= <-]. eapply parse_cells_throws, E.
Qed.

Lemma handleProps_throws (key value : string) (st : ParserState) (e : Exn) :
  handleProps key value st = Throw e →
  (∃ twe, e = TW twe
     ∧ (code twe = UNKNOWN_PROP_FORMAT ∨ code twe = UNKNOWN_PROP_TYPE))
  ∨ (e = BeyondModel ∧ reaches_builtin key = true).
Proof.
  unfold handleProps, reaches_builtin, set_prop, throw.
  destruct (JS.split "." key) as [|type [|identifier [|propKey rest]]];
    try (intros [= <-]; left; eexists; split; [reflexivity|left; reflexivity]).
  destruct (decide (type = "tileset")) as [->|N1];
    [|destruct (decide (type = "layer")) as [->|N2];
      [|destruct (decide (type = "tile")) as [->|N3]]];
    try (destruct (inherited_key identifier); simpl; [|discriminate];
         intros [= <-]; right; split; reflexivity).
  intros [= <-]. left. eexists. split; [reflexivity|right; reflexivity].
Qed.

Lemma handleKeyValue_throws (key value : string) (st : ParserState) (e : Exn) :
  handleKeyValue key value st = Throw e →
  (∃ twe, e = TW twe ∧ code twe ∈ section_codes (currentSection st))
  ∨ (e = BeyondModel ∧ currentSection st = "props"
     ∧ reaches_builtin key = true).
Proof.
  unfold handleKeyValue, section_codes, throw.
  destruct (decide (currentSection st = "main")).
  { unfold handleMain, throw.
    repeat case_decide; simpl; intros [= <-].
    left. eexists. split; [reflexivity|left]. }
  destruct (decide (currentSection st = "tileset")).
  { unfold handleTileset, throw. intros H. left.
    repeat case_match; simplify_eq; eexists; (split; [reflexivity|left]). }
  destruct (decide (currentSection st = "layer")).
  { unfold handleLayer, throw.
    destruct (decide (key = "tiles")); [|discriminate].
    destruct (List.find _ (layers (config st))).
    - intros [= <-]. left. eexists. split; [reflexivity|left].
    - destruct (parse_rows (tile_rows value)) as [g|e'] eqn:E; simpl; [discriminate|].
      intros [= <-]. destruct (parse_rows_throws _ _ E) as (twe & -> & Hc).
      left. exists twe. split; [reflexivity|]. rewrite Hc. right. left. }
  destruct (decide (currentSection st = "props")) as [Hp|].
  { intros H. apply handleProps_throws in H as [(twe & -> & Hc)|[-> Hb]].
    - left. exists twe. split; [reflexivity|].
      destruct Hc as [-> | ->]; [left|right; left].
    - right. auto. }
  intros [= <-]. left. eexists. split; [reflexivity|left].
Qed.

(** X8. A [key=value] line fails only with the codes of its section:
    [MISSING_KEY_VALUE] in [main], [DUPLICATE_TILESET] in a tileset section,
    [DUPLICATE_LAYER] or [INVALID_TILE_SYNTAX] in a layer section,
    [UNKNOWN_PROP_FORMAT] or [UNKNOWN_PROP_TYPE] in [props], and
    [UNKNOWN_SECTION] when no section header came before.  The one line
    that ends otherwise is a props line whose identifier names a property of
    [Object.prototype]: its write goes to a built-in and leaves the
    embedding. *)
Theorem handleKeyValue_codes (key value : string) (st : ParserState) (e : Exn) :
  handleKeyValue key value st = Throw e →
  (∃ twe, e = TW twe ∧ code twe ∈ section_codes (currentSection st))
  ∨ (e = BeyondModel ∧ currentSection st = "props"
     ∧ reaches_builtin key = true).
Proof. apply handleKeyValue_throws. Qed.

Lemma handleKeyValue_codes_witness :
  ∃ twe,
    handleKeyValue "width" "2" initial_state = Throw (TW twe)
    ∧ code twe = UNKNOWN_SECTION.
Proof.
  destruct (handleKeyValue "width" "2" initial_state) as [st|e] eqn:E;
    [vm_compute in E; discriminate|].
  destruct (handleKeyValue_codes "width" "2" initial_state e E)
    as [(twe & -> & Hc)|(_ & [=] & _)].
  exists twe. split; [reflexivity|].
  apply list_elem_of_singleton in Hc. exact Hc.
Defined.

Lemma section_codes_parser section c :
  c ∈ section_codes section → c ∈ parser_codes.
Proof.
  unfold section_codes, parser_codes.
  intros Hin. repeat case_decide;
    repeat (apply elem_of_cons in Hin as [->|Hin]; [set_solver|]); inversion Hin.
Qed.

Lemma process_line_throws l st e :
  process_line l st = Throw e →
  (∃ twe, e = TW twe ∧ code twe ∈ parser_codes)
  ∨ (e = BeyondModel
     ∧ ∃ k v, key_value_of l = Some (k, v) ∧ reaches_builtin k = true).
Proof.
  unfold process_line, throw.
  destruct (JS.is_empty (JS.trim l) || JS.startsWith "#" (JS.trim l)); [discriminate|].
  destruct (JS.startsWith "[" (JS.trim l)).
  - unfold handleSectionHeader, throw. intros H. left.
    repeat case_match; try discriminate. injection H as <-.
    eexists. split; [reflexivity|]. simpl. unfold parser_codes. set_solver.
  - destruct (JS.split "=" (JS.trim l)) as [|k [|v rest]] eqn:S.
    + intros [= <-]. left.
      eexists. split; [reflexivity|]. unfold parser_codes. set_solver.
    + intros [= <-]. left.
      eexists. split; [reflexivity|]. unfold parser_codes. set_solver.
    + intros H. destruct (handleKeyValue_throws _ _ _ _ H)
        as [(twe & -> & Hc)|(-> & _ & Hb)].
      * left. exists twe. split; [reflexivity|]. eapply section_codes_parser, Hc.
      * right. split; [reflexivity|]. unfold key_value_of. rewrite S. eauto.
Qed.

(** X9. A parse that fails throws a [TWError] whose code is one of the eight
    parser codes, never a code of the scene.  The one other way a parse ends
    without a configuration is a props line of the text whose identifier
    names a property of [Object.prototype]: there the write goes to a
    built-in and the parse leaves the embedding. *)
Theorem parseConfig_throws_parser_codes (raw : string) (e : Exn) :
  parseConfig raw = Throw e →
  (∃ twe, e = TW twe ∧ code twe ∈ parser_codes)
  ∨ (e = BeyondModel
     ∧ ∃ l k v, l ∈ JS.split "010" raw ∧ key_value_of l = Some (k, v)
         ∧ reaches_builtin k = true).
Proof.
  unfold parseConfig.
  assert (L : ∀ lines st, process_lines lines st = Throw e →
                (∃ twe, e = TW twe ∧ code twe ∈ parser_codes)
                ∨ (e = BeyondModel
                   ∧ ∃ l k v, l ∈ lines ∧ key_value_of l = Some (k, v)
                       ∧ reaches_builtin k = true)).
  { induction lines as [|l lines IH]; intros st; simpl; [discriminate|].
    destruct (process_line l st) as [st1|e1] eqn:E1; simpl.
    - intros H. destruct (IH _ H) as [H'|(-> & l' & k & v & Hin & Hkv)];
        [left; exact H'|].
      right. split; [reflexivity|]. exists l', k, v.
      split; [right; exact Hin|exact Hkv].
    - intros [= <-].
      destruct (process_line_throws _ _ _ E1) as [H'|(-> & k & v & Hkv)];
        [left; exact H'|].
      right. split; [reflexivity|]. exists l, k, v. split; [left|exact Hkv]. }
  destruct (process_lines (JS.split "010" raw) initial_state) as [st|e1] eqn:E1;
    simpl.
  - unfold finish, throw. destruct (main (push_current_layer st)); [discriminate|].
    intros [= <-]. left.
    eexists. split; [reflexivity|]. unfold parser_codes. set_solver.
  - intros [= <-]. eapply L, E1.
Qed.

Lemma parseConfig_throws_parser_codes_witness :
  (∃ twe,
     parseConfig (lines_text ["[main]"; "width=2"; "[world]"]) = Throw (TW twe)
     ∧ code twe ∈ parser_codes)
  ∧ parseConfig (lines_text ["[props]"; "layer.constructor.name=foo"])
    = Throw BeyondModel.
Proof.
  split.
  - destruct (parseConfig (lines_text ["[main]"; "width=2"; "[world]"]))
      as [cfg|e] eqn:E; [vm_compute in E; discriminate|].
    destruct (parseConfig_throws_parser_codes _ e E)
      as [(twe & -> & Hc)|(-> & _)]; [|vm_compute in E; discriminate].
    exists twe. split; [reflexivity|exact Hc].
  - destruct (parseConfig (lines_text ["[props]"; "layer.constructor.name=foo"]))
      as [cfg|e] eqn:E; [vm_compute in E; discriminate|].
    destruct (parseConfig_throws_parser_codes _ e E)
      as [(twe & -> & Hc)|(-> & _)]; [vm_compute in E; discriminate|].
    reflexivity.
Defined.

End ParserMore.

(* ===================================================================== *)
(** * Further properties of the scene                                     *)
(* ===================================================================== *)

(** ** Drawing a tile *)

Lemma trimEnd_no_ws (s : string) :
  JS.all_chars (λ c, negb (JS.is_ws c)) s = true → JS.trimEnd s = s.
Proof.
  induction s as [|c s IH]; simpl; [reflexivity|].
  intros H. apply andb_true_iff in H as [Hc Hs].
  apply negb_true_iff in Hc. rewrite Hc, andb_false_r, (IH Hs). reflexivity.
Qed.

Lemma trim_no_ws (s : string) :
  JS.all_chars (λ c, negb (JS.is_ws c)) s = true → JS.trim s = s.
Proof.
  intros H. unfold JS.trim.
  assert (E : JS.trimStart s = s).
  { destruct s as [|c s]; [reflexivity|]. simpl in *.
    apply andb_true_iff in H as [Hc _]. apply negb_true_iff in Hc.
    rewrite Hc. reflexivity. }
  rewrite E. apply trimEnd_no_ws, H.
Qed.

Lemma alpha_not_ws (c : ascii) : JS.is_alpha c = true → JS.is_ws c = false.
Proof.
  destruct c as [[] [] [] [] [] [] [] []]; intros H;
    try discriminate H; reflexivity.
Qed.

Lemma digit_not_ws (c : ascii) : JS.is_digit c = true → JS.is_ws c = false.
Proof.
  destruct c as [[] [] [] [] [] [] [] []]; intros H;
    try discriminate H; reflexivity.
Qed.

Lemma all_chars_impl (p q : ascii → bool) (s : string) :
  (∀ c, p c = true → q c = true) →
  JS.all_chars p s = true → JS.all_chars q s = true.
Proof.
  intros Hpq. induction s as [|c s IH]; simpl; [reflexivity|].
  intros H. apply andb_true_iff in H as [Hc Hs].
  rewrite (Hpq c Hc), (IH Hs). reflexivity.
Qed.

Lemma all_chars_app (p : ascii → bool) (a b : string) :
  JS.all_chars p a = true → JS.all_chars p b = true →
  JS.all_chars p (a +:+ b) = true.
Proof.
  intros Ha Hb. induction a as [|c a IH]; [exact Hb|].
  rewrite append_cons. simpl in *. apply andb_true_iff in Ha as [Hc Ha].
  rewrite Hc, (IH Ha). reflexivity.
Qed.

Lemma letters_digits_trim (s : string) : letters_digits s → JS.trim s = s.
Proof.
  intros (a & d & -> & _ & _ & Ha & Hd). apply trim_no_ws, all_chars_app.
  - apply (all_chars_impl JS.is_alpha); [|exact Ha].
    intros c Hc. rewrite (alpha_not_ws c Hc). reflexivity.
  - apply (all_chars_impl JS.is_digit); [|exact Hd].
    intros c Hc. rewrite (digit_not_ws c Hc). reflexivity.
Qed.

Lemma match_tile_alpha_prefix s a d :
  JS.match_tile s = Some (a, d) → alpha_prefix s = a.
Proof.
  unfold JS.match_tile, alpha_prefix.
  destruct (JS.span JS.is_alpha s) as [a' d'].
  destruct (JS.truthy a' && JS.truthy d' && JS.all_chars JS.is_digit d');
    [|discriminate].
  intros [= <- _]. reflexivity.
Qed.

Lemma find_short_Some (a : string) (l : list TWMTileset) :
  is_Some (List.find (λ ts, bool_decide (ts_short ts = a)) l)
  ↔ ∃ ts, ts ∈ l ∧ ts_short ts = a.
Proof.
  split.
  - intros [ts H]. apply find_some in H as [Hin Hs].
    exists ts. split; [apply list_elem_of_In, Hin|].
    apply bool_decide_eq_true in Hs. exact Hs.
  - intros (ts & Hin & Hs). destruct (List.find _ l) eqn:E; [eauto|].
    apply list_elem_of_In in Hin. pose proof (find_none _ _ E ts Hin) as F.
    simpl in F. rewrite bool_decide_eq_true_2 in F by exact Hs. discriminate.
Qed.

(** [createTileElement] in the order of its tests. *)
Lemma createTileElement_cases tileCode x y cfg :
  createTileElement tileCode x y cfg =
    if decide (tileCode = "0") then Ok tileCode
    else if negb (is_tile_code (JS.trim tileCode)) then
      Throw (TW (mkTWError INVALID_TILE_SYNTAX
                   (invalid_tile_message (JS.trim tileCode))
                   (Some ("Tile: " +:+ tileCode +:+ ", Pos: " +:+ pos_text x y))
                   (Some "TileValidator")))
    else match JS.match_tile tileCode with
         | None =>
             Throw (TW (mkTWError INVALID_TILE_CODE
                          ("Invalid tile code: " +:+ JS.quoted tileCode)
                          (Some ("Tile: " +:+ tileCode +:+ ", Pos: " +:+ pos_text x y))
                          (Some "SceneBuilderUtils")))
         | Some (a, d) =>
             match List.find (λ ts, bool_decide (ts_short ts = a)) (c_tilesets cfg) with
             | None =>
                 Throw (TW (mkTWError TILESET_NOT_FOUND
                              ("Tileset short " +:+ JS.quoted a +:+ " not found.")
                              (Some ("TileCode: " +:+ tileCode +:+ ", Short: " +:+ a))
                              (Some "SceneBuilderUtils")))
             | Some _ => Ok tileCode
             end
         end.
Proof.
  unfold createTileElement. case_decide; [reflexivity|].
  rewrite validateTileFormat_cases. unfold is_tile_code.
  destruct (bool_decide (JS.trim tileCode = "0") || JS.test_tile (JS.trim tileCode));
    simpl; [|reflexivity].
  destruct (JS.match_tile tileCode) as [[a d]|]; reflexivity.
Qed.

Lemma letters_digits_not_marker s : letters_digits s → s ≠ "0".
Proof.
  intros (a & d & -> & Ha & Hd & Aa & Ad) E.
  destruct a as [|c a]; [congruence|]. rewrite append_cons in E.
  injection E as -> E. simpl in Aa. discriminate.
Qed.

Lemma createTileElement_Ok tileCode x y cfg :
  createTileElement tileCode x y cfg = Ok tileCode ↔ drawable cfg tileCode.
Proof.
  rewrite createTileElement_cases. unfold drawable. split.
  - case_decide; [auto|].
    destruct (negb (is_tile_code (JS.trim tileCode))); [discriminate|].
    destruct (JS.match_tile tileCode) as [[a d]|] eqn:M; [|discriminate].
    destruct (List.find _ (c_tilesets cfg)) eqn:F; [|discriminate].
    intros _. right. split.
    + apply test_tile_letters_digits. unfold JS.test_tile. rewrite M. reflexivity.
    + rewrite (match_tile_alpha_prefix _ _ _ M). apply find_short_Some. eauto.
  - intros [->|[Hld (ts & Hin & Hs)]]; [reflexivity|].
    rewrite decide_False by (apply letters_digits_not_marker, Hld).
    assert (V : is_tile_code (JS.trim tileCode) = true).
    { rewrite (letters_digits_trim _ Hld). apply is_tile_code_spec. right. exact Hld. }
    rewrite V. simpl.
    pose proof Hld as T. apply test_tile_letters_digits in T. unfold JS.test_tile in T.
    destruct (JS.match_tile tileCode) as [[a d]|] eqn:M; [|discriminate].
    rewrite (match_tile_alpha_prefix _ _ _ M) in Hs.
    destruct (proj2 (find_short_Some a (c_tilesets cfg))) as [ts' ->]; eauto.
Qed.

Lemma createTileElement_result tileCode x y cfg el :
  createTileElement tileCode x y cfg = Ok el → el = tileCode.
Proof.
  rewrite createTileElement_cases. repeat case_match; congruence.
Qed.

(** X10. [createTileElement], and with it [getTileAsElement], returns an
    element exactly for the codes that can be drawn: the empty marker, or
    letters followed by digits with a tileset whose short is the letters.
    Otherwise it throws: [INVALID_TILE_SYNTAX] when the trimmed code is not a
    tile code, [INVALID_TILE_CODE] when the code is a tile code only after
    trimming, and [TILESET_NOT_FOUND] when the code is letters and digits and
    no tileset has the letters as its short. *)
Theorem createTileElement_drawable (tileCode : string) (x y : Z) (cfg : TWMConfig) :
  (createTileElement tileCode x y cfg = Ok tileCode ↔ drawable cfg tileCode)
  ∧ (thrown_code (createTileElement tileCode x y cfg) = Some INVALID_TILE_SYNTAX
     ↔ tileCode ≠ "0" ∧ ¬ tile_code (JS.trim tileCode))
  ∧ (thrown_code (createTileElement tileCode x y cfg) = Some INVALID_TILE_CODE
     ↔ tileCode ≠ "0" ∧ tile_code (JS.trim tileCode) ∧ ¬ letters_digits tileCode)
  ∧ (thrown_code (createTileElement tileCode x y cfg) = Some TILESET_NOT_FOUND
     ↔ letters_digits tileCode
       ∧ ∀ ts, ts ∈ c_tilesets cfg → ts_short ts ≠ alpha_prefix tileCode)
  ∧ getTileAsElement tileCode (mkScene cfg [] [])
    = createTileElement tileCode 0 0 cfg.
Proof.
  split; [apply createTileElement_Ok|].
  rewrite createTileElement_cases.
  destruct (decide (tileCode = "0")) as [E|E].
  { split; [|split; [|split]]; try reflexivity.
    - split; [discriminate|intros [? _]; contradiction].
    - split; [discriminate|intros [? _]; contradiction].
    - split; [discriminate|]. intros [H _].
      apply letters_digits_not_marker in H. contradiction. }
  destruct (is_tile_code (JS.trim tileCode)) eqn:V; simpl.
  - apply is_tile_code_spec in V.
    destruct (JS.match_tile tileCode) as [[a d]|] eqn:M.
    + assert (Hld : letters_digits tileCode).
      { apply test_tile_letters_digits. unfold JS.test_tile. rewrite M. reflexivity. }
      pose proof (match_tile_alpha_prefix _ _ _ M) as Hp.
      pose proof (find_short_Some a (c_tilesets cfg)) as Hf.
      destruct (List.find _ (c_tilesets cfg)) eqn:F; simpl.
      * destruct (proj1 Hf (ltac:(eauto))) as (ts & Hin & Hs).
        split; [|split; [|split]]; try reflexivity.
        -- split; [discriminate|intros [_ N]; contradiction].
        -- split; [discriminate|intros (_ & _ & N); contradiction].
        -- split; [discriminate|]. intros [_ N]. destruct (N ts Hin). congruence.
      * split; [|split; [|split]]; try reflexivity.
        -- split; [discriminate|intros [_ N]; contradiction].
        -- split; [discriminate|intros (_ & _ & N); contradiction].
        -- split; [|reflexivity]. intros _. split; [exact Hld|].
           intros ts Hin Hs. rewrite Hp in Hs.
           destruct (proj2 Hf (ex_intro _ ts (conj Hin Hs))) as [? [=]].
    + assert (Hld : ¬ letters_digits tileCode).
      { intros H. apply test_tile_letters_digits in H. unfold JS.test_tile in H.
        rewrite M in H. discriminate. }
      split; [|split; [|split]]; try reflexivity.
      * split; [discriminate|intros [_ N]; contradiction].
      * split; [auto|reflexivity].
      * split; [discriminate|intros [N _]; contradiction].
  - assert (N : ¬ tile_code (JS.trim tileCode)).
    { intros H. apply is_tile_code_spec in H. congruence. }
    split; [|split; [|split]]; try reflexivity.
    + split; [auto|reflexivity].
    + split; [discriminate|intros (_ & H & _); contradiction].
    + split; [discriminate|]. intros [H _]. destruct N. right.
      rewrite (letters_digits_trim _ H). exact H.
Qed.

(** ** Drawing a layer and building the scene *)

Lemma create_row_Ok cells x y cfg els :
  create_row cells x y cfg = Ok els ↔ els = cells ∧ Forall (drawable cfg) cells.
Proof.
  revert x els. induction cells as [|c cells IH]; intros x els; simpl.
  - split; [intros [= <-]; auto|intros [-> _]; reflexivity].
  - split.
    + intros H. apply bind_Ok in H as (el & Hel & H).
      apply bind_Ok in H as (els' & Hels & [= <-]).
      pose proof (createTileElement_result _ _ _ _ _ Hel) as ->.
      apply IH in Hels as [-> F]. split; [reflexivity|].
      constructor; [eapply createTileElement_Ok, Hel|exact F].
    + intros [-> F]. apply Forall_cons in F as [Hc F].
      rewrite (proj2 (createTileElement_Ok c x y cfg) Hc). simpl.
      rewrite (proj2 (IH (x + 1) cells) (conj eq_refl F)). reflexivity.
Qed.

Lemma create_rows_Ok rows y cfg els :
  create_rows rows y cfg = Ok els
  ↔ els = concat rows ∧ Forall (Forall (drawable cfg)) rows.
Proof.
  revert y els. induction rows as [|r rows IH]; intros y els; simpl.
  - split; [intros [= <-]; auto|intros [-> _]; reflexivity].
  - split.
    + intros H. apply bind_Ok in H as (e1 & H1 & H).
      apply bind_Ok in H as (e2 & H2 & [= <-]).
      apply create_row_Ok in H1 as [-> F1]. apply IH in H2 as [-> F2]. auto.
    + intros [-> F]. apply Forall_cons in F as [F1 F2].
      rewrite (proj2 (create_row_Ok r 0 y cfg r) (conj eq_refl F1)). simpl.
      rewrite (proj2 (IH (y + 1) (concat rows)) (conj eq_refl F2)). reflexivity.
Qed.

Lemma concat_rectangular (w : nat) (g : list (list string)) (x y : nat) c :
  rectangular w g → grid_cell g x y = Some c →
  concat g !! (y * w + x)%nat = Some c.
Proof.
  unfold rectangular, grid_cell. revert y.
  induction g as [|row g IH]; intros y F; [destruct y; discriminate|].
  apply Forall_cons in F as [Hrow F]. destruct y as [|y]; simpl.
  - intros H. apply lookup_app_l_Some, H.
  - intros H. rewrite lookup_app_r by lia.
    replace (w + y * w + x - length row)%nat with (y * w + x)%nat by lia.
    apply IH; assumption.
Qed.

(** X11. [createGridElement] makes the element of a layer exactly when every
    cell of the layer can be drawn.  The element then has one child per cell,
    row after row; when all rows have [w] cells, the child at index
    [y * w + x] is the one of cell [(x, y)]. *)
Theorem createGridElement_children (layer : TWMLayer) (cfg : TWMConfig) :
  (Forall (Forall (drawable cfg)) (l_tiles layer)
   ↔ createGridElement layer cfg
     = Ok (mkGrid (l_name layer) (concat (l_tiles layer))))
  ∧ (∀ g, createGridElement layer cfg = Ok g →
       g = mkGrid (l_name layer) (concat (l_tiles layer))
       ∧ ∀ w x y c, rectangular w (l_tiles layer) →
           grid_cell (l_tiles layer) x y = Some c →
           g_children g !! (y * w + x)%nat = Some c).
Proof.
  unfold createGridElement. split.
  - split.
    + intros F.
      rewrite (proj2 (create_rows_Ok _ 0 cfg _) (conj eq_refl F)). reflexivity.
    + intros H. apply bind_Ok in H as (els & H & _).
      apply create_rows_Ok in H as [_ F]. exact F.
  - intros g H. apply bind_Ok in H as (els & H & [= <-]).
    apply create_rows_Ok in H as [-> F]. split; [reflexivity|].
    intros w x y c R Hc. simpl. eapply concat_rectangular; eauto.
Qed.

Lemma createGridElement_children_witness :
  createGridElement (mkLayer "bg" [["G0"; "0"]; ["0"; "G1"]])
    (mkConfig (mkMain 16 2 2) [] [mkTileset "ground" "g.png" "G"] (mkProps ∅ ∅ ∅))
  = Ok (mkGrid "bg" ["G0"; "0"; "0"; "G1"]).
Proof.
  apply (proj1 (createGridElement_children
                  (mkLayer "bg" [["G0"; "0"]; ["0"; "G1"]])
                  (mkConfig (mkMain 16 2 2) [] [mkTileset "ground" "g.png" "G"]
                     (mkProps ∅ ∅ ∅)))).
  assert (D : ∀ c, c = "G0" ∨ c = "G1" →
            drawable (mkConfig (mkMain 16 2 2) [] [mkTileset "ground" "g.png" "G"]
                        (mkProps ∅ ∅ ∅)) c).
  { intros c Hc. right. split.
    - apply test_tile_letters_digits. destruct Hc as [-> | ->]; reflexivity.
    - eexists. split; [left|]. destruct Hc as [-> | ->]; reflexivity. }
  constructor; [|constructor; [|constructor]].
  - constructor; [apply D; auto|]. constructor; [left; reflexivity|constructor].
  - constructor; [left; reflexivity|]. constructor; [apply D; auto|constructor].
Defined.

Lemma create_grids_Ok ls cfg gs :
  create_grids ls cfg = Ok gs
  ↔ gs = List.map (λ l, mkGrid (l_name l) (concat (l_tiles l))) ls
    ∧ Forall (λ l, Forall (Forall (drawable cfg)) (l_tiles l)) ls.
Proof.
  revert gs. induction ls as [|l ls IH]; intros gs; simpl.
  - split; [intros [= <-]; auto|intros [-> _]; reflexivity].
  - split.
    + intros H. apply bind_Ok in H as (g & Hg & H).
      apply bind_Ok in H as (gs' & Hgs & [= <-]).
      unfold createGridElement in Hg. apply bind_Ok in Hg as (els & He & [= <-]).
      apply create_rows_Ok in He as [-> F]. apply IH in Hgs as [-> F']. auto.
    + intros [-> F]. apply Forall_cons in F as [F1 F2].
      unfold createGridElement.
      rewrite (proj2 (create_rows_Ok _ 0 cfg _) (conj eq_refl F1)). simpl.
      rewrite (proj2 (IH _) (conj eq_refl F2)). reflexivity.
Qed.

Lemma create_row_throws cells x y cfg e :
  create_row cells x y cfg = Throw e →
  ∃ c twe, c ∈ cells ∧ e = TW twe
    ∧ thrown_code (createTileElement c 0 0 cfg) = Some (code twe).
Proof.
  revert x. induction cells as [|c cells IH]; intros x; simpl; [discriminate|].
  destruct (createTileElement c x y cfg) as [el|e1] eqn:E1; simpl.
  - destruct (create_row cells (x + 1) y cfg) as [els|e2] eqn:E2; simpl;
      [discriminate|].
    intros [= <-]. destruct (IH _ E2) as (c' & twe & Hin & -> & Hc).
    exists c', twe. split; [right; exact Hin|auto].
  - intros [= <-].
    destruct (createTileElement_throws_TW _ _ _ _ _ E1) as (twe & -> & _).
    exists c, twe. split; [left|]. split; [reflexivity|].
    rewrite createTileElement_cases in E1 |- *.
    repeat case_match; simplify_eq; reflexivity.
Qed.

Lemma create_rows_throws rows y cfg e :
  create_rows rows y cfg = Throw e →
  ∃ row c twe, row ∈ rows ∧ c ∈ row ∧ e = TW twe
    ∧ thrown_code (createTileElement c 0 0 cfg) = Some (code twe).
Proof.
  revert y. induction rows as [|r rows IH]; intros y; simpl; [discriminate|].
  destruct (create_row r 0 y cfg) as [els|e1] eqn:E1; simpl.
  - destruct (create_rows rows (y + 1) cfg) as [more|e2] eqn:E2; simpl;
      [discriminate|].
    intros [= <-]. destruct (IH _ E2) as (row & c & twe & Hr & Hc & -> & H).
    exists row, c, twe. split; [right; exact Hr|auto].
  - intros [= <-]. destruct (create_row_throws _ _ _ _ _ E1) as (c & twe & Hc & -> & H).
    exists r, c, twe. split; [left|auto].
Qed.

Lemma create_grids_throws ls cfg e :
  create_grids ls cfg = Throw e →
  ∃ l row c twe, l ∈ ls ∧ row ∈ l_tiles l ∧ c ∈ row ∧ e = TW twe
    ∧ thrown_code (createTileElement c 0 0 cfg) = Some (code twe).
Proof.
  induction ls as [|l ls IH]; simpl; [discriminate|].
  unfold createGridElement at 1.
  destruct (create_rows (l_tiles l) 0 cfg) as [els|e1] eqn:E1; simpl.
  - destruct (create_grids ls cfg) as [gs|e2] eqn:E2; simpl; [discriminate|].
    intros [= <-]. destruct (IH eq_refl) as (l' & row & c & twe & Hl & H).
    exists l', row, c, twe. split; [right; exact Hl|exact H].
  - intros [= <-].
    destruct (create_rows_throws _ _ _ _ E1) as (row & c & twe & Hr & H).
    exists l, row, c, twe. split; [left|auto].
Qed.

(** X12. The constructor returns a scene exactly when the selector finds the
    container and every cell of every static layer can be drawn.  The scene
    then holds the configuration, has no runtime layer, and the wrapper has
    one layer element per static layer, in the declared order, with one
    child per cell.  Without a container it throws [INVALID_QUERY]. *)
Theorem new_SceneBuilder_returns (found : bool) (selector : string)
    (cfg : TWMConfig) :
  (found = true
   ∧ Forall (λ l, Forall (Forall (drawable cfg)) (l_tiles l)) (c_layers cfg)
   ↔ new_SceneBuilder found selector cfg
     = Ok (mkScene cfg []
             (List.map (λ l, mkGrid (l_name l) (concat (l_tiles l))) (c_layers cfg))))
  ∧ (∀ s, new_SceneBuilder found selector cfg = Ok s →
       s = mkScene cfg []
             (List.map (λ l, mkGrid (l_name l) (concat (l_tiles l))) (c_layers cfg)))
  ∧ (found = false →
     thrown_code (new_SceneBuilder found selector cfg) = Some INVALID_QUERY).
Proof.
  unfold new_SceneBuilder, buildScene, throw. simpl. rewrite app_nil_r.
  destruct found; simpl.
  - pose proof (create_grids_Ok (c_layers cfg) cfg) as G.
    destruct (create_grids (c_layers cfg) cfg) as [gs|e]; simpl.
    + destruct (proj1 (G gs) eq_refl) as [-> F].
      split; [split; [reflexivity|auto]|]. split; [|discriminate].
      intros s [= <-]. reflexivity.
    + split; [|split; [discriminate|discriminate]].
      split; [|discriminate]. intros [_ F].
      pose proof (proj2 (G _) (conj eq_refl F)) as [=].
  - split; [|split; [discriminate|reflexivity]].
    split; [intros [[=] _]|discriminate].
Qed.

Lemma new_SceneBuilder_returns_witness :
  thrown_code (new_SceneBuilder false "#scene"
                 (mkConfig (mkMain 16 1 1) [] [] (mkProps ∅ ∅ ∅)))
  = Some INVALID_QUERY.
Proof.
  apply new_SceneBuilder_returns. reflexivity.
Defined.





(** ** Runtime layers and their cells *)

Lemma find_has_name (n : string) (ls : list TWMLayer) :
  List.find (has_name n) ls = snd <$> list_find (λ l, l_name l = n) ls.
Proof.
  induction ls as [|l ls IH]; simpl; [reflexivity|].
  unfold has_name at 1. destruct (decide (l_name l = n)) as [E|E].
  - rewrite bool_decide_eq_true_2 by exact E. reflexivity.
  - rewrite bool_decide_eq_false_2 by exact E. rewrite IH.
    destruct (list_find _ ls) as [[j a]|]; reflexivity.
Qed.

Lemma list_find_insert_same {A} (P : A → Prop) `{∀ x, Decision (P x)}
    (l : list A) (i : nat) (a b : A) :
  list_find P l = Some (i, a) → P b → list_find P (<[i := b]> l) = Some (i, b).
Proof.
  revert i. induction l as [|x l IH]; intros i; simpl; [discriminate|].
  destruct (decide (P x)) as [Hx|Hx].
  - intros [= <- <-] Hb. simpl. rewrite decide_True by exact Hb. reflexivity.
  - destruct (list_find P l) as [[j a']|] eqn:E; simpl; [|discriminate].
    intros [= <- <-] Hb. simpl. rewrite decide_False by exact Hx.
    rewrite (IH j eq_refl Hb). reflexivity.
Qed.

Lemma list_find_insert_other {A} (Q : A → Prop) `{∀ x, Decision (Q x)}
    (l : list A) (i : nat) (a b : A) :
  l !! i = Some a → ¬ Q a → ¬ Q b → list_find Q (<[i := b]> l) = list_find Q l.
Proof.
  revert i. induction l as [|x l IH]; intros i; [discriminate|].
  destruct i as [|i]; simpl.
  - intros [= ->] Ha Hb. rewrite !decide_False by assumption. reflexivity.
  - intros Hi Ha Hb. destruct (decide (Q x)); [reflexivity|].
    rewrite (IH i Hi Ha Hb). reflexivity.
Qed.

Lemma cell_at_insert (g : list (list string)) (row : list string) (x y : Z)
    (v : string) (x' y' : Z) :
  0 <= x → 0 <= y →
  g !! Z.to_nat y = Some row → (Z.to_nat x < length row)%nat →
  cell_at (<[Z.to_nat y := <[Z.to_nat x := v]> row]> g) x' y'
  = if decide (x' = x ∧ y' = y) then v else cell_at g x' y'.
Proof.
  intros Hx Hy Hrow Hlen. unfold cell_at.
  pose proof (lookup_lt_Some _ _ _ Hrow) as Hylen.
  destruct (decide (x' = x ∧ y' = y)) as [[-> ->]|Hne].
  - replace ((x <? 0) || (y <? 0)) with false
      by (symmetry; apply orb_false_iff; split; apply Z.ltb_ge; lia).
    rewrite list_lookup_insert_eq by exact Hylen. simpl.
    rewrite list_lookup_insert_eq by exact Hlen. reflexivity.
  - destruct ((x' <? 0) || (y' <? 0)) eqn:Neg; [reflexivity|].
    apply orb_false_iff in Neg as [Nx Ny]. apply Z.ltb_ge in Nx, Ny.
    destruct (decide (y' = y)) as [->|Hy'].
    + rewrite list_lookup_insert_eq by exact Hylen. rewrite Hrow. simpl.
      rewrite list_lookup_insert_ne; [reflexivity|].
      intros E. apply Hne. split; [lia|reflexivity].
    + rewrite list_lookup_insert_ne; [reflexivity|]. lia.
Qed.

(** What [getTileCodeFromLayer] reads after one cell of the first runtime
    layer called [n] was assigned. *)
Lemma getTileCodeFromLayer_assigned n x y v s s' i layer row n' x' y' :
  config s' = config s →
  list_find (λ l, l_name l = n) (runtimeLayers s) = Some (i, layer) →
  0 <= x → 0 <= y →
  l_tiles layer !! Z.to_nat y = Some row → (Z.to_nat x < length row)%nat →
  runtimeLayers s'
  = <[i := mkLayer (l_name layer)
             (<[Z.to_nat y := <[Z.to_nat x := v]> row]> (l_tiles layer))]>
      (runtimeLayers s) →
  getTileCodeFromLayer n' x' y' s'
  = if decide (n' = n ∧ x' = x ∧ y' = y) then v
    else getTileCodeFromLayer n' x' y' s.
Proof.
  intros Hc Hf Hx Hy Hrow Hlen Hr. unfold getTileCodeFromLayer.
  rewrite !find_has_name, Hr, Hc.
  pose proof Hf as Hf0. apply list_find_Some in Hf0 as (Hi & Hname & _).
  destruct (decide (n' = n)) as [->|Hn].
  - rewrite (list_find_insert_same _ _ _ _ _ Hf) by exact Hname.
    rewrite Hf. simpl. rewrite (cell_at_insert _ _ _ _ _ _ _ Hx Hy Hrow Hlen).
    destruct (decide (x' = x ∧ y' = y)) as [[-> ->]|Hne].
    + rewrite decide_True by auto. reflexivity.
    + rewrite decide_False by (intros (_ & ? & ?); auto). reflexivity.
  - rewrite decide_False by (intros (? & _); auto).
    rewrite (list_find_insert_other (λ l, l_name l = n') _ i layer);
      [reflexivity|exact Hi|simpl; congruence|simpl; congruence].
Qed.

(** *** Class tokens and the layer selector *)

Lemma class_pieces_no_separator (s : string) :
  no_separator s = true → class_pieces s = [s].
Proof.
  unfold no_separator. induction s as [|c s IH]; simpl; [reflexivity|].
  intros H. apply andb_true_iff in H as [Hc Hs].
  apply negb_true_iff in Hc. rewrite Hc, (IH Hs). reflexivity.
Qed.

Lemma class_pieces_space (a b : string) :
  no_separator a = true →
  class_pieces (a +:+ String " " b) = a :: class_pieces b.
Proof.
  unfold no_separator. induction a as [|c a IH]; simpl; [reflexivity|].
  intros H. apply andb_true_iff in H as [Hc Ha].
  apply negb_true_iff in Hc. rewrite Hc, (IH Ha). reflexivity.
Qed.

(** The grid of a layer whose name has no white space has two classes. *)
Lemma class_tokens_grid (m : string) :
  no_separator m = true →
  class_tokens (grid_className m) = ["tw-layer"; layer_class m].
Proof.
  intros H. unfold class_tokens.
  change (grid_className m) with ("tw-layer" +:+ String " " (layer_class m)).
  rewrite class_pieces_space by reflexivity.
  rewrite class_pieces_no_separator.
  - reflexivity.
  - unfold layer_class, no_separator. apply all_chars_app; [reflexivity|exact H].
Qed.

Lemma has_class_layer (n m : string) :
  no_separator m = true → has_class (layer_class n) m ↔ m = n.
Proof.
  intros H. unfold has_class. rewrite (class_tokens_grid m H).
  rewrite elem_of_cons, list_elem_of_singleton. unfold layer_class. split.
  - intros [E|E]; [discriminate E|]. apply (inj _) in E. congruence.
  - intros ->. right. reflexivity.
Qed.

(** When no layer name in the wrapper has white space in it, the selector
    finds the first grid of the layer with that very name. *)
Lemma query_layer_by_name (n : string) (d : list GridElement) :
  Forall (λ g, no_separator (g_layer g) = true) d →
  query_layer n d = list_find (λ g, g_layer g = n) d.
Proof.
  unfold query_layer. induction d as [|g d IH]; intros H; [reflexivity|].
  apply Forall_cons in H as [Hg Hd]. cbn [list_find].
  rewrite (decide_ext _ _ _ _ (has_class_layer n (g_layer g) Hg)), (IH Hd).
  reflexivity.
Qed.

Lemma plain_no_separator (n : string) :
  plain_class_name n = true → no_separator n = true.
Proof.
  apply all_chars_impl. intros c. unfold plain_class_char, is_class_separator.
  destruct c as [[] [] [] [] [] [] [] []]; vm_compute; congruence.
Qed.

Lemma updateTileInDOM_marker n x y s :
  plain_class_name n = true →
  getTileCodeFromLayer n x y s = "0" →
  ∃ s', updateTileInDOM n x y s = Returned tt s'.
Proof.
  intros P H. unfold updateTileInDOM. rewrite P. simpl.
  destruct (query_layer n (dom s)) as [[i el]|]; [|eauto].
  destruct (if _ <? 0 then None else _); [|eauto].
  rewrite H. simpl. eauto.
Qed.

Lemma assign_and_update_plain n x y v s s' :
  assign_and_update n x y v s = Returned tt s' → plain_class_name n = true.
Proof.
  unfold assign_and_update, layer_not_found, invalid_position, updateTileInDOM.
  destruct (plain_class_name n); [reflexivity|]. simpl.
  repeat case_match; discriminate.
Qed.

Lemma assign_and_update_reads n x y v s s' n' x' y' :
  assign_and_update n x y v s = Returned tt s' →
  getTileCodeFromLayer n' x' y' s'
  = if decide (n' = n ∧ x' = x ∧ y' = y) then v
    else getTileCodeFromLayer n' x' y' s.
Proof.
  intros H.
  destruct (assign_and_update_Returned _ _ _ _ _ _ H)
    as (Hc & i & layer & row & Hf & [Hx _] & [Hy _] & Hrow & Hlen & Hr).
  eapply getTileCodeFromLayer_assigned; eauto.
Qed.

(** X14. When [addTile] returns, the cell reads back as the tile code that
    was placed, and every other cell of every layer, static or runtime, reads
    as it did before. *)
Theorem addTile_then_read (layerName : string) (x y : Z) (tileCode : string)
    (s s' : SceneBuilder) :
  addTile layerName x y tileCode s = Returned tt s' →
  getTileCodeFromLayer layerName x y s' = tileCode
  ∧ ∀ n' x' y', ¬ (n' = layerName ∧ x' = x ∧ y' = y) →
      getTileCodeFromLayer n' x' y' s' = getTileCodeFromLayer n' x' y' s.
Proof.
  unfold addTile. destruct (validateTileFormat _ _); [|discriminate].
  intros H. split.
  - rewrite (assign_and_update_reads _ _ _ _ _ _ layerName x y H).
    rewrite decide_True by auto. reflexivity.
  - intros n' x' y' Hne.
    rewrite (assign_and_update_reads _ _ _ _ _ _ n' x' y' H).
    rewrite decide_False by exact Hne. reflexivity.
Qed.

Lemma addTile_then_read_witness :
  ∃ s1 s2,
    demo_scene = Some s1
    ∧ addTile "furniture" 1 0 "G3" s1 = Returned tt s2
    ∧ getTileCodeFromLayer "furniture" 1 0 s2 = "G3"
    ∧ getTileCodeFromLayer "bg" 0 0 s2 = "G0".
Proof.
  destruct demo_scene as [s1|] eqn:E; [|vm_compute in E; discriminate].
  destruct (addTile "furniture" 1 0 "G3" s1) as [[] s2|e s2|] eqn:A;
    [|vm_compute in E; injection E as <-; vm_compute in A; discriminate..].
  exists s1, s2. split; [reflexivity|]. split; [exact A|].
  destruct (addTile_then_read _ _ _ _ _ _ A) as [Hr Hf]. split; [exact Hr|].
  rewrite Hf by (intros [[=] _]).
  vm_compute in E. injection E as <-. reflexivity.
Defined.

(** On full grids the assignment goes through once the layer is found and
    the position is inside the grid. *)
Lemma assign_and_update_assigns n x y v s :
  full_grids s →
  (∃ l, l ∈ runtimeLayers s ∧ l_name l = n) →
  0 <= x < m_width (c_main (config s)) →
  0 <= y < m_height (c_main (config s)) →
  ∃ i layer row,
    list_find (λ l, l_name l = n) (runtimeLayers s) = Some (i, layer)
    ∧ l_tiles layer !! Z.to_nat y = Some row
    ∧ (Z.to_nat x < length row)%nat
    ∧ assign_and_update n x y v s
      = updateTileInDOM n x y
          (set_runtimeLayers
             (<[i := mkLayer (l_name layer)
                       (<[Z.to_nat y := <[Z.to_nat x := v]> row]> (l_tiles layer))]>
                (runtimeLayers s)) s).
Proof.
  intros F (l & Hin & Hl) Bx By. unfold assign_and_update.
  destruct (list_find _ (runtimeLayers s)) as [[i layer]|] eqn:E;
    [|exfalso; eapply find_layer_None; eauto].
  assert (B : out_of_bounds x y (c_main (config s)) = false)
    by (apply out_of_bounds_false; auto).
  rewrite B.
  pose proof E as E0. apply list_find_Some in E0 as (Hi & _ & _).
  pose proof (proj1 (Forall_lookup _ _) F i layer Hi) as [Hlen Hrows].
  destruct (l_tiles layer !! Z.to_nat y) as [row|] eqn:R;
    [|apply lookup_ge_None in R; lia].
  pose proof (proj1 (Forall_lookup _ _) Hrows _ _ R) as Hrow.
  cbv beta in Hrow.
  assert (L : (Z.to_nat x < length row)%nat) by lia.
  exists i, layer, row. repeat split; try assumption; try reflexivity.
  rewrite (proj2 (Nat.ltb_lt _ _) L). reflexivity.
Qed.

(** X15. On a scene whose runtime grids are full, [removeTile] has three
    outcomes.  Without a runtime layer of that name it throws
    [LAYER_NOT_FOUND]; with one and a position outside the grid it throws
    [INVALID_TILE_POSITION]; in both cases the object is unchanged.
    Otherwise, when the layer name is a plain class name (ASCII letters,
    digits, [-] and [_]), it returns: the selector made from the name is
    valid and re-rendering the empty marker cannot fail.  The cell then reads
    as the empty marker and every other cell reads as before. *)
Theorem removeTile_spec (layerName : string) (x y : Z) (s : SceneBuilder) :
  full_grids s →
  ((∀ l, l ∈ runtimeLayers s → l_name l ≠ layerName) →
     outcome_code (removeTile layerName x y s) = Some LAYER_NOT_FOUND
     ∧ scene_after (removeTile layerName x y s) = Some s)
  ∧ ((∃ l, l ∈ runtimeLayers s ∧ l_name l = layerName) →
     ¬ (0 <= x < m_width (c_main (config s))
        ∧ 0 <= y < m_height (c_main (config s))) →
     outcome_code (removeTile layerName x y s) = Some INVALID_TILE_POSITION
     ∧ scene_after (removeTile layerName x y s) = Some s)
  ∧ ((∃ l, l ∈ runtimeLayers s ∧ l_name l = layerName) →
     0 <= x < m_width (c_main (config s)) →
     0 <= y < m_height (c_main (config s)) →
     plain_class_name layerName = true →
     ∃ s', removeTile layerName x y s = Returned tt s'
       ∧ config s' = config s
       ∧ getTileCodeFromLayer layerName x y s' = "0"
       ∧ ∀ n' x' y', ¬ (n' = layerName ∧ x' = x ∧ y' = y) →
           getTileCodeFromLayer n' x' y' s' = getTileCodeFromLayer n' x' y' s).
Proof.
  intros F. unfold removeTile.
  destruct (assign_and_update_checks layerName x y "0" s) as [C1 C2].
  split; [exact C1|]. split; [exact C2|].
  intros Hl Bx By Hp.
  destruct (assign_and_update_assigns layerName x y "0" s F Hl Bx By)
    as (i & layer & row & Hf & Hrow & Hlen & Heq).
  match type of Heq with
  | _ = updateTileInDOM _ _ _ ?s1 =>
      assert (Hread : ∀ n' x' y',
                getTileCodeFromLayer n' x' y' s1
                = if decide (n' = layerName ∧ x' = x ∧ y' = y) then "0"
                  else getTileCodeFromLayer n' x' y' s)
        by (intros n' x' y';
            apply (getTileCodeFromLayer_assigned layerName x y "0" s s1
                     i layer row n' x' y');
            [reflexivity|exact Hf|lia|lia|exact Hrow|exact Hlen|reflexivity]);
      assert (Hz : getTileCodeFromLayer layerName x y s1 = "0")
        by (rewrite Hread, decide_True by auto; reflexivity);
      destruct (updateTileInDOM_marker layerName x y s1 Hp Hz) as [s' Hs'];
      pose proof (updateTileInDOM_keeps layerName x y s1) as K
  end.
  rewrite Hs' in K. destruct K as [Kc Kr]. simpl in Kc.
  exists s'. rewrite Heq. split; [exact Hs'|]. split; [exact Kc|].
  assert (R : ∀ n' x' y',
            getTileCodeFromLayer n' x' y' s'
            = if decide (n' = layerName ∧ x' = x ∧ y' = y) then "0"
              else getTileCodeFromLayer n' x' y' s).
  { intros n' x' y'. rewrite <- Hread. unfold getTileCodeFromLayer.
    rewrite Kc, Kr. reflexivity. }
  split.
  - rewrite R, decide_True by auto. reflexivity.
  - intros n' x' y' Hne. rewrite R, decide_False by exact Hne. reflexivity.
Qed.

Lemma removeTile_spec_witness :
  ∃ s1 s2 s3,
    demo_scene = Some s1
    ∧ full_grids s1
    ∧ addTile "furniture" 1 0 "G3" s1 = Returned tt s2
    ∧ full_grids s2
    ∧ outcome_code (removeTile "bg" 0 0 s2) = Some LAYER_NOT_FOUND
    ∧ outcome_code (removeTile "furniture" 0 1 s2) = Some INVALID_TILE_POSITION
    ∧ removeTile "furniture" 1 0 s2 = Returned tt s3
    ∧ getTileCodeFromLayer "furniture" 1 0 s2 = "G3"
    ∧ getTileCodeFromLayer "furniture" 1 0 s3 = "0".
Proof.
  destruct demo_scene as [s1|] eqn:E; [|vm_compute in E; discriminate].
  destruct (addTile "furniture" 1 0 "G3" s1) as [[] s2|e s2|] eqn:A;
    [|vm_compute in E; injection E as <-; vm_compute in A; discriminate..].
  assert (F1 : full_grids s1).
  { vm_compute in E. injection E as <-. repeat constructor. }
  assert (S2 : s2 = mkScene (config s1)
                      [mkLayer "furniture" [["0"; "G3"]];
                       mkLayer "furniture" [["0"; "0"]]]
                      (dom s2)
               ∧ m_width (c_main (config s1)) = 2
               ∧ m_height (c_main (config s1)) = 1).
  { vm_compute in E. injection E as <-. vm_compute in A. injection A as <-.
    repeat split. }
  destruct S2 as (S2 & W & H).
  assert (F2 : full_grids s2).
  { rewrite S2. unfold full_grids. simpl. rewrite W, H. repeat constructor. }
  assert (L2 : runtimeLayers s2
               = [mkLayer "furniture" [["0"; "G3"]];
                  mkLayer "furniture" [["0"; "0"]]])
    by (rewrite S2; reflexivity).
  assert (C2 : config s2 = config s1) by (rewrite S2; reflexivity).
  destruct (removeTile_spec "bg" 0 0 s2 F2) as (H1 & _ & _).
  destruct (removeTile_spec "furniture" 0 1 s2 F2) as (_ & H2 & _).
  destruct (removeTile_spec "furniture" 1 0 s2 F2) as (_ & _ & H3).
  destruct H3 as (s3 & R3 & _ & Z3 & _).
  { rewrite L2. eexists. split; [left|reflexivity]. }
  { rewrite C2, W. lia. }
  { rewrite C2, H. lia. }
  { reflexivity. }
  exists s1, s2, s3.
  split; [reflexivity|]. split; [exact F1|]. split; [exact A|].
  split; [exact F2|]. split.
  { apply H1. rewrite L2. intros l Hl.
    apply elem_of_cons in Hl as [->|Hl]; [discriminate|].
    apply list_elem_of_singleton in Hl as ->. discriminate. }
  split.
  { apply H2; [rewrite L2; eexists; split; [left|reflexivity]|].
    rewrite C2, W, H. lia. }
  split; [exact R3|]. split; [|exact Z3].
  rewrite S2. vm_compute in E. injection E as <-. reflexivity.
Defined.

Lemma cell_at_marker_lookup (g : list (list string)) (row : list string) (x y : Z) :
  0 <= x → 0 <= y →
  g !! Z.to_nat y = Some row → (Z.to_nat x < length row)%nat →
  cell_at g x y = "0" → row !! Z.to_nat x = Some "0".
Proof.
  intros Hx Hy Hrow Hlen. unfold cell_at.
  replace ((x <? 0) || (y <? 0)) with false
    by (symmetry; apply orb_false_iff; split; apply Z.ltb_ge; lia).
  rewrite Hrow. simpl.
  destruct (lookup_lt_is_Some_2 row (Z.to_nat x) Hlen) as [c Hc].
  rewrite Hc. simpl. intros ->. reflexivity.
Qed.

(** X16. Placing a tile on a cell that held the empty marker and removing it
    again restores the runtime layers: when [addTile] returns on such a cell,
    the following [removeTile] returns as well, and the list of runtime layers
    and the configuration are those before the two calls. *)
Theorem addTile_removeTile_round_trip (layerName : string) (x y : Z)
    (tileCode : string) (s s1 : SceneBuilder) :
  getTileCodeFromLayer layerName x y s = "0" →
  addTile layerName x y tileCode s = Returned tt s1 →
  ∃ s2, removeTile layerName x y s1 = Returned tt s2
    ∧ runtimeLayers s2 = runtimeLayers s
    ∧ config s2 = config s.
Proof.
  intros Hz. unfold addTile.
  destruct (validateTileFormat _ _); [|discriminate]. intros A.
  pose proof (assign_and_update_plain _ _ _ _ _ _ A) as Hp.
  destruct (assign_and_update_Returned _ _ _ _ _ _ A)
    as (Hc & i & layer & row & Hf & Bx & By & Hrow & Hlen & Hr).
  pose proof Hf as Hf0. apply list_find_Some in Hf0 as (Hi & Hname & _).
  pose proof (lookup_lt_Some _ _ _ Hi) as Hilen.
  pose proof (lookup_lt_Some _ _ _ Hrow) as Hylen.
  assert (Hcell : row !! Z.to_nat x = Some "0").
  { apply (cell_at_marker_lookup (l_tiles layer) row x y); try assumption; try lia.
    revert Hz. unfold getTileCodeFromLayer. rewrite find_has_name, Hf.
    simpl. auto. }
  set (L1 := mkLayer (l_name layer)
               (<[Z.to_nat y := <[Z.to_nat x := tileCode]> row]> (l_tiles layer))) in *.
  assert (Hf1 : list_find (λ l, l_name l = layerName) (runtimeLayers s1)
                = Some (i, L1)).
  { rewrite Hr. apply (list_find_insert_same _ _ _ layer); [exact Hf|exact Hname]. }
  assert (Hrow1 : l_tiles L1 !! Z.to_nat y = Some (<[Z.to_nat x := tileCode]> row)).
  { unfold L1. simpl. apply list_lookup_insert_eq. exact Hylen. }
  assert (Hlen1 : (Z.to_nat x < length (<[Z.to_nat x := tileCode]> row))%nat)
    by (rewrite length_insert; exact Hlen).
  unfold removeTile, assign_and_update. rewrite Hf1, Hc.
  rewrite (proj2 (out_of_bounds_false x y _) (conj Bx By)).
  rewrite Hrow1, (proj2 (Nat.ltb_lt _ _) Hlen1).
  match goal with
  | |- ∃ s2, updateTileInDOM _ _ _ ?S = _ ∧ _ =>
      assert (Hm : getTileCodeFromLayer layerName x y S = "0")
        by (rewrite (getTileCodeFromLayer_assigned layerName x y "0" s1 S
                       i L1 (<[Z.to_nat x := tileCode]> row) layerName x y);
            [rewrite decide_True by auto; reflexivity
            |reflexivity|exact Hf1|lia|lia|exact Hrow1|exact Hlen1|reflexivity]);
      destruct (updateTileInDOM_marker layerName x y S Hp Hm) as [s2 Hs2];
      pose proof (updateTileInDOM_keeps layerName x y S) as K
  end.
  rewrite Hs2 in K. destruct K as [Kc Kr]. simpl in Kc, Kr.
  exists s2. split; [exact Hs2|]. split; [|rewrite Kc; exact Hc].
  rewrite Kr, Hr, list_insert_insert_eq. unfold L1. simpl.
  rewrite !list_insert_insert_eq.
  rewrite (list_insert_id row _ _ Hcell).
  rewrite (list_insert_id (l_tiles layer) _ _ Hrow).
  apply list_insert_id. rewrite Hi. destruct layer; reflexivity.
Qed.

Lemma addTile_removeTile_round_trip_witness :
  ∃ s s1 s2,
    demo_scene = Some s
    ∧ addTile "furniture" 1 0 "G3" s = Returned tt s1
    ∧ removeTile "furniture" 1 0 s1 = Returned tt s2
    ∧ runtimeLayers s1 ≠ runtimeLayers s
    ∧ runtimeLayers s2 = runtimeLayers s.
Proof.
  destruct demo_scene as [s|] eqn:E; [|vm_compute in E; discriminate].
  destruct (addTile "furniture" 1 0 "G3" s) as [[] s1|e s1|] eqn:A;
    [|vm_compute in E; injection E as <-; vm_compute in A; discriminate..].
  assert (Hz : getTileCodeFromLayer "furniture" 1 0 s = "0").
  { vm_compute in E. injection E as <-. reflexivity. }
  destruct (addTile_removeTile_round_trip _ _ _ _ _ _ Hz A) as (s2 & R & L & _).
  exists s, s1, s2. split; [reflexivity|]. split; [exact A|].
  split; [exact R|]. split; [|exact L].
  vm_compute in E. injection E as <-. vm_compute in A. injection A as <-.
  discriminate.
Defined.

(** X17. When [addTile] returns, the wrapper differs from the one before the
    call in at most one tile element: in the first grid element of that layer,
    the child at index [y * width + x] is replaced by one that shows
    [tileCode].  Without a grid element for the layer, or without a child at
    that index, the wrapper is as before (an assignment beyond the end of a
    list leaves it as it is).  This is for a layer name that is a plain class
    name (ASCII letters, digits, [-] and [_]); the grid element is the one
    the selector [.tw-layer--<layerName>] finds, which is the first grid of
    the layer of that name when no layer name in the wrapper has white space
    in it. *)
Theorem addTile_rerenders_cell (layerName : string) (x y : Z) (tileCode : string)
    (s s' : SceneBuilder) :
  plain_class_name layerName = true →
  addTile layerName x y tileCode s = Returned tt s' →
  match query_layer layerName (dom s) with
  | None => dom s' = dom s
  | Some (i, el) =>
      dom s'
      = <[i := mkGrid (g_layer el)
                 (<[Z.to_nat (y * m_width (c_main (config s)) + x) := tileCode]>
                    (g_children el))]> (dom s)
  end
  ∧ (Forall (λ g, no_separator (g_layer g) = true) (dom s) →
     query_layer layerName (dom s)
     = list_find (λ g, g_layer g = layerName) (dom s)).
Proof.
  intros Hp A. split; [|apply query_layer_by_name]. revert A.
  unfold addTile. destruct (validateTileFormat _ _); [|discriminate].
  unfold assign_and_update, layer_not_found, invalid_position.
  destruct (list_find _ (runtimeLayers s)) as [[j layer]|] eqn:Hf; [|discriminate].
  destruct (out_of_bounds x y (c_main (config s))) eqn:B; [discriminate|].
  apply out_of_bounds_false in B as [Bx By].
  destruct (l_tiles layer !! Z.to_nat y) as [row|] eqn:Hrow; [|discriminate].
  destruct (Z.to_nat x <? length row)%nat eqn:L; [|discriminate].
  apply Nat.ltb_lt in L.
  match goal with
  | |- updateTileInDOM _ _ _ ?S = _ → _ =>
      assert (Hread : getTileCodeFromLayer layerName x y S = tileCode)
        by (rewrite (getTileCodeFromLayer_assigned layerName x y tileCode s S
                       j layer row layerName x y);
            [rewrite decide_True by auto; reflexivity
            |reflexivity|exact Hf|lia|lia|exact Hrow|exact L|reflexivity])
  end.
  unfold updateTileInDOM. rewrite Hp, Hread. cbn [negb].
  unfold set_runtimeLayers, set_dom. cbn [dom config runtimeLayers].
  destruct (query_layer layerName (dom s)) as [[i el]|] eqn:Q.
  - apply list_find_Some in Q as (Hi & _ & _).
    assert (Hidx : (y * m_width (c_main (config s)) + x <? 0) = false)
      by (apply Z.ltb_ge; nia).
    rewrite Hidx.
    destruct (g_children el !! _) as [old|] eqn:Hold.
    + destruct (createTileElement tileCode x y (config s)) as [tileEl|e] eqn:C;
        [|discriminate].
      apply createTileElement_result in C as ->. intros [= <-]. reflexivity.
    + intros [= <-]. cbn [dom]. apply lookup_ge_None in Hold.
      rewrite (list_insert_ge (g_children el)) by exact Hold.
      symmetry. apply list_insert_id. rewrite Hi. destruct el; reflexivity.
  - intros [= <-]. reflexivity.
Qed.

Lemma addTile_rerenders_cell_witness :
  ∃ s1 s2,
    demo_scene = Some s1
    ∧ addTile "furniture" 1 0 "G3" s1 = Returned tt s2
    ∧ dom s1 = [mkGrid "bg" ["G0"; "0"]; mkGrid "furniture" ["0"; "0"]]
    ∧ dom s2 = [mkGrid "bg" ["G0"; "0"]; mkGrid "furniture" ["0"; "G3"]].
Proof.
  destruct demo_scene as [s1|] eqn:E; [|vm_compute in E; discriminate].
  destruct (addTile "furniture" 1 0 "G3" s1) as [[] s2|e s2|] eqn:A;
    [|vm_compute in E; injection E as <-; vm_compute in A; discriminate..].
  exists s1, s2. split; [reflexivity|]. split; [exact A|].
  destruct (addTile_rerenders_cell "furniture" 1 0 "G3" s1 s2 eq_refl A) as [H _].
  assert (D : dom s1 = [mkGrid "bg" ["G0"; "0"]; mkGrid "furniture" ["0"; "0"]]
              ∧ m_width (c_main (config s1)) = 2).
  { vm_compute in E. injection E as <-. split; reflexivity. }
  destruct D as [D W]. split; [exact D|].
  rewrite D, W in H. exact H.
Defined.

(** Re-rendering a cell returns exactly when the tile shown there, if any,
    can be drawn. *)
Lemma updateTileInDOM_returns_iff n x y s :
  plain_class_name n = true →
  0 <= y * m_width (c_main (config s)) + x →
  (∃ s', updateTileInDOM n x y s = Returned tt s')
  ↔ (∀ i el old,
       query_layer n (dom s) = Some (i, el) →
       g_children el !! Z.to_nat (y * m_width (c_main (config s)) + x) = Some old →
       drawable (config s) (getTileCodeFromLayer n x y s)).
Proof.
  intros Hp Hidx. apply Z.ltb_ge in Hidx. unfold updateTileInDOM.
  rewrite Hp. cbn [negb].
  destruct (query_layer n (dom s)) as [[i el]|];
    [|split; [intros _ ? ? ? [=]|eauto]].
  rewrite Hidx.
  destruct (g_children el !! _) as [old|] eqn:Hold.
  - destruct (createTileElement _ x y (config s)) as [tileEl|e] eqn:C.
    + pose proof (createTileElement_result _ _ _ _ _ C) as ->.
      apply createTileElement_Ok in C. split; [intros _ ? ? ? _ _; exact C|eauto].
    + split; [intros [s' [=]]|].
      intros H. specialize (H i el old eq_refl Hold).
      apply (createTileElement_Ok _ x y) in H. congruence.
  - split; [|eauto]. intros _ i0 el0 old [= <- <-] H. congruence.
Qed.

(** X18. On a scene whose runtime grids are full, and for a layer name that
    is a plain class name (ASCII letters, digits, [-] and [_]), [addTile]
    returns exactly when four things hold: the trimmed tile code is the empty
    marker or letters followed by digits; a runtime layer has that name; the
    position is inside the grid; and, if the grid element that the selector
    [.tw-layer--<layerName>] finds has a tile element for that cell, the tile
    code as given (not trimmed) can be drawn, that is, it is the empty marker
    or letters and digits with a tileset for the letters. *)
Theorem addTile_returns_iff (layerName : string) (x y : Z) (tileCode : string)
    (s : SceneBuilder) :
  full_grids s →
  plain_class_name layerName = true →
  (∃ s', addTile layerName x y tileCode s = Returned tt s')
  ↔ (tile_code (JS.trim tileCode)
     ∧ (∃ l, l ∈ runtimeLayers s ∧ l_name l = layerName)
     ∧ 0 <= x < m_width (c_main (config s))
     ∧ 0 <= y < m_height (c_main (config s))
     ∧ ∀ i el old,
         query_layer layerName (dom s) = Some (i, el) →
         g_children el !! Z.to_nat (y * m_width (c_main (config s)) + x) = Some old →
         drawable (config s) tileCode).
Proof.
  intros F Hp.
  assert (Key : ∀ (Hl : ∃ l, l ∈ runtimeLayers s ∧ l_name l = layerName)
                  (Bx : 0 <= x < m_width (c_main (config s)))
                  (By : 0 <= y < m_height (c_main (config s))),
            (∃ s', assign_and_update layerName x y tileCode s = Returned tt s')
            ↔ (∀ i el old,
                 query_layer layerName (dom s) = Some (i, el) →
                 g_children el !! Z.to_nat (y * m_width (c_main (config s)) + x)
                 = Some old →
                 drawable (config s) tileCode)).
  { intros Hl Bx By.
    destruct (assign_and_update_assigns layerName x y tileCode s F Hl Bx By)
      as (j & layer & row & Hf & Hrow & Hlen & ->).
    match goal with
    | |- (∃ s', updateTileInDOM _ _ _ ?S = _) ↔ _ =>
        rewrite (updateTileInDOM_returns_iff layerName x y S Hp)
          by (cbn [config set_runtimeLayers]; nia);
        rewrite (getTileCodeFromLayer_assigned layerName x y tileCode s S
                   j layer row layerName x y);
          [|reflexivity|exact Hf|lia|lia|exact Hrow|exact Hlen|reflexivity]
    end.
    rewrite decide_True by auto. reflexivity. }
  unfold addTile. split.
  - intros [s' A].
    destruct (validateTileFormat _ _) as [[]|] eqn:V; [|discriminate].
    apply validateTileFormat_Ok in V.
    destruct (assign_and_update_Returned _ _ _ _ _ _ A)
      as (_ & i & layer & row & Hf & Bx & By & _).
    assert (Hl : ∃ l, l ∈ runtimeLayers s ∧ l_name l = layerName).
    { apply list_find_Some in Hf as (Hi & Hn & _).
      exists layer. split; [eapply list_elem_of_lookup_2, Hi|exact Hn]. }
    repeat split; try assumption; try lia.
    apply (Key Hl Bx By). eauto.
  - intros (V & Hl & Bx & By & Hd).
    apply (validateTileFormat_Ok _ ("addTile: " +:+ tileCode +:+ " @ " +:+ pos_text x y)) in V.
    rewrite V. apply (Key Hl Bx By). exact Hd.
Qed.

Lemma addTile_returns_iff_witness :
  ∃ s1,
    demo_scene = Some s1
    ∧ full_grids s1
    ∧ (∃ s2, addTile "furniture" 1 0 "G3" s1 = Returned tt s2)
    ∧ ¬ (∃ s2, addTile "furniture" 1 0 "H3" s1 = Returned tt s2).
Proof.
  destruct demo_scene as [s1|] eqn:E; [|vm_compute in E; discriminate].
  vm_compute in E. injection E as <-.
  eexists. split; [reflexivity|].
  match goal with
  | |- full_grids ?a ∧ _ => assert (F : full_grids a) by (repeat constructor)
  end.
  split; [exact F|]. split.
  - apply (addTile_returns_iff "furniture" 1 0 "G3" _ F eq_refl).
    split; [apply is_tile_code_spec; reflexivity|].
    split; [eexists; split; [left|reflexivity]|].
    split; [simpl; lia|]. split; [simpl; lia|].
    intros _ _ _ _ _. right. split.
    + exists "G", "3". repeat split; discriminate.
    + eexists. split; [left|reflexivity].
  - intros H. apply (addTile_returns_iff "furniture" 1 0 "H3" _ F eq_refl) in H.
    destruct H as (_ & _ & _ & _ & H).
    specialize (H 1%nat (mkGrid "furniture" ["0"; "0"]) "0" eq_refl eq_refl).
    destruct H as [H|(_ & ts & Hin & Hs)]; [discriminate|].
    cbn [config c_tilesets] in Hin.
    apply list_elem_of_singleton in Hin as ->. discriminate.
Defined.

Lemma cell_at_replicate (h w : nat) (x y : Z) :
  cell_at (replicate h (replicate w "0")) x y = "0".
Proof.
  unfold cell_at. destruct ((x <? 0) || (y <? 0)); [reflexivity|].
  destruct (replicate h _ !! Z.to_nat y) as [row|] eqn:R; [|reflexivity].
  apply lookup_replicate in R as [-> _]. simpl.
  destruct (replicate w _ !! Z.to_nat x) as [c|] eqn:C; [|reflexivity].
  apply lookup_replicate in C as [-> _]. reflexivity.
Qed.

(** X19. When [createRuntimeLayer] returns, the name was free before the
    call; afterwards a runtime layer has the name, every cell of the layer
    reads as the empty marker, and a second call with the same name throws
    [LAYER_ALREADY_EXISTS] and leaves the object as it is. *)
Theorem createRuntimeLayer_then (layerName : string) (s s' : SceneBuilder) :
  createRuntimeLayer layerName s = Returned tt s' →
  fresh_name layerName s
  ∧ (∃ l, l ∈ runtimeLayers s' ∧ l_name l = layerName)
  ∧ (∀ x y, getTileCodeFromLayer layerName x y s' = "0")
  ∧ outcome_code (createRuntimeLayer layerName s') = Some LAYER_ALREADY_EXISTS
  ∧ scene_after (createRuntimeLayer layerName s') = Some s'.
Proof.
  destruct (existsb (has_name layerName) (c_layers (config s))
            || existsb (has_name layerName) (runtimeLayers s)) eqn:E.
  { unfold createRuntimeLayer. rewrite E. discriminate. }
  apply fresh_name_spec in E. rewrite (createRuntimeLayer_fresh _ _ E).
  intros [= <-]. split; [exact E|].
  assert (Hin : ∃ l, l ∈ runtimeLayers s ++ [empty_layer_of layerName s;
                                              empty_layer_of layerName s]
                  ∧ l_name l = layerName).
  { exists (empty_layer_of layerName s). split; [|reflexivity].
    apply elem_of_app. right. left. }
  split; [exact Hin|]. split.
  - intros x y. unfold getTileCodeFromLayer. cbn [runtimeLayers config].
    rewrite find_has_name.
    rewrite list_find_app_r by (apply find_layer_None, E).
    cbn [list_find]. rewrite decide_True by reflexivity. simpl.
    apply cell_at_replicate.
  - apply createRuntimeLayer_taken. intros [_ H].
    destruct Hin as (l & Hl & Hn). exact (H l Hl Hn).
Qed.

Lemma createRuntimeLayer_then_witness :
  ∃ s0 s1,
    scene_of_text demo_text = Some s0
    ∧ createRuntimeLayer "furniture" s0 = Returned tt s1
    ∧ getTileCodeFromLayer "furniture" 1 0 s1 = "0"
    ∧ outcome_code (createRuntimeLayer "furniture" s1) = Some LAYER_ALREADY_EXISTS.
Proof.
  destruct (scene_of_text demo_text) as [s0|] eqn:E; [|vm_compute in E; discriminate].
  destruct (createRuntimeLayer "furniture" s0) as [[] s1|e s1|] eqn:A;
    [|vm_compute in E; injection E as <-; vm_compute in A; discriminate..].
  exists s0, s1. split; [reflexivity|]. split; [exact A|].
  destruct (createRuntimeLayer_then _ _ _ A) as (_ & _ & Hz & Hc & _).
  split; [apply Hz|exact Hc].
Defined.

(** ** The metadata stack *)

(** One turn of the loop of [getTileMetadataStack], by cases. *)
Lemma metadata_of_layer_cases cfg x y l :
  metadata_of_layer cfg x y l
  = if holds_tile x y l then
      match upper_tileset cfg (cell_at (l_tiles l) x y) with
      | Some ts =>
          Ok (Some (mkMeta (cell_at (l_tiles l) x y) (l_name l)
                      (upper_prefix (cell_at (l_tiles l) x y)) (ts_id ts)
                      (spread3 (props_of (p_tilesets (c_props cfg)) (ts_id ts))
                               (props_of (p_layers (c_props cfg)) (l_name l))
                               (props_of (p_tiles (c_props cfg))
                                  (cell_at (l_tiles l) x y)))))
      | None => Throw TypeError
      end
    else Ok None.
Proof.
  unfold metadata_of_layer, holds_tile, upper_tileset, upper_prefix,
    JS.match_upper_prefix.
  destruct (JS.is_empty _ || bool_decide _); [reflexivity|]. simpl.
  destruct (JS.span JS.is_upper (cell_at (l_tiles l) x y)) as [a r]. simpl.
  destruct (JS.truthy a); [|reflexivity].
  destruct (List.find _ (c_tilesets cfg)); reflexivity.
Qed.

Lemma metadata_of_layers_entries cfg x y ls stack :
  metadata_of_layers cfg x y ls = Ok stack →
  Forall2 (entry_of cfg x y) stack (List.filter (holds_tile x y) ls).
Proof.
  revert stack. induction ls as [|l ls IH]; intros stack; simpl.
  - intros [= <-]. constructor.
  - intros H. apply bind_Ok in H as (o & Ho & H).
    apply bind_Ok in H as (r & Hr & [= <-]).
    rewrite metadata_of_layer_cases in Ho.
    destruct (holds_tile x y l).
    + destruct (upper_tileset cfg _) as [ts|] eqn:U; [|discriminate].
      injection Ho as <-. constructor; [|apply IH, Hr].
      repeat split. exists ts. split; [exact U|reflexivity].
    + injection Ho as <-. apply IH, Hr.
Qed.

Lemma metadata_of_layers_throws cfg x y ls e :
  metadata_of_layers cfg x y ls = Throw e
  ↔ e = TypeError
    ∧ Exists (λ l, upper_tileset cfg (cell_at (l_tiles l) x y) = None)
        (List.filter (holds_tile x y) ls).
Proof.
  induction ls as [|l ls IH]; simpl.
  - split; [discriminate|]. intros [_ H]. inversion H.
  - rewrite metadata_of_layer_cases.
    destruct (holds_tile x y l).
    + destruct (upper_tileset cfg _) as [ts|] eqn:U; simpl.
      * rewrite Exists_cons.
        destruct (metadata_of_layers cfg x y ls) as [r|e'] eqn:R; simpl.
        -- split; [discriminate|]. intros [He [H|H]]; [congruence|].
           pose proof (proj2 IH (conj He H)). discriminate.
        -- split.
           ++ intros [= ->]. destruct (proj1 IH eq_refl) as [-> H]. auto.
           ++ intros [He [H|H]]; [congruence|]. apply (proj2 IH). auto.
      * rewrite Exists_cons. split; [intros [= <-]; auto|].
        intros [-> _]. reflexivity.
    + simpl. destruct (metadata_of_layers cfg x y ls) as [r|e'] eqn:R; simpl.
      * split; [discriminate|]. intros H. pose proof (proj2 IH H). discriminate.
      * split.
        -- intros [= ->]. apply (proj1 IH eq_refl).
        -- intros H. apply (proj2 IH H).
Qed.

(** X20. When [getTileMetadataStack] returns, the stack is empty for a
    position outside the grid; for a position inside it has exactly one entry
    per layer that holds a tile there, in the order of the layers (static
    layers first).  Each entry carries the tile code and the name of its
    layer, the upper-case prefix of the tile code as [tilesetShort], and the
    id of the first tileset with that short. *)
Theorem getTileMetadataStack_entries (x y : Z) (s : SceneBuilder)
    (stack : list TileMetadata) :
  getTileMetadataStack x y s = Ok stack →
  (¬ (0 <= x < m_width (c_main (config s))
      ∧ 0 <= y < m_height (c_main (config s))) → stack = [])
  ∧ (0 <= x < m_width (c_main (config s))
     ∧ 0 <= y < m_height (c_main (config s)) →
     Forall2 (entry_of (config s) x y) stack (layers_at x y s)).
Proof.
  unfold getTileMetadataStack.
  destruct (out_of_bounds x y (c_main (config s))) eqn:B.
  - intros [= <-]. split; [reflexivity|]. intros H.
    apply out_of_bounds_false in H. congruence.
  - intros H. split.
    + intros N. destruct N. apply out_of_bounds_false, B.
    + intros _. apply metadata_of_layers_entries, H.
Qed.

Lemma getTileMetadataStack_entries_witness :
  ∃ s stack,
    demo_scene = Some s
    ∧ getTileMetadataStack 0 0 s = Ok stack
    ∧ layers_at 0 0 s = [mkLayer "bg" [["G0"; "0"]]]
    ∧ Forall2 (entry_of (config s) 0 0) stack [mkLayer "bg" [["G0"; "0"]]].
Proof.
  destruct demo_scene as [s|] eqn:E; [|vm_compute in E; discriminate].
  destruct (getTileMetadataStack 0 0 s) as [stack|e] eqn:G;
    [|vm_compute in E; injection E as <-; vm_compute in G; discriminate].
  exists s, stack. split; [reflexivity|]. split; [exact G|].
  assert (L : layers_at 0 0 s = [mkLayer "bg" [["G0"; "0"]]]
              ∧ m_width (c_main (config s)) = 2
              ∧ m_height (c_main (config s)) = 1).
  { vm_compute in E. injection E as <-. repeat split. }
  destruct L as (L & W & H). split; [exact L|].
  rewrite <- L. apply (getTileMetadataStack_entries 0 0 s stack G).
  rewrite W, H. lia.
Defined.

(** X21. [getTileMetadataStack] throws in one way only, a [TypeError], and
    exactly when the position is inside the grid and some layer holds a tile
    there whose code has no tileset for its upper-case prefix: the code does
    not start with an upper-case letter, or no tileset has the upper-case
    letters it starts with as its short. *)
Theorem getTileMetadataStack_throws (x y : Z) (s : SceneBuilder) (e : Exn) :
  getTileMetadataStack x y s = Throw e
  ↔ e = TypeError
    ∧ (0 <= x < m_width (c_main (config s))
       ∧ 0 <= y < m_height (c_main (config s)))
    ∧ Exists (λ l, upper_tileset (config s) (cell_at (l_tiles l) x y) = None)
        (layers_at x y s).
Proof.
  unfold getTileMetadataStack, layers_at.
  destruct (out_of_bounds x y (c_main (config s))) eqn:B.
  - split; [discriminate|]. intros (_ & H & _).
    apply out_of_bounds_false in H. congruence.
  - rewrite metadata_of_layers_throws. apply out_of_bounds_false in B. tauto.
Qed.

(** X22. [getPropsFromHighestTile] and [getProps] fail together, with the
    same exception, and when they return, every property the highest tile
    gives is in the merged properties with the same value. *)
Theorem getPropsFromHighestTile_in_getProps (x y : Z) (s : SceneBuilder) :
  (∀ e, getPropsFromHighestTile x y s = Throw e ↔ getProps x y s = Throw e)
  ∧ (∀ top merged,
       getPropsFromHighestTile x y s = Ok top →
       getProps x y s = Ok merged →
       top ⊆ merged).
Proof.
  unfold getPropsFromHighestTile, getProps.
  destruct (getTileMetadataStack x y s) as [stack|e0]; simpl.
  - split; [intros e; split; discriminate|].
    intros top merged [= <-] [= <-].
    destruct stack as [|t0 rest] using rev_ind.
    + simpl. reflexivity.
    + rewrite last_snoc, foldl_app. simpl. unfold Object_assign.
      apply map_union_subseteq_l.
  - split; [intros e; reflexivity|]. discriminate.
Qed.

Lemma getPropsFromHighestTile_in_getProps_witness :
  ∃ s top merged,
    demo_scene = Some s
    ∧ getPropsFromHighestTile 0 0 s = Ok top
    ∧ getProps 0 0 s = Ok merged
    ∧ top ⊆ merged.
Proof.
  destruct demo_scene as [s|] eqn:E; [|vm_compute in E; discriminate].
  destruct (getPropsFromHighestTile 0 0 s) as [top|e] eqn:T;
    [|vm_compute in E; injection E as <-; vm_compute in T; discriminate].
  destruct (getProps 0 0 s) as [merged|e] eqn:G;
    [|vm_compute in E; injection E as <-; vm_compute in G; discriminate].
  exists s, top, merged. split; [reflexivity|]. split; [exact T|].
  split; [exact G|].
  destruct (getPropsFromHighestTile_in_getProps 0 0 s) as [_ H].
  exact (H top merged T G).
Defined.

(** ** Layer visibility *)

Lemma isLayerHidden_true n v : isLayerHidden n v = true ↔ n ∈ hiddenLayers v.
Proof. unfold isLayerHidden. apply bool_decide_eq_true. Qed.

Lemma isLayerHidden_false n v : isLayerHidden n v = false ↔ n ∉ hiddenLayers v.
Proof. unfold isLayerHidden. apply bool_decide_eq_false. Qed.

Lemma elem_of_filter_other (n : string) (hl : list string) (m : string) :
  m ∈ List.filter (λ name, negb (bool_decide (name = n))) hl ↔ m ∈ hl ∧ m ≠ n.
Proof.
  rewrite !list_elem_of_In, filter_In, negb_true_iff, bool_decide_eq_false.
  reflexivity.
Qed.

Lemma hiddenLayers_hideLayer n v m :
  m ∈ hiddenLayers (hideLayer n v) ↔ m ∈ hiddenLayers v ∨ m = n.
Proof.
  unfold hideLayer. destruct (isLayerHidden n v) eqn:E; simpl.
  - apply isLayerHidden_true in E. split; [auto|]. intros [H| ->]; assumption.
  - rewrite elem_of_app, list_elem_of_singleton. reflexivity.
Qed.

Lemma hiddenLayers_showLayer n v m :
  m ∈ hiddenLayers (showLayer n v) ↔ m ∈ hiddenLayers v ∧ m ≠ n.
Proof.
  unfold showLayer. destruct (isLayerHidden n v) eqn:E; simpl.
  - apply elem_of_filter_other.
  - apply isLayerHidden_false in E. split; [|tauto].
    intros H. split; [exact H|]. intros ->. contradiction.
Qed.

(** X23. After [hideLayer(n)] the layer [n] is hidden and after
    [showLayer(n)] it is not, whatever was the case before; [toggleLayer(n)]
    flips it.  None of the three changes whether another layer is hidden. *)
Theorem isLayerHidden_after (n : string) (v : Visibility) :
  isLayerHidden n (hideLayer n v) = true
  ∧ isLayerHidden n (showLayer n v) = false
  ∧ isLayerHidden n (toggleLayer n v) = negb (isLayerHidden n v)
  ∧ ∀ m, m ≠ n →
      isLayerHidden m (hideLayer n v) = isLayerHidden m v
      ∧ isLayerHidden m (showLayer n v) = isLayerHidden m v
      ∧ isLayerHidden m (toggleLayer n v) = isLayerHidden m v.
Proof.
  assert (Hh : isLayerHidden n (hideLayer n v) = true)
    by (apply isLayerHidden_true, hiddenLayers_hideLayer; auto).
  assert (Hs : isLayerHidden n (showLayer n v) = false)
    by (apply isLayerHidden_false; rewrite hiddenLayers_showLayer; tauto).
  assert (Ho : ∀ m, m ≠ n →
            isLayerHidden m (hideLayer n v) = isLayerHidden m v
            ∧ isLayerHidden m (showLayer n v) = isLayerHidden m v).
  { intros m Hm. unfold isLayerHidden at 1 3. split; apply bool_decide_ext.
    - rewrite hiddenLayers_hideLayer. tauto.
    - rewrite hiddenLayers_showLayer. tauto. }
  split; [exact Hh|]. split; [exact Hs|]. split.
  - unfold toggleLayer. destruct (isLayerHidden n v); [exact Hs|exact Hh].
  - intros m Hm. destruct (Ho m Hm) as [H1 H2].
    split; [exact H1|]. split; [exact H2|].
    unfold toggleLayer. destruct (isLayerHidden n v); assumption.
Qed.

Lemma filter_other_id (n : string) (hl : list string) :
  n ∉ hl → List.filter (λ name, negb (bool_decide (name = n))) hl = hl.
Proof.
  induction hl as [|a hl IH]; simpl; [reflexivity|].
  intros H. apply not_elem_of_cons in H as [Ha Hn].
  rewrite bool_decide_eq_false_2 by congruence. simpl. rewrite IH by exact Hn.
  reflexivity.
Qed.

Lemma filter_other_snoc (n : string) (hl : list string) :
  NoDup hl → n ∈ hl →
  List.filter (λ name, negb (bool_decide (name = n))) hl ++ [n] ≡ₚ hl.
Proof.
  induction hl as [|a hl IH]; simpl; intros ND Hin.
  - inversion Hin.
  - apply NoDup_cons in ND as [Ha ND]. destruct (decide (a = n)) as [->|Hne].
    + rewrite bool_decide_eq_true_2 by reflexivity. simpl.
      rewrite filter_other_id by exact Ha.
      symmetry. apply Permutation_cons_append.
    + rewrite bool_decide_eq_false_2 by exact Hne. simpl.
      apply elem_of_cons in Hin as [->|Hin]; [contradiction|].
      constructor. apply IH; assumption.
Qed.

Lemma NoDup_filter_other (n : string) (hl : list string) :
  NoDup hl → NoDup (List.filter (λ name, negb (bool_decide (name = n))) hl).
Proof.
  induction hl as [|a hl IH]; simpl; intros ND; [constructor|].
  apply NoDup_cons in ND as [Ha ND].
  destruct (negb (bool_decide (a = n))); [|apply IH, ND].
  apply NoDup_cons. split; [|apply IH, ND].
  rewrite elem_of_filter_other. tauto.
Qed.

(** X24. The list of hidden layers never names a layer twice: [hideLayer],
    [showLayer] and [toggleLayer] keep it free of duplicates.  Toggling a
    layer twice gives back the same hidden layers, up to their order in the
    list; for a layer that was not hidden the list is exactly as before. *)
Theorem hiddenLayers_NoDup (n : string) (v : Visibility) :
  NoDup (hiddenLayers v) →
  NoDup (hiddenLayers (hideLayer n v))
  ∧ NoDup (hiddenLayers (showLayer n v))
  ∧ NoDup (hiddenLayers (toggleLayer n v))
  ∧ hiddenLayers (toggleLayer n (toggleLayer n v)) ≡ₚ hiddenLayers v
  ∧ (isLayerHidden n v = false →
     hiddenLayers (toggleLayer n (toggleLayer n v)) = hiddenLayers v).
Proof.
  intros ND.
  assert (Hh : NoDup (hiddenLayers (hideLayer n v))).
  { unfold hideLayer. destruct (isLayerHidden n v) eqn:E; simpl; [exact ND|].
    apply isLayerHidden_false in E. apply NoDup_app.
    split; [exact ND|]. split; [|apply NoDup_singleton].
    intros x Hx Hn. apply list_elem_of_singleton in Hn as ->. contradiction. }
  assert (Hs : NoDup (hiddenLayers (showLayer n v))).
  { unfold showLayer. destruct (isLayerHidden n v); simpl; [|exact ND].
    apply NoDup_filter_other, ND. }
  split; [exact Hh|]. split; [exact Hs|]. split.
  { unfold toggleLayer. destruct (isLayerHidden n v); assumption. }
  assert (T : isLayerHidden n (toggleLayer n v) = negb (isLayerHidden n v)).
  { unfold toggleLayer. destruct (isLayerHidden n v) eqn:E.
    - apply isLayerHidden_false. rewrite hiddenLayers_showLayer. tauto.
    - apply isLayerHidden_true, hiddenLayers_hideLayer. auto. }
  unfold toggleLayer at 1 3. rewrite T.
  destruct (isLayerHidden n v) eqn:E; simpl.
  - split; [|discriminate]. unfold toggleLayer. rewrite E.
    unfold hideLayer. rewrite <- (negb_involutive (isLayerHidden n (showLayer n v))).
    assert (Hn : isLayerHidden n (showLayer n v) = false)
      by (apply isLayerHidden_false; rewrite hiddenLayers_showLayer; tauto).
    rewrite Hn. simpl. unfold showLayer. rewrite E. simpl.
    apply filter_other_snoc; [exact ND|]. apply isLayerHidden_true, E.
  - assert (R : hiddenLayers (showLayer n (toggleLayer n v)) = hiddenLayers v).
    { unfold toggleLayer. rewrite E. unfold showLayer.
      assert (Hn : isLayerHidden n (hideLayer n v) = true)
        by (apply isLayerHidden_true, hiddenLayers_hideLayer; auto).
      rewrite Hn. simpl. unfold hideLayer. rewrite E. simpl.
      rewrite List.filter_app. simpl.
      rewrite bool_decide_eq_true_2 by reflexivity. simpl.
      rewrite app_nil_r. apply filter_other_id, isLayerHidden_false, E. }
    rewrite R. split; reflexivity.
Qed.

Lemma hiddenLayers_NoDup_witness :
  NoDup ["bg"; "deco"]
  ∧ hiddenLayers (toggleLayer "bg" (mkVisibility ["bg"; "deco"] [])) = ["deco"]
  ∧ hiddenLayers
      (toggleLayer "bg" (toggleLayer "bg" (mkVisibility ["bg"; "deco"] [])))
    = ["deco"; "bg"]
  ∧ ["deco"; "bg"] ≡ₚ ["bg"; "deco"].
Proof.
  assert (ND : NoDup ["bg"; "deco"]).
  { repeat constructor.
    - intros H. apply list_elem_of_singleton in H. discriminate.
    - intros H. inversion H. }
  split; [exact ND|]. split; [reflexivity|]. split; [reflexivity|].
  destruct (hiddenLayers_NoDup "bg" (mkVisibility ["bg"; "deco"] []) ND)
    as (_ & _ & _ & P & _).
  exact P.
Defined.

Lemma find_layer_element_by_name (n : string) (els : list LayerElement) :
  Forall (λ el, no_separator (le_layer el) = true) els →
  find_layer_element n els = list_find (λ el, le_layer el = n) els.
Proof.
  unfold find_layer_element. induction els as [|el els IH]; intros H;
    [reflexivity|].
  apply Forall_cons in H as [Hel Hels]. cbn [list_find].
  rewrite (decide_ext _ _ _ _ (has_class_layer n (le_layer el) Hel)), (IH Hels).
  reflexivity.
Qed.

(** The display of the element found for [n] after [set_display n d]. *)
Lemma display_of_set_display_same (n d : string) (hl hl' : list string)
    (els : list LayerElement) :
  plain_class_name n = true →
  display_of n (mkVisibility hl (set_display n d els))
  = (λ _, Some d) <$> display_of n (mkVisibility hl' els).
Proof.
  intros Hp. unfold display_of, set_display. rewrite Hp. cbn [layerElements].
  destruct (find_layer_element n els) as [[i el]|] eqn:F; [|rewrite F; reflexivity].
  pose proof F as F0. apply list_find_Some in F0 as (Hi & Hn & _).
  unfold find_layer_element.
  rewrite (list_find_insert_same _ _ _ _ (mkLayerElement (le_layer el) (Some d)) F)
    by exact Hn.
  reflexivity.
Qed.

(** The display of the element of another layer, when no layer name has
    white space in it. *)
Lemma display_of_set_display_other (n d : string) (hl hl' : list string)
    (els : list LayerElement) (m : string) :
  plain_class_name n = true →
  Forall (λ el, no_separator (le_layer el) = true) els →
  m ≠ n →
  display_of m (mkVisibility hl (set_display n d els))
  = display_of m (mkVisibility hl' els).
Proof.
  intros Hp Hsep Hm. unfold display_of, set_display. rewrite Hp.
  cbn [layerElements].
  destruct (find_layer_element n els) as [[i el]|] eqn:F; [|reflexivity].
  rewrite (find_layer_element_by_name n els Hsep) in F.
  apply list_find_Some in F as (Hi & Hn & _).
  rewrite !find_layer_element_by_name.
  - rewrite (list_find_insert_other (λ el, le_layer el = m) _ i el);
      [reflexivity|exact Hi|congruence|simpl; congruence].
  - exact Hsep.
  - apply Forall_insert; [exact Hsep|].
    apply (proj1 (Forall_lookup _ _) Hsep _ _ Hi).
Qed.

Lemma display_after_hide_show (n : string) (v : Visibility) :
  (isLayerHidden n v = true → hideLayer n v = v)
  ∧ (isLayerHidden n v = false → showLayer n v = v)
  ∧ (plain_class_name n = true →
     (isLayerHidden n v = false →
        display_of n (hideLayer n v) = (λ _, Some "none") <$> display_of n v)
     ∧ (isLayerHidden n v = true →
        display_of n (showLayer n v) = (λ _, Some "grid") <$> display_of n v)
     ∧ (Forall (λ el, no_separator (le_layer el) = true) (layerElements v) →
        ∀ m, m ≠ n →
          display_of m (hideLayer n v) = display_of m v
          ∧ display_of m (showLayer n v) = display_of m v)).
Proof.
  destruct v as [hl els].
  unfold hideLayer, showLayer.
  destruct (isLayerHidden n (mkVisibility hl els));
    cbn [negb hiddenLayers layerElements].
  - split; [reflexivity|]. split; [discriminate|]. intros Hp.
    split; [discriminate|]. split.
    + intros _. apply display_of_set_display_same, Hp.
    + intros Hsep m Hm. split; [reflexivity|].
      apply display_of_set_display_other; assumption.
  - split; [discriminate|]. split; [reflexivity|]. intros Hp.
    split; [|split; [discriminate|]].
    + intros _. apply display_of_set_display_same, Hp.
    + intros Hsep m Hm. split; [|reflexivity].
      apply display_of_set_display_other; assumption.
Qed.

(** X25. Hiding a hidden layer and showing a layer that is not hidden change
    nothing at all.  For a layer name that is a plain class name (ASCII
    letters, digits, [-] and [_]): hiding a layer that is not hidden sets the
    display of the element the selector finds, if there is one, to [none],
    and showing a hidden layer sets it to [grid]; and when no layer name in
    the container has white space in it, no call changes the display of
    another layer's element. *)
Theorem hideLayer_showLayer_display (n : string) (v : Visibility) :
  (isLayerHidden n v = true → hideLayer n v = v)
  ∧ (isLayerHidden n v = false → showLayer n v = v)
  ∧ (plain_class_name n = true →
     (isLayerHidden n v = false →
        display_of n (hideLayer n v) = (λ _, Some "none") <$> display_of n v)
     ∧ (isLayerHidden n v = true →
        display_of n (showLayer n v) = (λ _, Some "grid") <$> display_of n v)
     ∧ (Forall (λ el, no_separator (le_layer el) = true) (layerElements v) →
        ∀ m, m ≠ n →
          display_of m (hideLayer n v) = display_of m v
          ∧ display_of m (showLayer n v) = display_of m v)).
Proof. apply display_after_hide_show. Qed.

Lemma hideLayer_showLayer_display_witness :
  display_of "bg"
    (hideLayer "bg"
       (mkVisibility [] [mkLayerElement "bg" (Some "grid");
                         mkLayerElement "deco" (Some "grid")]))
  = Some (Some "none")
  ∧ display_of "deco"
      (hideLayer "bg"
         (mkVisibility [] [mkLayerElement "bg" (Some "grid");
                           mkLayerElement "deco" (Some "grid")]))
    = Some (Some "grid").
Proof.
  destruct (hideLayer_showLayer_display "bg"
              (mkVisibility [] [mkLayerElement "bg" (Some "grid");
                                mkLayerElement "deco" (Some "grid")]))
    as (_ & _ & H).
  destruct (H eq_refl) as (Hn & _ & O).
  split.
  - rewrite Hn by reflexivity. reflexivity.
  - destruct (O ltac:(repeat constructor) "deco") as [O1 _]; [discriminate|].
    rewrite O1. reflexivity.
Defined.

(** X26. [refresh] does not look at the hidden layers.  After the scene was
    built again, the element found for a layer that was hidden is displayed
    as [grid] although [isLayerHidden] still answers true, and [hideLayer] on
    it changes nothing: the layer stays visible until it is shown and hidden
    again.  The name of the layer is a plain class name (ASCII letters,
    digits, [-] and [_]). *)
Theorem refresh_forgets_hidden_layers (n : string) (layers : list string)
    (v : Visibility) :
  plain_class_name n = true →
  isLayerHidden n v = true → n ∈ layers →
  isLayerHidden n (rebuilt layers v) = true
  ∧ display_of n (rebuilt layers v) = Some (Some "grid")
  ∧ hideLayer n (rebuilt layers v) = rebuilt layers v
  ∧ display_of n (hideLayer n (showLayer n (rebuilt layers v)))
    = Some (Some "none").
Proof.
  intros Hp Hh Hin.
  assert (D : display_of n (rebuilt layers v) = Some (Some "grid")).
  { unfold display_of, rebuilt, find_layer_element. cbn [layerElements].
    destruct (list_find_elem_of
                (λ el, has_class (layer_class n) (le_layer el))
                (List.map (λ n, mkLayerElement n (Some "grid")) layers)
                (mkLayerElement n (Some "grid"))) as [[i el] F].
    - apply list_elem_of_In, in_map_iff. exists n.
      split; [reflexivity|]. apply list_elem_of_In, Hin.
    - apply has_class_layer; [apply plain_no_separator, Hp|reflexivity].
    - rewrite F. simpl. apply list_find_Some in F as (Hi & _ & _).
      apply list_elem_of_lookup_2, list_elem_of_In, in_map_iff in Hi
        as (n0 & <- & _).
      reflexivity. }
  assert (H' : isLayerHidden n (rebuilt layers v) = true) by exact Hh.
  split; [exact H'|]. split; [exact D|]. split.
  { unfold hideLayer. rewrite H'. reflexivity. }
  destruct (display_after_hide_show n (showLayer n (rebuilt layers v)))
    as (_ & _ & Hd).
  destruct (Hd Hp) as (Hd1 & _). rewrite Hd1.
  - destruct (display_after_hide_show n (rebuilt layers v)) as (_ & _ & Hs).
    destruct (Hs Hp) as (_ & Hs1 & _).
    rewrite (Hs1 H'), D. reflexivity.
  - apply isLayerHidden_false. rewrite hiddenLayers_showLayer. tauto.
Qed.

Lemma refresh_forgets_hidden_layers_witness :
  isLayerHidden "bg" (mkVisibility ["bg"] [mkLayerElement "bg" (Some "none")])
  = true
  ∧ display_of "bg" (mkVisibility ["bg"] [mkLayerElement "bg" (Some "none")])
    = Some (Some "none")
  ∧ display_of "bg"
      (hideLayer "bg"
         (rebuilt ["bg"]
            (mkVisibility ["bg"] [mkLayerElement "bg" (Some "none")])))
    = Some (Some "grid").
Proof.
  split; [reflexivity|]. split; [reflexivity|].
  destruct (refresh_forgets_hidden_layers "bg" ["bg"]
              (mkVisibility ["bg"] [mkLayerElement "bg" (Some "none")]))
    as (_ & D & I & _).
  - reflexivity.
  - reflexivity.
  - left.
  - rewrite I. exact D.
Defined.

(** ** Clicks and the subscriber object *)

Section ClickFacts.

Context {Callback MouseEvent : Type}.

Implicit Types (h : HoverState Callback) (e : MouseEvent) (p : Page Callback).

Lemma notify_app (l1 l2 : list Callback) (ev : TileMouseEvent MouseEvent) :
  notify (l1 ++ l2) ev = notify l1 ev ++ notify l2 ev.
Proof. unfold notify. apply List.map_app. Qed.

Lemma onTileClicked_subscriptions (cbs : list Callback) h :
  onTileClicked _ (eventSubscriber _ (foldl (λ h cb, onTileClickedEvent cb h) h cbs))
  = onTileClicked _ (eventSubscriber _ h) ++ cbs.
Proof.
  revert h. induction cbs as [|cb cbs IH]; intros h; simpl.
  - rewrite app_nil_r. reflexivity.
  - rewrite IH. simpl. rewrite <- app_assoc. reflexivity.
Qed.

(** X27. A mouse-down on the tile at [(x, y)] calls the functions subscribed
    with [onTileClickedEvent], each once, in the order they were subscribed,
    with the tile's coordinates and the mouse event.  On a scene nobody
    subscribed to, nothing is called.  Subscribing to hover events calls
    nothing more on a click, and subscribing to clicks changes nothing in the
    tracking of the pointer. *)
Theorem onmousedown_calls_subscribers (x y : Z) e h (cbs : list Callback)
    (cb : Callback) (p : Pointer MouseEvent) :
  onmousedown x y e (foldl (λ h cb, onTileClickedEvent cb h) h cbs)
  = onmousedown x y e h ++ List.map (λ cb, call cb (mkEvent x y e)) cbs
  ∧ onmousedown x y e (initial_hover : HoverState Callback) = []
  ∧ onmousedown x y e (onTileHoverEvent _ cb h) = onmousedown x y e h
  ∧ onmousedown x y e (onTileHoverEndEvent _ cb h) = onmousedown x y e h
  ∧ pointer_step p (onTileClickedEvent cb h)
    = (onTileClickedEvent cb (fst (pointer_step p h)), snd (pointer_step p h)).
Proof.
  split; [|split; [reflexivity|split; [reflexivity|split; [reflexivity|]]]].
  - unfold onmousedown. rewrite onTileClicked_subscriptions. apply notify_app.
  - destruct p as [[tx|] [ty|] e'|e']; try reflexivity.
    unfold pointer_step, onmousemove. cbn [onTileClickedEvent lastHoveredTile].
    destruct ((fst (lastHoveredTile _ h) =? tx) && (snd (lastHoveredTile _ h) =? ty));
      reflexivity.
Qed.

Lemma page_constructed_initial : page_constructed (initial_page (Callback := Callback)).
Proof.
  split; [|constructor]. unfold initial_page. cbn [objects].
  rewrite lookup_singleton_eq. eauto.
Qed.

Lemma page_constructed_new_instance p :
  page_constructed p → page_constructed (new_instance p).
Proof.
  intros [H1 H2]. split; [exact H1|]. unfold new_instance. cbn [instances].
  apply Forall_app. split; [exact H2|]. repeat constructor.
Qed.

Lemma page_constructed_subscribe (i : nat) (cb : Callback) p :
  page_constructed p → page_constructed (page_onTileClickedEvent i cb p).
Proof.
  intros [H1 H2]. unfold page_onTileClickedEvent.
  destruct (instances p !! i) as [inst|]; [|split; assumption].
  split; [|exact H2]. cbn [objects].
  destruct (decide (inst_eventSubscriber inst = emptyEventSubscriber_ref)) as [->|N].
  - rewrite lookup_alter_eq. destruct H1 as [sub ->]. simpl. eauto.
  - rewrite lookup_alter_ne by exact N. exact H1.
Qed.

(** X28. All scenes of a page share one subscriber object: the field
    initializer stores the module's [emptyEventSubscriber] itself in every
    new [SceneBuilder].  So a function subscribed to the clicks of one scene
    is called for a mouse-down on a tile of any other scene of the page as
    well, after the functions subscribed before; and a scene made later
    starts with the subscriptions of the scenes before it. *)
Theorem subscribers_shared_between_scenes p (i j : nat) (cb : Callback)
    (x y : Z) e :
  page_constructed p →
  (i < length (instances p))%nat → (j < length (instances p))%nat →
  page_onmousedown j x y e (page_onTileClickedEvent i cb p)
  = page_onmousedown j x y e p ++ [call cb (mkEvent x y e)]
  ∧ page_onmousedown (length (instances p)) x y e (new_instance p)
    = page_onmousedown j x y e p
  ∧ page_constructed (page_onTileClickedEvent i cb p)
  ∧ page_constructed (new_instance p).
Proof.
  intros C Hi Hj.
  split; [|split; [|split; [apply page_constructed_subscribe, C
                           |apply page_constructed_new_instance, C]]].
  - destruct C as [[sub Hsub] Hall].
    destruct (lookup_lt_is_Some_2 _ _ Hi) as [ii Hii].
    destruct (lookup_lt_is_Some_2 _ _ Hj) as [ij Hij].
    pose proof (proj1 (Forall_lookup _ _) Hall _ _ Hii) as Ei.
    pose proof (proj1 (Forall_lookup _ _) Hall _ _ Hij) as Ej.
    cbv beta in Ei, Ej.
    unfold page_onmousedown, page_onTileClickedEvent.
    rewrite Hii. cbn [instances objects]. rewrite Hij, Ei, Ej.
    rewrite lookup_alter_eq, Hsub. simpl. apply notify_app.
  - destruct C as [[sub Hsub] Hall].
    destruct (lookup_lt_is_Some_2 _ _ Hj) as [ij Hij].
    pose proof (proj1 (Forall_lookup _ _) Hall _ _ Hij) as Ej.
    cbv beta in Ej.
    unfold page_onmousedown, new_instance. cbn [instances objects].
    rewrite Hij, Ej.
    rewrite lookup_app_r by lia. rewrite Nat.sub_diag. reflexivity.
Qed.

End ClickFacts.

Lemma subscribers_shared_between_scenes_witness :
  page_onmousedown 1 2 3 7%nat
    (page_onTileClickedEvent 0 "f" (new_instance (new_instance initial_page)))
  = [call "f" (mkEvent 2 3 7%nat)].
Proof.
  destruct (subscribers_shared_between_scenes
              (new_instance (new_instance initial_page)) 0 1 "f" 2 3 7%nat)
    as [H _].
  - split; [exists emptyEventSubscriber; reflexivity|repeat constructor].
  - simpl. lia.
  - simpl. lia.
  - rewrite H. reflexivity.
Defined.

(** ** Building the scene again *)

Lemma concat_replicate_zeros (h w : nat) :
  concat (replicate h (replicate w "0")) = replicate (h * w) "0".
Proof.
  induction h as [|h IH]; simpl; [reflexivity|].
  rewrite IH, replicate_add. reflexivity.
Qed.

Lemma refresh_result (s s' : SceneBuilder) :
  refresh s = Ok s'
  ↔ s' = mkScene (config s) (runtimeLayers s)
           (List.map (λ l, mkGrid (l_name l) (concat (l_tiles l)))
              (c_layers (config s) ++ runtimeLayers s))
    ∧ Forall (λ l, Forall (Forall (drawable (config s))) (l_tiles l))
        (c_layers (config s) ++ runtimeLayers s).
Proof.
  unfold refresh, buildScene.
  pose proof (create_grids_Ok (c_layers (config s) ++ runtimeLayers s) (config s)) as G.
  destruct (create_grids _ (config s)) as [gs|e]; simpl.
  - destruct (proj1 (G gs) eq_refl) as [-> F]. split.
    + intros [= <-]. split; [reflexivity|exact F].
    + intros [-> _]. reflexivity.
  - split; [discriminate|]. intros [_ F].
    pose proof (proj2 (G _) (conj eq_refl F)) as [=].
Qed.

(** X29. [refresh] returns exactly when every cell of every layer, static
    and runtime, can be drawn.  The wrapper then holds one grid per layer,
    static layers first, each with the cells of its layer row by row; the
    configuration and the runtime layers are untouched.  When it throws, it
    is a [TWError] raised for one of the cells. *)
Theorem refresh_returns (s : SceneBuilder) :
  (Forall (λ l, Forall (Forall (drawable (config s))) (l_tiles l))
     (c_layers (config s) ++ runtimeLayers s)
   ↔ ∃ s', refresh s = Ok s')
  ∧ (∀ s', refresh s = Ok s' →
       config s' = config s ∧ runtimeLayers s' = runtimeLayers s
       ∧ dom s' = List.map (λ l, mkGrid (l_name l) (concat (l_tiles l)))
                    (c_layers (config s) ++ runtimeLayers s))
  ∧ (∀ e, refresh s = Throw e →
       ∃ l row c twe,
         l ∈ c_layers (config s) ++ runtimeLayers s ∧ row ∈ l_tiles l ∧ c ∈ row
         ∧ e = TW twe
         ∧ thrown_code (createTileElement c 0 0 (config s)) = Some (code twe)).
Proof.
  split; [|split].
  - split.
    + intros F. eexists. apply refresh_result. split; [reflexivity|exact F].
    + intros [s' H]. apply refresh_result in H as [_ F]. exact F.
  - intros s' H. apply refresh_result in H as [-> _]. repeat split.
  - intros e. unfold refresh, buildScene.
    destruct (create_grids _ (config s)) as [gs|e'] eqn:G; [discriminate|].
    simpl. intros [= ->]. eapply create_grids_throws, G.
Qed.

Lemma refresh_returns_witness :
  ∃ s s',
    demo_scene = Some s
    ∧ refresh s = Ok s'
    ∧ dom s' = [mkGrid "bg" ["G0"; "0"]; mkGrid "furniture" ["0"; "0"];
                mkGrid "furniture" ["0"; "0"]].
Proof.
  destruct demo_scene as [s|] eqn:E; [|vm_compute in E; discriminate].
  destruct (refresh s) as [s'|e] eqn:R;
    [|vm_compute in E; injection E as <-; vm_compute in R; discriminate].
  exists s, s'. split; [reflexivity|]. split; [exact R|].
  destruct (refresh_returns s) as (_ & H & _).
  destruct (H s' R) as (_ & _ & ->).
  vm_compute in E. injection E as <-. reflexivity.
Defined.

(** X30. A runtime layer is drawn twice after the scene is built again.
    [createRuntimeLayer] adds one grid for the new layer to the wrapper, but
    the layer is in the list of runtime layers twice, so on a scene whose
    wrapper shows its layers, a following [refresh] returns and leaves two
    grids of that name, both with [height * width] hidden tiles. *)
Theorem createRuntimeLayer_refresh_two_grids (layerName : string)
    (s s1 : SceneBuilder) :
  createRuntimeLayer layerName s = Returned tt s1 →
  refresh s = Ok s →
  let g := mkGrid layerName
             (replicate (Z.to_nat (m_height (c_main (config s)))
                         * Z.to_nat (m_width (c_main (config s)))) "0") in
  dom s1 = dom s ++ [g]
  ∧ ∃ s2, refresh s1 = Ok s2 ∧ dom s2 = dom s ++ [g; g].
Proof.
  intros C R g.
  assert (F : fresh_name layerName s).
  { apply fresh_name_spec.
    destruct (existsb (has_name layerName) (c_layers (config s))
              || existsb (has_name layerName) (runtimeLayers s)) eqn:E;
      [|reflexivity].
    unfold createRuntimeLayer in C. rewrite E in C. discriminate. }
  rewrite (createRuntimeLayer_fresh _ _ F) in C. injection C as <-.
  split; [reflexivity|].
  apply refresh_result in R as [Hs Hd].
  assert (D : dom s = List.map (λ l, mkGrid (l_name l) (concat (l_tiles l)))
                        (c_layers (config s) ++ runtimeLayers s))
    by (rewrite Hs at 1; reflexivity).
  eexists. split.
  - apply refresh_result. split; [reflexivity|]. cbn [config runtimeLayers].
    rewrite app_assoc. apply Forall_app. split; [exact Hd|].
    assert (Z0 : Forall (Forall (drawable (config s)))
                   (l_tiles (empty_layer_of layerName s))).
    { unfold empty_layer_of. cbn [l_tiles].
      apply Forall_replicate, Forall_replicate. left. reflexivity. }
    repeat constructor; exact Z0.
  - cbn [dom config runtimeLayers].
    rewrite app_assoc, List.map_app, <- D. f_equal.
    unfold empty_layer_of. cbn [List.map l_name l_tiles].
    rewrite concat_replicate_zeros. reflexivity.
Qed.

Lemma createRuntimeLayer_refresh_two_grids_witness :
  ∃ s s1 s2,
    scene_of_text demo_text = Some s
    ∧ createRuntimeLayer "furniture" s = Returned tt s1
    ∧ refresh s1 = Ok s2
    ∧ dom s1 = [mkGrid "bg" ["G0"; "0"]; mkGrid "furniture" ["0"; "0"]]
    ∧ dom s2 = [mkGrid "bg" ["G0"; "0"]; mkGrid "furniture" ["0"; "0"];
                mkGrid "furniture" ["0"; "0"]].
Proof.
  destruct (scene_of_text demo_text) as [s|] eqn:E; [|vm_compute in E; discriminate].
  destruct (createRuntimeLayer "furniture" s) as [[] s1|e s1|] eqn:C;
    [|vm_compute in E; injection E as <-; vm_compute in C; discriminate..].
  assert (R : refresh s = Ok s)
    by (vm_compute in E; injection E as <-; reflexivity).
  destruct (createRuntimeLayer_refresh_two_grids "furniture" s s1 C R)
    as (D1 & s2 & R2 & D2).
  exists s, s1, s2. split; [reflexivity|]. split; [exact C|]. split; [exact R2|].
  rewrite D1, D2. vm_compute in E. injection E as <-. split; reflexivity.
Defined.
